(** * youtube-mcp-server: a shallow embedding of the tool handlers, the
      schema registry and the dispatch engine.

    Definitions
    - [Py]        : the fragment of Python the sources rely on (dynamic values,
                    exceptions, truthiness, string and dictionary operations,
                    calls with keyword arguments, a state-and-error monad);
    - [Re]        : a backtracking matcher for the regular-expression operators
                    used by [parse_duration];
    - [Handlers]  : youtube_mcp_server/handlers.py, the three handlers over
                    their external collaborators;
    - [Tools]     : the table [TOOL_FUNCTIONS] of handlers.py;
    - [Server]    : youtube_mcp_server/server.py;
    - [Validator] : the validator and the tool contracts of the specification;
    - [Engine]    : the dispatch entry point of the specification, around
                    [handle_call_tool];
    - [TestServer] : test_server.py, the runner that calls the tool functions
                    and validates what goes in and what comes out.

    Properties
    - [PyFacts], [ReFacts], [DurationFacts], [VideosFacts], [TranscriptFacts],
      [ToolsFacts], [ServerFacts], [RegistryFacts];
    - [Scenario]  : a concrete deployment on which the statements are run;
    - [MonadFacts], [HandlersMore], [ServerMore], [TestServerFacts]: further
      properties of the handlers, of the server and of the test runner;
    - [Checks]    : these properties on the concrete deployment.

    Strings are Rocq strings, so characters are single bytes: the model covers
    ASCII text (Python's whitespace and digit classes restricted to ASCII).
    [int] refuses a literal of more than 4300 digits, the interpreter's
    default limit. An [except Exception] clause catches every class but the
    four that derive from [BaseException] only. The texts of exceptions
    raised by the interpreter itself are indicative. *)

From Stdlib Require Import ZArith String Ascii List Bool Lia Floats.
From stdpp Require Import base gmap strings list.

Set Warnings "-register-all".

Local Open Scope string_scope.
Local Open Scope Z_scope.

(* ===================================================================== *)
(** * The Python fragment                                                 *)
(* ===================================================================== *)

Module Py.

(** Values that cross the tool boundary: what [json.load] produces, what the
    protocol layer passes as arguments, what handlers return. Dictionaries keep
    insertion order, hence the association list. *)
Inductive pyval : Type :=
| PNone
| PBool (b : bool)
| PInt (n : Z)
| PFloat (f : float)
| PStr (s : string)
| PList (l : list pyval)
| PDict (d : list (string * pyval)).

(** [type(v).__name__] *)
Definition type_name (v : pyval) : string :=
  match v with
  | PNone => "NoneType"
  | PBool _ => "bool"
  | PInt _ => "int"
  | PFloat _ => "float"
  | PStr _ => "str"
  | PList _ => "list"
  | PDict _ => "dict"
  end.

(** Exception classes that the sources raise, catch or let through. The last
    four derive from [BaseException] without deriving from [Exception]: an
    [except Exception] clause does not catch them. *)
Inductive exn_class : Type :=
| ValueError | TypeError | KeyError | AttributeError | IndexError
| FileNotFoundError | JSONDecodeError | OSError
| HttpError
| TranscriptsDisabled | NoTranscriptFound | VideoUnavailable
| ValidationError
| OtherException
| KeyboardInterrupt | SystemExit | GeneratorExit | CancelledError.

(** An exception object: its class, [str(e)], and (for [HttpError]) the
    [error_details] attribute. *)
Record exn : Type := Exn {
  exn_class_of : exn_class;
  exn_str : string;
  error_details : pyval
}.

Definition mk_exn (c : exn_class) (msg : string) : exn := Exn c msg (PStr "").

Definition exn_class_eqb (a b : exn_class) : bool :=
  match a, b with
  | ValueError, ValueError | TypeError, TypeError | KeyError, KeyError
  | AttributeError, AttributeError | IndexError, IndexError
  | FileNotFoundError, FileNotFoundError | JSONDecodeError, JSONDecodeError
  | OSError, OSError | HttpError, HttpError
  | TranscriptsDisabled, TranscriptsDisabled
  | NoTranscriptFound, NoTranscriptFound
  | VideoUnavailable, VideoUnavailable
  | ValidationError, ValidationError
  | OtherException, OtherException
  | KeyboardInterrupt, KeyboardInterrupt | SystemExit, SystemExit
  | GeneratorExit, GeneratorExit | CancelledError, CancelledError => true
  | _, _ => false
  end.

Definition is_class (c : exn_class) (e : exn) : bool :=
  exn_class_eqb c (exn_class_of e).

(** [isinstance(e, Exception)]: what an [except Exception] clause catches. *)
Definition is_exception (e : exn) : bool :=
  match exn_class_of e with
  | KeyboardInterrupt | SystemExit | GeneratorExit | CancelledError => false
  | _ => true
  end.

(** ** Results and the state-and-error monad *)

Inductive outcome (A : Type) : Type :=
| Return (a : A)
| Raise (e : exn).
Arguments Return {A} a.
Arguments Raise {A} e.

Definition obind {A B} (o : outcome A) (k : A -> outcome B) : outcome B :=
  match o with
  | Return a => k a
  | Raise e => Raise e
  end.

(** A computation over a state [S]: external world, log, ... *)
Definition M (S A : Type) : Type := S -> outcome A * S.

Definition ret {S A} (a : A) : M S A := fun s => (Return a, s).
Definition raise {S A} (e : exn) : M S A := fun s => (Raise e, s).
Definition lift {S A} (o : outcome A) : M S A := fun s => (o, s).

Definition bind {S A B} (m : M S A) (k : A -> M S B) : M S B :=
  fun s => match m s with
           | (Return a, s') => k a s'
           | (Raise e, s') => (Raise e, s')
           end.

(** [try: m  except <handled by h>]: [h e = None] means that no clause of the
    [try] statement matches [e], which then propagates. *)
Definition try_except {S A} (m : M S A) (h : exn -> option (M S A)) : M S A :=
  fun s => match m s with
           | (Return a, s') => (Return a, s')
           | (Raise e, s') =>
               match h e with
               | Some k => k s'
               | None => (Raise e, s')
               end
           end.

Declare Scope py_scope.
Delimit Scope py_scope with py.
Notation "'let*' x ':=' m 'in' k" := (bind m (fun x => k))
  (at level 10, x name, m at level 100, k at level 200, only parsing) : py_scope.
Notation "'let?' x ':=' o 'in' k" := (obind o (fun x => k))
  (at level 10, x name, o at level 100, k at level 200, only parsing) : py_scope.

Local Open Scope py_scope.

(** ** Truthiness, [len], iteration *)

Definition truthy (v : pyval) : bool :=
  match v with
  | PNone => false
  | PBool b => b
  | PInt n => negb (n =? 0)
  | PFloat f => negb (PrimFloat.eqb f 0%float)
  | PStr s => negb (String.eqb s "")
  | PList l => match l with [] => false | _ => true end
  | PDict d => match d with [] => false | _ => true end
  end.

Definition chars (s : string) : list string :=
  List.map (fun c => String c "") (list_ascii_of_string s).

Definition py_len (v : pyval) : outcome Z :=
  match v with
  | PStr s => Return (Z.of_nat (String.length s))
  | PList l => Return (Z.of_nat (List.length l))
  | PDict d => Return (Z.of_nat (List.length d))
  | _ => Raise (mk_exn TypeError
                  ("object of type '" +:+ type_name v +:+ "' has no len()"))
  end.

(** [for x in v]: the elements a loop over [v] visits. *)
Definition py_iter (v : pyval) : outcome (list pyval) :=
  match v with
  | PStr s => Return (List.map PStr (chars s))
  | PList l => Return l
  | PDict d => Return (List.map (fun kv => PStr (fst kv)) d)
  | _ => Raise (mk_exn TypeError
                  ("'" +:+ type_name v +:+ "' object is not iterable"))
  end.

(** ** String methods *)

(** [str.isspace] on ASCII: TAB..CR, FS..US and the blank. *)
Definition is_space (c : ascii) : bool :=
  let n := nat_of_ascii c in
  ((9 <=? n)%nat && (n <=? 13)%nat)
  || ((28 <=? n)%nat && (n <=? 32)%nat).

Fixpoint lstrip (s : string) : string :=
  match s with
  | String c s' => if is_space c then lstrip s' else s
  | EmptyString => EmptyString
  end.

Fixpoint rstrip (s : string) : string :=
  match s with
  | String c s' =>
      match rstrip s' with
      | EmptyString => if is_space c then EmptyString else String c EmptyString
      | r => String c r
      end
  | EmptyString => EmptyString
  end.

(** [s.strip()] *)
Definition strip (s : string) : string := rstrip (lstrip s).

(** [v.strip()] on an arbitrary value. *)
Definition py_strip (v : pyval) : outcome string :=
  match v with
  | PStr s => Return (strip s)
  | _ => Raise (mk_exn AttributeError
                  ("'" +:+ type_name v +:+ "' object has no attribute 'strip'"))
  end.

Definition is_digit (c : ascii) : bool :=
  let n := nat_of_ascii c in (48 <=? n)%nat && (n <=? 57)%nat.

Definition digit_value (c : ascii) : Z := Z.of_nat (nat_of_ascii c) - 48.

(** Value of a run of decimal digits, most significant first. *)
Fixpoint digits_value (acc : Z) (s : string) : Z :=
  match s with
  | String c s' => digits_value (10 * acc + digit_value c) s'
  | EmptyString => acc
  end.

Fixpoint all_digits (s : string) : bool :=
  match s with
  | String c s' => is_digit c && all_digits s'
  | EmptyString => true
  end.

(** A non-empty run of decimal digits: what [\d+] matches. *)
Definition is_digits (s : string) : bool :=
  negb (String.eqb s "") && all_digits s.

(** Digits of an [int] literal after the sign: single underscores are allowed
    between digits. [prev] tells whether the previous character was a digit. *)
Fixpoint int_body (s : string) (acc : Z) (prev : bool) : option Z :=
  match s with
  | String c s' =>
      if is_digit c then int_body s' (10 * acc + digit_value c) true
      else if Ascii.eqb c "_" && prev then int_body s' acc false
      else None
  | EmptyString => if prev then Some acc else None
  end.

(** [sys.get_int_max_str_digits()], as the interpreter sets it by default. *)
Definition int_max_str_digits : nat := 4300.

(** The number of digit characters of [s]. *)
Fixpoint count_digits (s : string) : nat :=
  match s with
  | String c s' => if is_digit c then S (count_digits s') else count_digits s'
  | EmptyString => O
  end.

(** The longest prefix of [s] made of digits and underscores. *)
Fixpoint numeric_run (s : string) : string :=
  match s with
  | String c s' =>
      if is_digit c || Ascii.eqb c "_" then String c (numeric_run s') else ""
  | EmptyString => ""
  end.

(** An optional sign and what follows it. *)
Definition split_sign (t : string) : bool * string :=
  match t with
  | String "+" u => (false, u)
  | String "-" u => (true, u)
  | _ => (false, t)
  end.

Definition digit_limit_error : exn :=
  mk_exn ValueError
    "Exceeds the limit (4300 digits) for integer string conversion".

(** [int(s)] for a string [s]: surrounding whitespace, an optional sign, decimal
    digits. In the interpreter's order: the run of digits and underscores is
    scanned, a run of more than [int_max_str_digits] digits (leading zeros
    included) is refused, then anything left after the run makes the literal
    invalid. *)
Definition py_int (s : string) : outcome Z :=
  let invalid :=
    Raise (mk_exn ValueError
             ("invalid literal for int() with base 10: '" +:+ s +:+ "'")) in
  let signed := split_sign (strip s) in
  let digits := numeric_run (snd signed) in
  match int_body digits 0 false with
  | Some n =>
      if (int_max_str_digits <? count_digits digits)%nat then
        Raise digit_limit_error
      else if String.eqb digits (snd signed) then
        Return (if fst signed then - n else n)
      else invalid
  | None => invalid
  end.

(** [sep.join(xs)] for strings. *)
Fixpoint join (sep : string) (xs : list string) : string :=
  match xs with
  | [] => ""
  | [x] => x
  | x :: rest => x +:+ sep +:+ join sep rest
  end.

(** [sep.join(v)] for an arbitrary iterable [v]. *)
Definition py_join (sep : string) (v : pyval) : outcome string :=
  let? elems := py_iter v in
  let fix strings (l : list pyval) : outcome (list string) :=
    match l with
    | [] => Return []
    | PStr s :: l' => let? rest := strings l' in Return (s :: rest)
    | x :: _ =>
        Raise (mk_exn TypeError
                 ("sequence item: expected str instance, "
                    +:+ type_name x +:+ " found"))
    end in
  let? xs := strings elems in
  Return (join sep xs).

(** ** Dictionaries and subscripts *)

Fixpoint dict_get (d : list (string * pyval)) (k : string) : option pyval :=
  match d with
  | [] => None
  | (k', v) :: d' => if String.eqb k' k then Some v else dict_get d' k
  end.

(** [d[k] = v]: an existing key keeps its position, a new one goes last. *)
Fixpoint dict_set (d : list (string * pyval)) (k : string) (v : pyval)
    : list (string * pyval) :=
  match d with
  | [] => [(k, v)]
  | (k', v') :: d' =>
      if String.eqb k' k then (k', v) :: d' else (k', v') :: dict_set d' k v
  end.

(** [v[k]] for a string key [k]. *)
Definition py_getitem (v : pyval) (k : string) : outcome pyval :=
  match v with
  | PDict d =>
      match dict_get d k with
      | Some x => Return x
      | None => Raise (mk_exn KeyError ("'" +:+ k +:+ "'"))
      end
  | PStr _ =>
      Raise (mk_exn TypeError "string indices must be integers, not 'str'")
  | PList _ =>
      Raise (mk_exn TypeError
               "list indices must be integers or slices, not str")
  | _ =>
      Raise (mk_exn TypeError
               ("'" +:+ type_name v +:+ "' object is not subscriptable"))
  end.

(** [v[0]] *)
Definition py_first (v : pyval) : outcome pyval :=
  match v with
  | PList (x :: _) => Return x
  | PList [] => Raise (mk_exn IndexError "list index out of range")
  | PStr (String c _) => Return (PStr (String c ""))
  | PStr EmptyString => Raise (mk_exn IndexError "string index out of range")
  | PDict _ => Raise (mk_exn KeyError "0")
  | _ =>
      Raise (mk_exn TypeError
               ("'" +:+ type_name v +:+ "' object is not subscriptable"))
  end.

(** [v.get(k, default)] *)
Definition py_get (v : pyval) (k : string) (default : pyval) : outcome pyval :=
  match v with
  | PDict d =>
      Return (match dict_get d k with Some x => x | None => default end)
  | _ =>
      Raise (mk_exn AttributeError
               ("'" +:+ type_name v +:+ "' object has no attribute 'get'"))
  end.

Fixpoint is_substring (k s : string) : bool :=
  match s with
  | String _ s' => String.prefix k s || is_substring k s'
  | EmptyString => String.prefix k s
  end.

(** [k in v] for a string [k]. *)
Definition py_contains (k : string) (v : pyval) : outcome bool :=
  match v with
  | PDict d => Return (match dict_get d k with Some _ => true | None => false end)
  | PList l =>
      Return (existsb (fun x => match x with
                                | PStr s => String.eqb s k
                                | _ => false
                                end) l)
  | PStr s => Return (is_substring k s)
  | _ =>
      Raise (mk_exn TypeError
               ("argument of type '" +:+ type_name v +:+ "' is not iterable"))
  end.

(** [v[k] = x], giving the updated object. *)
Definition py_setitem (v : pyval) (k : string) (x : pyval) : outcome pyval :=
  match v with
  | PDict d => Return (PDict (dict_set d k x))
  | _ =>
      Raise (mk_exn TypeError
               ("'" +:+ type_name v
                  +:+ "' object does not support item assignment"))
  end.

(** A loop body applied to each element in turn; the first exception ends it. *)
Fixpoint for_each {A B} (f : A -> outcome B) (l : list A) : outcome (list B) :=
  match l with
  | [] => Return []
  | x :: l' =>
      let? y := f x in
      let? ys := for_each f l' in
      Return (y :: ys)
  end.

(** Values that can be members of a set or keys of a dictionary. *)
Definition hashable (v : pyval) : bool :=
  match v with
  | PList _ | PDict _ => false
  | _ => true
  end.

(** ** Calls with keyword arguments *)

(** The keyword arguments of a call [f( **arguments )]. *)
Abbreviation kwargs := (list (string * pyval)).

Fixpoint kwargs_get (a : kwargs) (k : string) : option pyval :=
  match a with
  | [] => None
  | (k', v) :: a' => if String.eqb k' k then Some v else kwargs_get a' k
  end.

(** Binding for a function [def f(required, optional=None)]: the values of the
    two parameters, or the [TypeError] of a call that does not fit the
    signature (in which case the body of [f] does not run). *)
Definition bind_parameters (f required optional : string) (a : kwargs)
    : outcome (pyval * pyval) :=
  match List.find (fun kv => negb (String.eqb (fst kv) required
                                   || String.eqb (fst kv) optional)) a with
  | Some (k, _) =>
      Raise (mk_exn TypeError
               (f +:+ "() got an unexpected keyword argument '" +:+ k +:+ "'"))
  | None =>
      match kwargs_get a required with
      | None =>
          Raise (mk_exn TypeError
                   (f +:+ "() missing 1 required positional argument: '"
                      +:+ required +:+ "'"))
      | Some v =>
          Return (v, match kwargs_get a optional with
                     | Some o => o
                     | None => PNone
                     end)
      end
  end.

(** ** Keys of a dictionary built by the program *)

(** Exact comparison of a float with an integer. *)
Definition float_eq_int (f : float) (n : Z) : bool :=
  match Prim2SF f with
  | S754_zero _ => n =? 0
  | S754_finite s m e =>
      let v := if s then Z.neg m else Z.pos m in
      if 0 <=? e then v * 2 ^ e =? n else v =? n * 2 ^ (- e)
  | _ => false
  end.

(** [a == b] for hashable values: numbers (booleans included) compare by
    value, [None] and strings by identity of content. *)
Definition key_eqb (a b : pyval) : bool :=
  let int_of v := match v with
                  | PBool c => Some (if c then 1 else 0)
                  | PInt n => Some n
                  | _ => None
                  end in
  match a, b with
  | PNone, PNone => true
  | PStr s, PStr t => String.eqb s t
  | PFloat f, PFloat h => PrimFloat.eqb f h
  | PFloat f, _ =>
      match int_of b with Some n => float_eq_int f n | None => false end
  | _, PFloat h =>
      match int_of a with Some n => float_eq_int h n | None => false end
  | _, _ =>
      match int_of a, int_of b with
      | Some n, Some m => n =? m
      | _, _ => false
      end
  end.

(** A dictionary with arbitrary hashable keys, in insertion order. *)
Abbreviation keyed := (list (pyval * pyval)).

Fixpoint keyed_set (d : keyed) (k v : pyval) : keyed :=
  match d with
  | [] => [(k, v)]
  | (k', v') :: d' =>
      if key_eqb k' k then (k', v) :: d' else (k', v') :: keyed_set d' k v
  end.

(** [d[k]], when the key is there. *)
Fixpoint keyed_get (d : keyed) (k : pyval) : option pyval :=
  match d with
  | [] => None
  | (k', v) :: d' => if key_eqb k' k then Some v else keyed_get d' k
  end.

(** What the interpreter alone decides: the text of [repr(v)] and of a set
    display (whose element order follows the process's hash seed). *)
Record runtime : Type := {
  repr : pyval -> string;
  repr_set : list pyval -> string
}.

(** [str(v)] *)
Definition py_str (rt : runtime) (v : pyval) : string :=
  match v with
  | PStr s => s
  | _ => repr rt v
  end.

End Py.

(* ===================================================================== *)
(** * Regular expressions, as far as [parse_duration] needs them          *)
(* ===================================================================== *)

Module Re.
Import Py.

(** The operators that occur in the pattern of [parse_duration]. A
    non-capturing group [(?:r)] is [r] itself. *)
Inductive regex : Type :=
| Lit (c : ascii)              (* a literal character *)
| Digits1                      (* \d+  (greedy) *)
| Cat (r1 r2 : regex)          (* r1 r2 *)
| Opt (r : regex)              (* r?   (greedy) *)
| Grp (i : nat) (r : regex).   (* (r), capturing group number i *)

(** Group number -> captured text; a group that took no part in the match is
    [None], as with [match.group(i)]. *)
Definition groups : Type := nat -> option string.

Definition no_groups : groups := fun _ => None.

Definition set_group (i : nat) (s : string) (g : groups) : groups :=
  fun j => if Nat.eqb i j then Some s else g j.

(** The text consumed between input [s] and its suffix [s']. *)
Definition consumed (s s' : string) : string :=
  substring 0 (String.length s - String.length s') s.

(** [\d+] with backtracking: the longest run of digits is tried first, then
    shorter ones, until the continuation accepts. *)
Fixpoint digits1 {R} (s : string) (k : string -> option R) : option R :=
  match s with
  | String c s' =>
      if is_digit c then
        match digits1 s' k with
        | Some r => Some r
        | None => k s'
        end
      else None
  | EmptyString => None
  end.

(** Backtracking matcher in continuation-passing style: [k] is what remains to
    be matched after [r]. Alternatives are explored in the engine's order
    (greedy first), and the first complete match wins. *)
Fixpoint run {R} (r : regex) (s : string) (g : groups)
    (k : string -> groups -> option R) : option R :=
  match r with
  | Lit c =>
      match s with
      | String c' s' => if Ascii.eqb c c' then k s' g else None
      | EmptyString => None
      end
  | Digits1 => digits1 s (fun s' => k s' g)
  | Cat r1 r2 => run r1 s g (fun s' g' => run r2 s' g' k)
  | Opt r1 =>
      match run r1 s g k with
      | Some x => Some x
      | None => k s g
      end
  | Grp i r1 => run r1 s g (fun s' g' => k s' (set_group i (consumed s s') g'))
  end.

(** [re.match(r, s)]: a match anchored at the start of [s] only. *)
Definition re_match (r : regex) (s : string) : option groups :=
  run r s no_groups (fun _ g => Some g).

End Re.

(* ===================================================================== *)
(** * handlers.py                                                         *)
(* ===================================================================== *)

Module Handlers.
Import Py Re.
Local Open Scope py_scope.

(** (?:(\d+)c)?  with group number [i] *)
Definition component (i : nat) (c : ascii) : regex :=
  Opt (Cat (Grp i Digits1) (Lit c)).

(** r"PT(?:(\d+)H)?(?:(\d+)M)?(?:(\d+)S)?" *)
Definition pattern : regex :=
  Cat (Lit "P") (Cat (Lit "T")
    (Cat (component 1 "H") (Cat (component 2 "M") (component 3 "S")))).

(** [int(match.group(i)) if match.group(i) else 0] *)
Definition group_seconds (m : groups) (i : nat) : outcome Z :=
  match m i with
  | Some d => if truthy (PStr d) then py_int d else Return 0
  | None => Return 0
  end.

(** [parse_duration(duration_str)]. The argument is what the caller passes:
    a string by the annotation, any value of the API response in fact;
    [re.match] refuses what is not a string. *)
Definition parse_duration (duration_str : pyval) : outcome Z :=
  if negb (truthy duration_str) then Return 0
  else
    match duration_str with
    | PStr s =>
        match re_match pattern s with
        | None => Return 0
        | Some m =>
            let? hours := group_seconds m 1 in
            let? minutes := group_seconds m 2 in
            let? seconds := group_seconds m 3 in
            Return (hours * 3600 + minutes * 60 + seconds)
        end
    | _ => Raise (mk_exn TypeError "expected string or bytes-like object")
    end.

(** One cue of a fetched transcript. *)
Record Snippet : Type := {
  text : string;
  start : float;
  duration : float
}.

Section WithWorld.

(** The world outside the process: the video platform, the network. *)
Context {W : Type}.

(** A caption track as the transcript library hands it out. *)
Record Transcript : Type := {
  language_code : string;
  is_generated : bool;
  fetch : M W (list Snippet)
}.

(** The library's transcript list: iteration order and lookup by language
    code ([None]: the library raises [NoTranscriptFound]). *)
Record TranscriptList : Type := {
  tracks : list Transcript;
  find_transcript : list string -> option Transcript
}.

(** The external collaborators of the handlers. *)
Record services : Type := {
  (* os.getenv("YOUTUBE_API_KEY") *)
  YOUTUBE_API_KEY : option string;
  (* build("youtube", "v3", developerKey=key) *)
  build : string -> M W unit;
  (* youtube.search().list(...).execute(), called with the search parameters *)
  search_list_execute : list (string * pyval) -> M W pyval;
  (* youtube.videos().list(part=part, id=id).execute() *)
  videos_list_execute : string -> string -> M W pyval;
  (* YouTubeTranscriptApi().list(video_id) *)
  transcript_api_list : string -> M W TranscriptList
}.

Variable rt : runtime.
Variable svc : services.

Definition value_error {A} (msg : string) : M W A :=
  raise (mk_exn ValueError msg).

Definition validate_youtube_api_key : M W unit :=
  match YOUTUBE_API_KEY svc with
  | Some key =>
      if truthy (PStr key) then ret tt
      else value_error "YOUTUBE_API_KEY environment variable is required"
  | None => value_error "YOUTUBE_API_KEY environment variable is required"
  end.

Definition build_youtube_service : M W unit :=
  let* _ := validate_youtube_api_key in
  build svc (match YOUTUBE_API_KEY svc with Some key => key | None => "" end).

(** The two [except] clauses shared by [search_videos] and [get_videos]:
    [except HttpError as e] and [except Exception as e]. *)
Definition api_error_clauses (activity : string) (e : exn)
    : option (M W pyval) :=
  if is_class HttpError e then
    Some (
      let* details :=
        lift (if truthy (error_details e) then py_first (error_details e)
              else Return (PDict [])) in
      let* error_message := lift (py_get details "message" (PStr (exn_str e))) in
      value_error ("YouTube API error: " +:+ py_str rt error_message))
  else if is_exception e then
    Some (value_error ("Unexpected error during " +:+ activity +:+ ": "
                         +:+ exn_str e))
  else None.

(** [not v or not v.strip()] *)
Definition blank (v : pyval) : outcome bool :=
  if negb (truthy v) then Return true
  else let? s := py_strip v in Return (negb (truthy (PStr s))).

(** ** search_videos *)

Definition process_item (item : pyval) : outcome pyval :=
  let? id1 := py_getitem item "id" in
  let? kind := py_getitem id1 "kind" in
  let? id2 := py_getitem item "id" in
  let? videoId := py_getitem id2 "videoId" in
  let? snippet := py_getitem item "snippet" in
  Return (PDict [("id", PDict [("kind", kind); ("videoId", videoId)]);
                 ("snippet", snippet)]).

(** [if response.get(key): result[key] = response[key]] *)
Definition copy_token (response : pyval) (key : string)
    (result : list (string * pyval)) : outcome (list (string * pyval)) :=
  let? tok := py_get response key PNone in
  if truthy tok then
    let? v := py_getitem response key in Return (dict_set result key v)
  else Return result.

Definition search_videos (query pageToken : pyval) : M W pyval :=
  let* b := lift (blank query) in
  if b then value_error "query parameter is required and cannot be empty"
  else
    try_except
      (let* _ := build_youtube_service in
       let* q := lift (py_strip query) in
       let search_params :=
         [("q", PStr q); ("part", PStr "snippet"); ("type", PStr "video");
          ("maxResults", PInt 10); ("order", PStr "relevance")] in
       let search_params :=
         if truthy pageToken then dict_set search_params "pageToken" pageToken
         else search_params in
       let* search_response := search_list_execute svc search_params in
       lift (
         let? raw := py_getitem search_response "items" in
         let? raw_items := py_iter raw in
         let? items := for_each process_item raw_items in
         let? page_info := py_get search_response "pageInfo" (PDict []) in
         let? total := py_get page_info "totalResults" (PInt 0) in
         let result :=
           [("items", PList items);
            ("pageInfo",
             PDict [("totalResults", total);
                    ("resultsPerPage", PInt (Z.of_nat (List.length items)))])] in
         let? result := copy_token search_response "nextPageToken" result in
         let? result := copy_token search_response "prevPageToken" result in
         Return (PDict result)))
      (api_error_clauses "video search").

(** ** get_videos *)

Definition valid_parts : list string :=
  ["snippet"; "contentDetails"; "statistics"; "status"; "player";
   "recordingDetails"; "fileDetails"; "processingDetails"; "suggestions";
   "liveStreamingDetails"; "localizations"; "topicDetails"].

Definition is_valid_part (v : pyval) : bool :=
  match v with
  | PStr s => existsb (String.eqb s) valid_parts
  | _ => false
  end.

(** [not video_id or not isinstance(video_id, str) or not video_id.strip()] *)
Definition bad_video_id (video_id : pyval) : bool :=
  match video_id with
  | PStr s => negb (truthy video_id) || negb (truthy (PStr (strip s)))
  | _ => true
  end.

(** [set(parts) - valid_parts], as the members of [parts] that are no valid
    part name; building the set fails on a member that cannot be hashed. *)
Definition invalid_parts_of (parts : pyval) : outcome (list pyval) :=
  let? members := py_iter parts in
  match List.find (fun v => negb (hashable v)) members with
  | Some v =>
      Raise (mk_exn TypeError ("unhashable type: '" +:+ type_name v +:+ "'"))
  | None => Return (List.filter (fun v => negb (is_valid_part v)) members)
  end.

(** The loop body of [get_videos]: add [durationSeconds] next to [duration]. *)
Definition add_duration_seconds (parts video : pyval) : outcome pyval :=
  let? wanted := py_contains "contentDetails" parts in
  let? present :=
    if wanted then py_contains "contentDetails" video else Return false in
  if present then
    let? details := py_getitem video "contentDetails" in
    let? has_duration := py_contains "duration" details in
    if has_duration then
      let? details1 := py_getitem video "contentDetails" in
      let? d := py_getitem details1 "duration" in
      let? seconds := parse_duration d in
      let? details2 := py_getitem video "contentDetails" in
      let? details3 := py_setitem details2 "durationSeconds" (PInt seconds) in
      py_setitem video "contentDetails" details3
    else Return video
  else Return video.

Definition get_videos (ids parts : pyval) : M W pyval :=
  if negb (truthy ids) then
    value_error "ids parameter is required and cannot be empty"
  else
    let* n := lift (py_len ids) in
    if 50 <? n then value_error "Maximum 50 video IDs allowed per request"
    else
      let* members := lift (py_iter ids) in
      if existsb bad_video_id members then
        value_error "All video IDs must be non-empty strings"
      else
        let parts :=
          match parts with PNone => PList [PStr "snippet"] | _ => parts end in
        let* invalid_parts := lift (invalid_parts_of parts) in
        if truthy (PList invalid_parts) then
          value_error ("Invalid parts: " +:+ repr_set rt invalid_parts
                         +:+ ". Valid parts are: "
                         +:+ repr_set rt (List.map PStr valid_parts))
        else
          try_except
            (let* _ := build_youtube_service in
             let* part := lift (py_join "," parts) in
             let* id := lift (py_join "," ids) in
             let* videos_response := videos_list_execute svc part id in
             lift (
               let? raw := py_getitem videos_response "items" in
               let? videos := py_iter raw in
               let? items := for_each (add_duration_seconds parts) videos in
               let n := PInt (Z.of_nat (List.length items)) in
               Return (PDict [("items", PList items);
                              ("pageInfo", PDict [("totalResults", n);
                                                  ("resultsPerPage", n)])])))
            (api_error_clauses "video retrieval").

(** ** get_transcript *)

(** The result for "no transcript available". *)
Definition no_transcript (video_id : string) : pyval :=
  PDict [("videoId", PStr video_id); ("transcript", PList []);
         ("available", PBool false); ("language", PNone)].

(** [float(entry.start)] and [float(entry.duration)] leave the floats of the
    library as they are. *)
Definition format_snippet (entry : Snippet) : pyval :=
  PDict [("text", PStr (text entry)); ("start", PFloat (start entry));
         ("duration", PFloat (duration entry))].

Definition transcript_result (video_id : string)
    (transcript_data : list Snippet) (language_code : string) : pyval :=
  PDict [("videoId", PStr video_id);
         ("transcript", PList (List.map format_snippet transcript_data));
         ("available", PBool true); ("language", PStr language_code)].

(** Step 1: the requested language, when one is given
    ([if language and language.strip()]). *)
Definition select_requested (transcript_list : TranscriptList)
    (language : pyval) : outcome (option (Transcript * string)) :=
  if truthy language then
    let? l := py_strip language in
    if truthy (PStr l) then
      match find_transcript transcript_list [l] with
      | Some t => Return (Some (t, l))
      | None => Return None
      end
    else Return None
  else Return None.

(** Steps 2 to 4, each tried only while nothing has been selected yet. *)
Definition select_fallback (transcript_list : TranscriptList)
    : option (Transcript * string) :=
  match find_transcript transcript_list ["en"] with
  | Some t => Some (t, "en")
  | None =>
      match List.find (fun t => negb (is_generated t)) (tracks transcript_list)
      with
      | Some t => Some (t, language_code t)
      | None =>
          match tracks transcript_list with
          | t :: _ => Some (t, language_code t)
          | [] => None
          end
      end
  end.

(** The selected track and the value of [language_code], or [None]. *)
Definition select_transcript (transcript_list : TranscriptList)
    (language : pyval) : outcome (option (Transcript * string)) :=
  let? requested := select_requested transcript_list language in
  match requested with
  | Some choice => Return (Some choice)
  | None => Return (select_fallback transcript_list)
  end.

(** The four [except] clauses that close [get_transcript]. *)
Definition transcript_error_clauses (video_id : string) (e : exn)
    : option (M W pyval) :=
  if is_class TranscriptsDisabled e then Some (ret (no_transcript video_id))
  else if is_class NoTranscriptFound e then Some (ret (no_transcript video_id))
  else if is_class VideoUnavailable e then
    Some (value_error ("Video " +:+ video_id
                         +:+ " is unavailable or does not exist"))
  else if is_exception e then
    Some (value_error ("Unexpected error during transcript retrieval: "
                         +:+ exn_str e))
  else None.

Definition get_transcript (videoId language : pyval) : M W pyval :=
  let* b := lift (blank videoId) in
  if b then value_error "videoId parameter is required and cannot be empty"
  else
    let* video_id := lift (py_strip videoId) in
    try_except
      (let* transcript_list := transcript_api_list svc video_id in
       let* choice := lift (select_transcript transcript_list language) in
       match choice with
       | None => ret (no_transcript video_id)
       | Some (transcript, language_code) =>
           let* transcript_data := fetch transcript in
           ret (transcript_result video_id transcript_data language_code)
       end)
      (transcript_error_clauses video_id).

End WithWorld.

Arguments Transcript : clear implicits.
Arguments TranscriptList : clear implicits.
Arguments services : clear implicits.

End Handlers.


(* ===================================================================== *)
(** * handlers.py: the table of tool functions                            *)
(* ===================================================================== *)

Module Tools.
Import Py Handlers.
Local Open Scope py_scope.

(** An entry of [TOOL_FUNCTIONS], as the dispatcher uses it: called with
    keyword arguments only. *)
Abbreviation tool_function W := (kwargs -> M W pyval).

Section WithWorld.
Context {W : Type}.
Variable rt : runtime.
Variable svc : services W.

Definition call_search_videos : tool_function W := fun arguments =>
  let* p := lift (bind_parameters "search_videos" "query" "pageToken" arguments) in
  search_videos rt svc (fst p) (snd p).

Definition call_get_videos : tool_function W := fun arguments =>
  let* p := lift (bind_parameters "get_videos" "ids" "parts" arguments) in
  get_videos rt svc (fst p) (snd p).

Definition call_get_transcript : tool_function W := fun arguments =>
  let* p := lift (bind_parameters "get_transcript" "videoId" "language" arguments) in
  get_transcript svc (fst p) (snd p).

Definition TOOL_FUNCTIONS : gmap string (tool_function W) :=
  {[ "search_videos" := call_search_videos;
     "get_videos" := call_get_videos;
     "get_transcript" := call_get_transcript ]}.

End WithWorld.
End Tools.

(* ===================================================================== *)
(** * server.py                                                           *)
(* ===================================================================== *)

Module Server.
Import Py Handlers Tools.
Local Open Scope py_scope.

(** ** Loading the tool schemas *)

(** What [load_tool_schemas] sees of its environment. [read_json path] is
    [open(path)] followed by [json.load]: the parsed document, or the
    exception of the failing step. *)
Record environment : Type := {
  package_dir : string;                    (* os.path.dirname(__file__) *)
  cwd : string;                            (* os.getcwd() *)
  read_json : string -> outcome pyval
}.

Definition ends_with_slash (s : string) : bool :=
  match List.last (list_ascii_of_string s) "a"%char with
  | "/"%char => true
  | _ => false
  end.

(** [os.path.join(a, b)] on a POSIX system. *)
Definition path_join (a b : string) : string :=
  match b with
  | String "/" _ => b
  | _ => if String.eqb a "" || ends_with_slash a then a +:+ b
         else a +:+ "/" +:+ b
  end.

Definition _package_path (env : environment) (filename : string) : string :=
  path_join (package_dir env) filename.

(** [{tool["name"]: tool for tool in schema_data["tools"]}] *)
Definition tools_by_name (schema_data : pyval) : outcome keyed :=
  let? tools := py_getitem schema_data "tools" in
  let? members := py_iter tools in
  List.fold_left
    (fun acc tool =>
       let? d := acc in
       let? name := py_getitem tool "name" in
       if hashable name then Return (keyed_set d name tool)
       else Raise (mk_exn TypeError
                     ("unhashable type: '" +:+ type_name name +:+ "'")))
    members (Return []).

(** The loop over the candidate paths; the state is the error log. *)
Fixpoint load_from (env : environment) (candidates : list string)
    : M (list string) keyed :=
  match candidates with
  | [] =>
      fun log =>
        (Return [],
         (log ++ ["tools.json file not found in package or working directory"])%list)
  | path :: rest =>
      match read_json env path with
      | Return schema_data => lift (tools_by_name schema_data)
      | Raise e =>
          if is_class FileNotFoundError e then load_from env rest
          else if is_class JSONDecodeError e then
            fun log =>
              (Return [],
               (log ++ ["Error parsing tools.json at " +:+ path +:+ ": "
                          +:+ exn_str e])%list)
          else raise e
      end
  end.

Definition load_tool_schemas (env : environment) : M (list string) keyed :=
  load_from env [_package_path env "tools.json";
                 path_join (cwd env) "tools.json"].

Section WithWorld.
Context {W : Type}.

(** The state the server's own code acts on: the outside world, which only
    tool functions touch, and the error log. *)
Record state : Type := {
  world : W;
  log : list string
}.

Definition in_world {A} (m : M W A) : M state A :=
  fun st =>
    let (r, w) := m (world st) in (r, {| world := w; log := log st |}).

Definition log_error (msg : string) : M state unit :=
  fun st => (Return tt, {| world := world st; log := (log st ++ [msg])%list |}).

(** The module globals [TOOL_SCHEMAS] and [TOOL_FUNCTIONS]. *)
Variable TOOL_SCHEMAS : keyed.
Variable TOOL_FUNCTIONS : gmap string (tool_function W).

(** [types.Tool(name=.., description=.., inputSchema=.., outputSchema=..)] of
    the protocol library, which validates its fields. *)
Variable Tool : Type.
Variable make_Tool : pyval -> pyval -> pyval -> pyval -> outcome Tool.

Definition handle_list_tools : outcome (list Tool) :=
  for_each
    (fun item : pyval * pyval =>
       let (tool_name, tool_schema) := item in
       let? description := py_getitem tool_schema "description" in
       let? inputSchema := py_getitem tool_schema "inputSchema" in
       let? outputSchema := py_getitem tool_schema "outputSchema" in
       make_Tool tool_name description inputSchema outputSchema)
    TOOL_SCHEMAS.

(** The function that [@server.call_tool()] decorates, as server.py defines
    it. The request handler that the decorator registers around it is the
    protocol library's; see [Engine.callTool]. *)
Definition handle_call_tool (name : string) (arguments : option kwargs)
    : M state pyval :=
  match TOOL_FUNCTIONS !! name with
  | None => raise (mk_exn ValueError ("Unknown tool: " +:+ name))
  | Some tool_function =>
      let arguments := match arguments with Some a => a | None => [] end in
      try_except
        (let* result := in_world (tool_function arguments) in
         ret result)
        (fun e =>
           if is_exception e then
             Some (let* _ := log_error ("Error calling tool " +:+ name +:+ ": "
                                          +:+ exn_str e) in
                   raise (mk_exn ValueError
                            ("Tool execution error: " +:+ exn_str e)))
           else None)
  end.

End WithWorld.

Arguments state : clear implicits.

End Server.

(* ===================================================================== *)
(** * The validator and the tool contracts                                *)
(* ===================================================================== *)

Module Validator.
Import Py.

(** A ValidationOutcome: valid, or invalid with the message of the first
    failure. *)
Inductive verdict : Type :=
| Valid
| Invalid (message : string).

Definition is_valid (v : verdict) : bool :=
  match v with Valid => true | Invalid _ => false end.

(** The first failure wins. *)
Definition and_then (a b : verdict) : verdict :=
  match a with Valid => b | Invalid m => Invalid m end.

Fixpoint all_valid {A} (check : A -> verdict) (l : list A) : verdict :=
  match l with
  | [] => Valid
  | x :: l' => and_then (check x) (all_valid check l')
  end.

Definition type_matches (ty : string) (v : pyval) : bool :=
  match v with
  | PDict _ => String.eqb ty "object"
  | PList _ => String.eqb ty "array"
  | PStr _ => String.eqb ty "string"
  | PBool _ => String.eqb ty "boolean"
  | PNone => String.eqb ty "null"
  | PInt _ => String.eqb ty "integer" || String.eqb ty "number"
  | PFloat _ => String.eqb ty "number"
  end.

Definition check_type (schema : list (string * pyval)) (v : pyval) : verdict :=
  match dict_get schema "type" with
  | Some (PStr ty) =>
      if type_matches ty v then Valid
      else Invalid ("value is not of type '" +:+ ty +:+ "'")
  | Some (PList tys) =>
      if existsb (fun t => match t with
                           | PStr ty => type_matches ty v
                           | _ => false
                           end) tys
      then Valid else Invalid "value is not of any of the allowed types"
  | _ => Valid
  end.

Definition check_required (schema : list (string * pyval)) (v : pyval)
    : verdict :=
  match dict_get schema "required", v with
  | Some (PList names), PDict d =>
      all_valid (fun n => match n with
                          | PStr name =>
                              match dict_get d name with
                              | Some _ => Valid
                              | None =>
                                  Invalid ("'" +:+ name
                                             +:+ "' is a required property")
                              end
                          | _ => Valid
                          end) names
  | _, _ => Valid
  end.

(** A schema that marks itself closed rejects properties it does not declare. *)
Definition check_closed (schema : list (string * pyval)) (v : pyval)
    : verdict :=
  match dict_get schema "additionalProperties", v with
  | Some (PBool false), PDict d =>
      let declared := match dict_get schema "properties" with
                      | Some (PDict ps) => ps
                      | _ => []
                      end in
      all_valid (fun kv : string * pyval =>
                   match dict_get declared (fst kv) with
                   | Some _ => Valid
                   | None =>
                       Invalid ("additional property '" +:+ fst kv
                                  +:+ "' is not allowed")
                   end) d
  | _, _ => Valid
  end.

(** [#/definitions/Name] names the entry [Name] of the definitions table. *)
Definition ref_target (definitions : list (string * pyval)) (ref : string)
    : option pyval :=
  let p := "#/definitions/" in
  if String.prefix p ref then
    dict_get definitions
      (substring (String.length p) (String.length ref - String.length p) ref)
  else None.

(** Modelled from the spec: the Validator of section 4.2 (the validation
    library the test harness calls is not among the sources). Structural
    check of [v] against a SchemaNode: reference resolution in the definitions
    table (an unresolved reference is a failure), type match, required
    properties, closedness, then the declared properties and the items, in
    this order; the first failure is reported. [depth] bounds the nesting of
    schemas and references that is followed. *)
Fixpoint check (depth : nat) (definitions : list (string * pyval))
    (v schema : pyval) : verdict :=
  match depth with
  | O => Invalid "schema nesting exceeds the supported depth"
  | S depth' =>
      match schema with
      | PDict s =>
          match dict_get s "$ref" with
          | Some (PStr ref) =>
              match ref_target definitions ref with
              | Some target => check depth' definitions v target
              | None => Invalid ("unresolvable reference '" +:+ ref +:+ "'")
              end
          | Some _ => Invalid "malformed reference"
          | None =>
              and_then (check_type s v)
             (and_then (check_required s v)
             (and_then (check_closed s v)
             (and_then
                (match dict_get s "properties", v with
                 | Some (PDict ps), PDict d =>
                     all_valid (fun kv : string * pyval =>
                                  match dict_get d (fst kv) with
                                  | Some x =>
                                      check depth' definitions x (snd kv)
                                  | None => Valid
                                  end) ps
                 | _, _ => Valid
                 end)
                (match dict_get s "items", v with
                 | Some item_schema, PList l =>
                     all_valid (fun x =>
                                  check depth' definitions x item_schema) l
                 | _, _ => Valid
                 end))))
          end
      | PBool false => Invalid "the schema accepts no value"
      | _ => Valid
      end
  end.




(** A ToolContract of the Schema Registry. *)
Record ToolContract : Type := {
  contract_name : string;
  description : string;
  inputSchema : pyval;
  outputSchema : pyval
}.

End Validator.

(* ===================================================================== *)
(** * The dispatch entry point                                            *)
(* ===================================================================== *)

Module Engine.
Import Py Handlers Tools Server Validator.
Local Open Scope py_scope.

(** The error taxonomy of the engine, as far as an invocation goes. *)
Inductive error_kind : Type :=
| UnknownTool
| InputValidationFailed
| HandlerError
| OutputValidationFailed.

(** How an invocation ends: DONE with the result, or REJECTED with an error
    value carrying a message. *)
Inductive answer : Type :=
| Done (result : pyval)
| Rejected (kind : error_kind) (message : string).

Section WithWorld.
Context {W : Type}.

(** The Schema Registry, the shared definitions table and the Handler
    Registry. *)
Variable TOOL_SCHEMAS : keyed.
Variable definitions : list (string * pyval).
Variable TOOL_FUNCTIONS : gmap string (tool_function W).



End WithWorld.
End Engine.

(* ===================================================================== *)
(** * test_server.py                                                      *)
(* ===================================================================== *)

(** The test runner that drives the tool functions: its result counters, its
    three schema checks and the run of one test case. The functions that only
    print ([print_summary], [load_test_cases], [test_server_components],
    [run_tool_tests], [main]) are left out. *)
Module TestServer.
Import Py Handlers Tools Server.
Local Open Scope py_scope.

(** ** [class TestResults] *)

Record TestResults : Type := {
  total_tests : Z;
  passed_tests : Z;
  failed_tests : Z;
  skipped_tests : Z;
  results : list pyval
}.

(** [TestResults()] *)
Definition new_TestResults : TestResults :=
  {| total_tests := 0; passed_tests := 0; failed_tests := 0;
     skipped_tests := 0; results := [] |}.

Definition add_result (self : TestResults)
    (test_name success message duration : pyval) : TestResults :=
  {| total_tests := total_tests self + 1;
     passed_tests :=
       if truthy success then passed_tests self + 1 else passed_tests self;
     failed_tests :=
       if truthy success then failed_tests self else failed_tests self + 1;
     skipped_tests := skipped_tests self;
     results :=
       (results self
        ++ [PDict [("test", test_name); ("success", success);
                   ("message", message); ("duration", duration)]])%list |}.

Definition add_skip (rt : runtime) (self : TestResults)
    (test_name reason : pyval) : TestResults :=
  {| total_tests := total_tests self + 1;
     passed_tests := passed_tests self;
     failed_tests := failed_tests self;
     skipped_tests := skipped_tests self + 1;
     results :=
       (results self
        ++ [PDict [("test", test_name); ("success", PNone);
                   ("message", PStr ("SKIPPED: " +:+ py_str rt reason));
                   ("duration", PInt 0)]])%list |}.

(** ** The schema checks *)

(** What [jsonschema.validate(instance, schema)] does: it returns, it raises
    [ValidationError] (whose [message] is kept), or it raises something else,
    such as [SchemaError]. *)
Inductive validation : Type :=
| Conforms
| Violates (message : string)
| Fails (e : exn).

(** [k in d] for a dictionary with arbitrary keys. *)
Definition keyed_contains (d : keyed) (k : pyval) : outcome bool :=
  if hashable k then
    Return (match keyed_get d k with Some _ => true | None => false end)
  else Raise (mk_exn TypeError ("unhashable type: '" +:+ type_name k +:+ "'")).

(** [{**v, k: x}] *)
Definition py_merge (v : pyval) (k : string) (x : pyval) : outcome pyval :=
  match v with
  | PDict d => Return (PDict (dict_set d k x))
  | _ => Raise (mk_exn TypeError
                  ("'" +:+ type_name v +:+ "' object is not a mapping"))
  end.

Section WithValidator.
Variable rt : runtime.
Variable jsonschema_validate : pyval -> pyval -> validation.

Definition validate_input_schema (tool_name arguments : pyval)
    (schemas : keyed) : outcome (bool * string) :=
  let? known := keyed_contains schemas tool_name in
  if negb known then
    Return (false, "No schema found for tool " +:+ py_str rt tool_name)
  else
    let? tool_schema :=
      match keyed_get schemas tool_name with
      | Some s => Return s
      | None => Raise (mk_exn KeyError (repr rt tool_name))
      end in
    let? input_schema := py_get tool_schema "inputSchema" PNone in
    if negb (truthy input_schema) then
      Return (false,
              "No input schema defined for tool " +:+ py_str rt tool_name)
    else
      match jsonschema_validate arguments input_schema with
      | Conforms => Return (true, "Input validation passed")
      | Violates message =>
          Return (false, "Input validation failed: " +:+ message)
      | Fails e =>
          if is_exception e then
            Return (false, "Input validation error: " +:+ exn_str e)
          else Raise e
      end.

(** The loop that looks for the tool: the first one whose name is
    [tool_name], [None] when there is none. The name is a string: the one
    caller, [run_tool_test], passes a key of [TOOL_FUNCTIONS]. *)
Fixpoint find_tool (tool_name : string) (tools : list pyval) : outcome pyval :=
  match tools with
  | [] => Return PNone
  | tool :: rest =>
      let? name := py_get tool "name" PNone in
      match name with
      | PStr s => if String.eqb s tool_name then Return tool
                  else find_tool tool_name rest
      | _ => find_tool tool_name rest
      end
  end.

(** The schema that the result is validated against. *)
Definition complete_schema (output_schema full_schema_data : pyval)
    : outcome pyval :=
  let? definitions := py_get full_schema_data "definitions" (PDict []) in
  if truthy definitions then py_merge output_schema "definitions" definitions
  else Return output_schema.

Definition validate_output_schema (tool_name : string)
    (result full_schema_data : pyval) : outcome (bool * string) :=
  let? tools := py_get full_schema_data "tools" (PList []) in
  let? members := py_iter tools in
  let? tool_schema := find_tool tool_name members in
  if negb (truthy tool_schema) then
    Return (false, "No schema found for tool " +:+ tool_name)
  else
    let? output_schema := py_get tool_schema "outputSchema" PNone in
    if negb (truthy output_schema) then
      Return (false, "No output schema defined for tool " +:+ tool_name)
    else
      match (let? schema := complete_schema output_schema full_schema_data in
             Return (jsonschema_validate result schema)) with
      | Return Conforms => Return (true, "Output validation passed")
      | Return (Violates message) =>
          Return (false, "Output validation failed: " +:+ message)
      | Return (Fails e) | Raise e =>
          if is_exception e then
            Return (false, "Output validation error: " +:+ exn_str e)
          else Raise e
      end.

(** ** [validate_schema_structure] *)

Definition required_fields : list string :=
  ["name"; "description"; "inputSchema"; "outputSchema"].

(** The issue reported unless [present]. *)
Definition unless (present : bool) (issue : string) : list string :=
  if present then [] else [issue].

(** The issues of one entry of [schemas], in the order they are appended. *)
Definition schema_issues (tool_name schema : pyval) : outcome (list string) :=
  let name := py_str rt tool_name in
  let? missing :=
    for_each (fun field =>
                let? present := py_contains field schema in
                Return (unless present (name +:+ ": Missing " +:+ field)))
             required_fields in
  let? input_schema := py_get schema "inputSchema" (PDict []) in
  let? input_issues :=
    if truthy input_schema then
      let? has_type := py_contains "type" input_schema in
      let? has_properties := py_contains "properties" input_schema in
      Return (unless has_type (name +:+ ": inputSchema missing 'type'")
              ++ unless has_properties
                   (name +:+ ": inputSchema missing 'properties'"))%list
    else Return [] in
  let? output_schema := py_get schema "outputSchema" (PDict []) in
  let? output_issues :=
    if truthy output_schema then
      let? has_type := py_contains "type" output_schema in
      let? described :=
        if has_type then Return true else py_contains "$ref" output_schema in
      Return (unless described
                (name +:+ ": outputSchema missing 'type' or '$ref'"))
    else Return [] in
  Return (List.concat missing ++ input_issues ++ output_issues)%list.

Definition validate_schema_structure (schemas : keyed)
    : outcome (list string) :=
  let? issues :=
    for_each (fun item : pyval * pyval => schema_issues (fst item) (snd item))
             schemas in
  Return (List.concat issues).

(** ** [run_tool_test] *)

Section WithWorld.
Context {W : Type}.

(** [time.time()] *)
Variable time_time : W -> float * W.
Variable env : environment.
(** [TOOL_FUNCTIONS], as imported from the server module. *)
Variable TOOL_FUNCTIONS : gmap string (tool_function W).

(** The state of one run: the outside world and the dictionary
    [validation_results], which is filled in on the way and returned by
    whichever [return] is reached. *)
Record frame : Type := {
  outside : W;
  validation_results : list (string * pyval)
}.

Definition now : M frame float :=
  fun fr =>
    let (t, w) := time_time (outside fr) in
    (Return t,
     {| outside := w; validation_results := validation_results fr |}).

Definition in_frame {A} (m : M W A) : M frame A :=
  fun fr =>
    let (r, w) := m (outside fr) in
    (r, {| outside := w; validation_results := validation_results fr |}).

(** [validation_results[key] = {"valid": valid, "message": message}] *)
Definition record_validation (key : string) (valid : bool) (message : string)
    : M frame unit :=
  fun fr =>
    (Return tt,
     {| outside := outside fr;
        validation_results :=
          dict_set (validation_results fr) key
            (PDict [("valid", PBool valid); ("message", PStr message)]) |}).

(** [test_case.get("should_succeed", True)], as a condition. *)
Definition should_succeed (test_case : pyval) : outcome bool :=
  let? v := py_get test_case "should_succeed" (PBool true) in
  Return (truthy v).

(** [tool_name not in TOOL_FUNCTIONS] and [TOOL_FUNCTIONS[tool_name]]: the
    keys of the table are strings. *)
Definition tool_named (tool_name : pyval)
    : outcome (string * tool_function W) :=
  match tool_name with
  | PStr n =>
      match TOOL_FUNCTIONS !! n with
      | Some f => Return (n, f)
      | None => Raise (mk_exn ValueError ("Unknown tool: " +:+ n))
      end
  | _ =>
      if hashable tool_name then
        Raise (mk_exn ValueError ("Unknown tool: " +:+ py_str rt tool_name))
      else
        Raise (mk_exn TypeError
                 ("unhashable type: '" +:+ type_name tool_name +:+ "'"))
  end.

(** The keyword arguments of [f( **arguments )]. *)
Definition keyword_arguments (arguments : pyval) : outcome kwargs :=
  match arguments with
  | PDict d => Return d
  | _ => Raise (mk_exn TypeError
                  ("argument after ** must be a mapping, not "
                     +:+ type_name arguments))
  end.

(** The body of the [try] statement: success, message and duration of the
    [return] that is reached. *)
Definition attempt (tool_name arguments test_case : pyval) (schemas : keyed)
    (start_time : float) : M frame (bool * string * float) :=
  let* verdict := lift (validate_input_schema tool_name arguments schemas) in
  let* _ := record_validation "input_validation" (fst verdict) (snd verdict) in
  let* stop :=
    if fst verdict then ret false else lift (should_succeed test_case) in
  if stop then
    let* t := now in
    ret (false, "Input schema validation failed: " +:+ snd verdict,
         PrimFloat.sub t start_time)
  else
    let* tool := lift (tool_named tool_name) in
    let* keywords := lift (keyword_arguments arguments) in
    let* result := in_frame (snd tool keywords) in
    let* t := now in
    let duration := PrimFloat.sub t start_time in
    let* expected := lift (should_succeed test_case) in
    if expected then
      match result with
      | PNone => ret (false, "Tool returned None", duration)
      | _ =>
          let* full_schema_data :=
            lift (read_json env "youtube_mcp_server/tools.json") in
          let* verdict :=
            lift (validate_output_schema (fst tool) result full_schema_data) in
          let* _ :=
            record_validation "output_validation" (fst verdict) (snd verdict) in
          if fst verdict then
            ret (true,
                 "All validations passed - returned " +:+ type_name result,
                 duration)
          else
            ret (false,
                 "Output schema validation failed: " +:+ snd verdict,
                 duration)
      end
    else
      ret (false,
           "Expected failure but got result: " +:+ type_name result,
           duration).

(** The [except Exception] clause. *)
Definition on_exception (test_case : pyval) (start_time : float) (e : exn)
    : M frame (bool * string * float) :=
  let* t := now in
  let duration := PrimFloat.sub t start_time in
  let* expected := lift (should_succeed test_case) in
  if expected then ret (false, "Unexpected error: " +:+ exn_str e, duration)
  else ret (true, "Expected error: " +:+ exn_str e, duration).

Definition run_tool_test (tool_name arguments test_case : pyval)
    (schemas : keyed)
    : M W (bool * string * float * list (string * pyval)) :=
  fun w =>
    let (start_time, w1) := time_time w in
    let fr0 := {| outside := w1;
                  validation_results := [("input_validation", PNone);
                                         ("output_validation", PNone)] |} in
    let (r, fr) :=
      try_except (attempt tool_name arguments test_case schemas start_time)
                 (fun e =>
                    if is_exception e then
                      Some (on_exception test_case start_time e)
                    else None) fr0 in
    (match r with
     | Return (success, message, duration) =>
         Return (success, message, duration, validation_results fr)
     | Raise e => Raise e
     end,
     outside fr).

End WithWorld.
End WithValidator.

Arguments frame : clear implicits.

End TestServer.

(* ===================================================================== *)
(** * Facts about strings and the matcher                                 *)
(* ===================================================================== *)

Module PyFacts.
Import Py.

Lemma append_cons (x : ascii) (a b : string) :
  String x a +:+ b = String x (a +:+ b).
Proof. reflexivity. Qed.

Lemma append_nil (b : string) : "" +:+ b = b.
Proof. reflexivity. Qed.

Ltac norm_append := rewrite ?append_cons, ?append_nil.

Lemma append_assoc (a b c : string) : (a +:+ b) +:+ c = a +:+ (b +:+ c).
Proof.
  induction a as [|x a IH]; norm_append; [reflexivity | now rewrite IH].
Qed.

Lemma append_empty_r (a : string) : a +:+ "" = a.
Proof.
  induction a as [|x a IH]; norm_append; [reflexivity | now rewrite IH].
Qed.

Lemma length_append (a b : string) :
  String.length (a +:+ b) = (String.length a + String.length b)%nat.
Proof.
  induction a as [|x a IH]; norm_append; simpl; [reflexivity | now rewrite IH].
Qed.

Lemma substring_prefix (a b : string) :
  substring 0 (String.length a) (a +:+ b) = a.
Proof.
  induction a as [|x a IH]; norm_append; simpl.
  - destruct b; reflexivity.
  - now rewrite IH.
Qed.

Lemma digit_not_space c : is_digit c = true -> is_space c = false.
Proof.
  unfold is_digit, is_space. set (n := nat_of_ascii c).
  intros H. apply andb_true_iff in H as [H1 H2].
  apply Nat.leb_le in H1. apply Nat.leb_le in H2.
  apply orb_false_iff; split; apply andb_false_iff.
  - right. apply Nat.leb_gt. lia.
  - right. apply Nat.leb_gt. lia.
Qed.

Lemma digit_value_range c : is_digit c = true -> 0 <= digit_value c <= 9.
Proof.
  unfold is_digit, digit_value. set (n := nat_of_ascii c).
  intros H. apply andb_true_iff in H as [H1 H2].
  apply Nat.leb_le in H1. apply Nat.leb_le in H2. lia.
Qed.

Lemma is_digits_cons s :
  is_digits s = true ->
  exists c s', s = String c s' /\ is_digit c = true /\ all_digits s' = true.
Proof.
  unfold is_digits. destruct s as [|c s']; simpl; [discriminate|].
  intros H. apply andb_true_iff in H as [H1 H2]. eauto.
Qed.

Lemma is_digits_all s : is_digits s = true -> all_digits s = true.
Proof. unfold is_digits. intros H. now apply andb_true_iff in H as [_ H]. Qed.

Lemma lstrip_digits s : all_digits s = true -> lstrip s = s.
Proof.
  destruct s as [|c s']; simpl; [reflexivity|].
  intros H. apply andb_true_iff in H as [H _].
  now rewrite (digit_not_space _ H).
Qed.

Lemma rstrip_digits s : all_digits s = true -> rstrip s = s.
Proof.
  induction s as [|c s' IH]; simpl; [reflexivity|].
  intros H. apply andb_true_iff in H as [Hc Hs].
  rewrite (IH Hs). destruct s'; [|reflexivity].
  now rewrite (digit_not_space _ Hc).
Qed.

Lemma strip_digits s : all_digits s = true -> strip s = s.
Proof.
  intros H. unfold strip. rewrite (lstrip_digits _ H). now apply rstrip_digits.
Qed.

Lemma digits_value_nonneg s : forall acc,
  all_digits s = true -> 0 <= acc -> 0 <= digits_value acc s.
Proof.
  induction s as [|c s' IH]; simpl; intros acc H Hacc; [assumption|].
  apply andb_true_iff in H as [Hc Hs].
  apply IH; [assumption|]. pose proof (digit_value_range _ Hc). lia.
Qed.

Lemma int_body_digits s : forall acc p,
  all_digits s = true ->
  int_body s acc p =
    match s with
    | EmptyString => if p then Some acc else None
    | _ => Some (digits_value acc s)
    end.
Proof.
  induction s as [|c s' IH]; simpl; intros acc p H; [reflexivity|].
  apply andb_true_iff in H as [Hc Hs]. rewrite Hc.
  rewrite (IH _ true Hs). destruct s'; reflexivity.
Qed.

Lemma digit_not_sign c :
  is_digit c = true -> c <> "+"%char /\ c <> "-"%char.
Proof. intros H; split; intros ->; discriminate H. Qed.

Lemma split_sign_digits s : is_digits s = true -> split_sign s = (false, s).
Proof.
  intros H. destruct (is_digits_cons _ H) as (c & s' & -> & Hc & _).
  destruct (digit_not_sign _ Hc) as [Hp Hm].
  destruct c as [b0 b1 b2 b3 b4 b5 b6 b7].
  destruct b0, b1, b2, b3, b4, b5, b6, b7;
    try discriminate Hc; try congruence; reflexivity.
Qed.

Lemma numeric_run_digits s : all_digits s = true -> numeric_run s = s.
Proof.
  induction s as [|c s' IH]; simpl; [reflexivity|].
  intros H. apply andb_true_iff in H as [Hc Hs]. now rewrite Hc, (IH Hs).
Qed.

Lemma count_digits_all s :
  all_digits s = true -> count_digits s = String.length s.
Proof.
  induction s as [|c s' IH]; simpl; [reflexivity|].
  intros H. apply andb_true_iff in H as [Hc Hs]. now rewrite Hc, (IH Hs).
Qed.

Lemma int_body_run s :
  is_digits s = true -> int_body s 0 false = Some (digits_value 0 s).
Proof.
  intros H. rewrite (int_body_digits _ _ _ (is_digits_all _ H)).
  now destruct (is_digits_cons _ H) as (c & s' & -> & _).
Qed.

(** On a non-empty run of digits within the limit [int] is the positional
    value. *)
Lemma py_int_digits s :
  is_digits s = true -> (String.length s <= int_max_str_digits)%nat ->
  py_int s = Return (digits_value 0 s).
Proof.
  intros H Hlen. pose proof (is_digits_all _ H) as Hall.
  unfold py_int. rewrite (strip_digits _ Hall), (split_sign_digits _ H).
  cbn [fst snd]. rewrite (numeric_run_digits _ Hall), (int_body_run _ H).
  rewrite (count_digits_all _ Hall), String.eqb_refl.
  now apply Nat.ltb_ge in Hlen as ->.
Qed.

(** Beyond the limit [int] refuses the run. *)
Lemma py_int_long s :
  is_digits s = true -> (int_max_str_digits < String.length s)%nat ->
  py_int s = Raise digit_limit_error.
Proof.
  intros H Hlen. pose proof (is_digits_all _ H) as Hall.
  unfold py_int. rewrite (strip_digits _ Hall), (split_sign_digits _ H).
  cbn [fst snd]. rewrite (numeric_run_digits _ Hall), (int_body_run _ H).
  rewrite (count_digits_all _ Hall).
  now apply Nat.ltb_lt in Hlen as ->.
Qed.

End PyFacts.

Module ReFacts.
Import Py Re PyFacts.

(** Captured groups only ever hold non-empty runs of digits. *)
Definition digit_groups (g : groups) : Prop :=
  forall i d, g i = Some d -> is_digits d = true.

(** Every capturing group of the expression wraps [\d+]. *)
Fixpoint groups_wrap_digits (r : regex) : Prop :=
  match r with
  | Lit _ | Digits1 => True
  | Cat r1 r2 => groups_wrap_digits r1 /\ groups_wrap_digits r2
  | Opt r1 => groups_wrap_digits r1
  | Grp _ r1 => r1 = Digits1
  end.

Lemma consumed_app (d s : string) : consumed (d +:+ s) s = d.
Proof.
  unfold consumed. rewrite length_append.
  replace (String.length d + String.length s - String.length s)%nat
    with (String.length d) by lia.
  apply substring_prefix.
Qed.

Lemma digit_groups_set i d g :
  is_digits d = true -> digit_groups g -> digit_groups (set_group i d g).
Proof.
  intros Hd Hg j e. unfold set_group.
  destruct (Nat.eqb i j); [intros [= <-]; exact Hd | apply Hg].
Qed.

(** Whatever [\d+] hands to its continuation is what follows a non-empty run
    of digits. *)
Lemma digits1_inv {R} (s : string) (k : string -> option R) (r : R) :
  digits1 s k = Some r ->
  exists d s', s = d +:+ s' /\ is_digits d = true /\ k s' = Some r.
Proof.
  induction s as [|c s IH]; simpl; [discriminate|].
  destruct (is_digit c) eqn:Hc; [|discriminate].
  destruct (digits1 s k) as [r'|] eqn:E.
  - intros [= <-]. destruct (IH eq_refl) as (d & s' & -> & Hd & Hk).
    exists (String c d), s'. split; [reflexivity|]. split; [|exact Hk].
    unfold is_digits; simpl. rewrite Hc. now apply is_digits_all.
  - intros Hk. exists (String c ""), s. split; [reflexivity|]. split; [|exact Hk].
    unfold is_digits; simpl. now rewrite Hc.
Qed.

Lemma digits1_cons {R} (c : ascii) (s : string) (k : string -> option R) :
  digits1 (String c s) k =
    if is_digit c then
      match digits1 s k with Some r => Some r | None => k s end
    else None.
Proof. reflexivity. Qed.

(** Greedy: when the continuation accepts what follows the whole run, that is
    the match. *)
Lemma digits1_greedy {R} (d rest : string) (k : string -> option R) (r : R) :
  is_digits d = true ->
  match rest with String x _ => is_digit x = false | EmptyString => True end ->
  k rest = Some r ->
  digits1 (d +:+ rest) k = Some r.
Proof.
  intros Hd Hrest Hk.
  destruct (is_digits_cons _ Hd) as (c & d' & -> & Hc & Hd'). clear Hd.
  revert c Hc. induction d' as [|c' d' IH]; intros c Hc;
    rewrite append_cons, digits1_cons, Hc.
  - rewrite append_nil.
    assert (E : digits1 rest k = None)
      by (destruct rest; simpl; [reflexivity | now rewrite Hrest]).
    now rewrite E.
  - simpl in Hd'. apply andb_true_iff in Hd' as [Hc' Hd'].
    now rewrite (IH Hd' c' Hc').
Qed.

(** No way through: the continuation insists on a separator [c] that does not
    come right after the digits. *)
Lemma digits1_no_separator {R} (c : ascii) (d rest : string)
    (k : string -> option R) :
  is_digit c = false ->
  all_digits d = true ->
  match rest with
  | String x _ => is_digit x = false /\ x <> c
  | EmptyString => True
  end ->
  (forall s, match s with String x _ => x <> c | EmptyString => True end ->
             k s = None) ->
  digits1 (d +:+ rest) k = None.
Proof.
  intros Hc Hd Hrest Hk. induction d as [|x d IH]; norm_append.
  - destruct rest as [|y rest]; [reflexivity|].
    rewrite digits1_cons. destruct Hrest as [Hy _]. now rewrite Hy.
  - simpl in Hd. apply andb_true_iff in Hd as [Hx Hd].
    rewrite digits1_cons, Hx, (IH Hd). apply Hk.
    destruct d as [|y d]; norm_append.
    + destruct rest; [exact I | apply Hrest].
    + simpl in Hd. apply andb_true_iff in Hd as [Hy _].
      intros ->. congruence.
Qed.

(** A successful run ends in a successful continuation, and the groups it
    passes on are digit runs if they were before. *)
Lemma run_inv {R} (r : regex) :
  groups_wrap_digits r ->
  forall (s : string) (g : groups) (k : string -> groups -> option R) (res : R),
    run r s g k = Some res ->
    exists s' g', k s' g' = Some res /\ (digit_groups g -> digit_groups g').
Proof.
  induction r as [c| |r1 IH1 r2 IH2|r1 IH1|i r1 IH1]; simpl; intros Hw s g k res H.
  - destruct s as [|c' s']; [discriminate|].
    destruct (Ascii.eqb c c'); [|discriminate].
    exists s', g. split; [exact H | tauto].
  - apply digits1_inv in H as (d & s' & _ & _ & Hk).
    exists s', g. split; [exact Hk | tauto].
  - destruct Hw as [Hw1 Hw2].
    apply (IH1 Hw1) in H as (s1 & g1 & H & Hg1).
    apply (IH2 Hw2) in H as (s2 & g2 & H & Hg2).
    exists s2, g2. split; [exact H | tauto].
  - destruct (run r1 s g k) as [x|] eqn:E.
    + injection H as <-. now apply (IH1 Hw) in E.
    + exists s, g. split; [exact H | tauto].
  - subst r1. simpl in H.
    apply digits1_inv in H as (d & s' & -> & Hd & Hk).
    rewrite consumed_app in Hk.
    exists s', (set_group i d g). split; [exact Hk|].
    now apply digit_groups_set.
Qed.

(** Captured groups are no longer than [n]. *)
Definition bounded_groups (n : nat) (g : groups) : Prop :=
  forall i d, g i = Some d -> (String.length d <= n)%nat.

Lemma bounded_groups_set n i d g :
  (String.length d <= n)%nat -> bounded_groups n g ->
  bounded_groups n (set_group i d g).
Proof.
  intros Hd Hg j e. unfold set_group.
  destruct (Nat.eqb i j); [intros [= <-]; exact Hd | apply Hg].
Qed.

(** A group is a piece of the text that is matched: in a text of at most [n]
    characters no group is longer than [n]. *)
Lemma run_bounded {R} (r : regex) :
  groups_wrap_digits r ->
  forall (s : string) (g : groups) (k : string -> groups -> option R) (res : R)
         (n : nat),
    run r s g k = Some res ->
    (String.length s <= n)%nat -> bounded_groups n g ->
    exists s' g',
      k s' g' = Some res /\ (String.length s' <= n)%nat /\ bounded_groups n g'.
Proof.
  induction r as [c| |r1 IH1 r2 IH2|r1 IH1|i r1 IH1]; simpl;
    intros Hw s g k res n H Hs Hg.
  - destruct s as [|c' s']; [discriminate|].
    destruct (Ascii.eqb c c'); [|discriminate].
    exists s', g. simpl in Hs. repeat split; [exact H | lia | exact Hg].
  - apply digits1_inv in H as (d & s' & -> & _ & Hk).
    rewrite length_append in Hs.
    exists s', g. repeat split; [exact Hk | lia | exact Hg].
  - destruct Hw as [Hw1 Hw2].
    apply (IH1 Hw1 _ _ _ _ n) in H as (s1 & g1 & H & Hs1 & Hg1);
      [|assumption..].
    apply (IH2 Hw2 _ _ _ _ n) in H as (s2 & g2 & H & Hs2 & Hg2);
      [|assumption..].
    now exists s2, g2.
  - destruct (run r1 s g k) as [x|] eqn:E.
    + injection H as <-. now apply (IH1 Hw _ _ _ _ n) in E.
    + now exists s, g.
  - subst r1. simpl in H.
    apply digits1_inv in H as (d & s' & -> & Hd & Hk).
    rewrite consumed_app in Hk. rewrite length_append in Hs.
    exists s', (set_group i d g). repeat split; [exact Hk | lia |].
    apply bounded_groups_set; [lia | exact Hg].
Qed.

End ReFacts.

(* ===================================================================== *)
(** * parse_duration                                                      *)
(* ===================================================================== *)

Module DurationFacts.
Import Py Re Handlers PyFacts ReFacts.

(** One component [{d}c] of a duration, present ([Some d], [d] a non-empty run
    of digits) or not. *)
Definition component_text (o : option string) (c : ascii) : string :=
  match o with
  | Some d => d +:+ String c ""
  | None => ""
  end.

Definition component_value (o : option string) : Z :=
  match o with
  | Some d => digits_value 0 d
  | None => 0
  end.

Definition well_formed (o : option string) : bool :=
  match o with
  | Some d => is_digits d
  | None => true
  end.

(** The text [PT{h}H{m}M{s}S], each component optional. *)
Definition iso_duration (h m s : option string) : string :=
  "PT" +:+ component_text h "H" +:+ component_text m "M"
       +:+ component_text s "S".

Definition component_group (i : nat) (o : option string) (g : groups) : groups :=
  match o with
  | Some d => set_group i d g
  | None => g
  end.

(** What follows is some digits and then neither a digit nor [c]: the optional
    component with separator [c] cannot match here. *)
Definition lookahead (c : ascii) (s : string) : Prop :=
  exists d rest, s = d +:+ rest /\ all_digits d = true /\
    match rest with
    | String x _ => is_digit x = false /\ x <> c
    | EmptyString => True
    end.

Lemma run_cat {R} r1 r2 s g (k : string -> groups -> option R) :
  run (Cat r1 r2) s g k = run r1 s g (fun s' g' => run r2 s' g' k).
Proof. reflexivity. Qed.

Lemma run_lit {R} c c' s g (k : string -> groups -> option R) :
  run (Lit c) (String c' s) g k = if Ascii.eqb c c' then k s g else None.
Proof. reflexivity. Qed.

Lemma run_lit_hit {R} c s g (k : string -> groups -> option R) :
  run (Lit c) (String c s) g k = k s g.
Proof. now rewrite run_lit, Ascii.eqb_refl. Qed.

Lemma run_component {R} i c s g (k : string -> groups -> option R) :
  run (component i c) s g k =
    match digits1 s (fun s' =>
            run (Lit c) s' (set_group i (consumed s s') g) k) with
    | Some x => Some x
    | None => k s g
    end.
Proof. reflexivity. Qed.

Lemma component_skip {R} i c s g (k : string -> groups -> option R) :
  is_digit c = false -> lookahead c s ->
  run (component i c) s g k = k s g.
Proof.
  intros Hc (d & rest & -> & Hd & Hrest). rewrite run_component.
  rewrite (digits1_no_separator c d rest); [reflexivity|assumption..|].
  intros [|x s'] Hx; [reflexivity|]. rewrite run_lit.
  destruct (Ascii.eqb_spec c x) as [->|_]; [contradiction|reflexivity].
Qed.

Lemma component_take {R} i c d rest g (k : string -> groups -> option R) r :
  is_digit c = false -> is_digits d = true ->
  k rest (set_group i d g) = Some r ->
  run (component i c) (d +:+ String c rest) g k = Some r.
Proof.
  intros Hc Hd Hk. rewrite run_component.
  rewrite (digits1_greedy d (String c rest) _ r); [reflexivity|assumption..|].
  now rewrite consumed_app, run_lit_hit.
Qed.

Lemma component_step {R} i c o rest g (k : string -> groups -> option R) r :
  is_digit c = false -> well_formed o = true -> lookahead c rest ->
  k rest (component_group i o g) = Some r ->
  run (component i c) (component_text o c +:+ rest) g k = Some r.
Proof.
  intros Hc Ho Hl Hk.
  destruct o as [d|]; unfold component_text, component_group, well_formed in *.
  - rewrite append_assoc, append_cons, append_nil. now apply component_take.
  - rewrite append_nil, component_skip; assumption.
Qed.

Lemma lookahead_empty c : lookahead c "".
Proof. exists "", "". repeat split. Qed.

Lemma lookahead_component c c' o rest :
  is_digit c' = false -> c' <> c -> well_formed o = true ->
  lookahead c rest ->
  lookahead c (component_text o c' +:+ rest).
Proof.
  intros Hc' Hne Ho Hl.
  destruct o as [d|]; unfold component_text, well_formed in *.
  - exists d, (String c' rest). rewrite append_assoc, append_cons, append_nil.
    repeat split; [now apply is_digits_all | assumption..].
  - now rewrite append_nil.
Qed.

Lemma is_digits_truthy d : is_digits d = true -> truthy (PStr d) = true.
Proof.
  unfold is_digits. intros H. now apply andb_true_iff in H as [H _].
Qed.

(** A component within the limit that [int] puts on the number of digits. *)
Definition within_limit (o : option string) : bool :=
  match o with
  | Some d => (String.length d <=? int_max_str_digits)%nat
  | None => true
  end.

Lemma group_seconds_digits (m : groups) i :
  digit_groups m -> bounded_groups int_max_str_digits m ->
  group_seconds m i =
    Return (match m i with Some d => digits_value 0 d | None => 0 end).
Proof.
  intros Hm Hb. unfold group_seconds.
  destruct (m i) as [d|] eqn:E; [|reflexivity].
  pose proof (Hm _ _ E) as Hd.
  now rewrite (is_digits_truthy _ Hd), (py_int_digits _ Hd (Hb _ _ E)).
Qed.

Lemma group_seconds_long (m : groups) i d :
  digit_groups m -> m i = Some d ->
  (int_max_str_digits < String.length d)%nat ->
  group_seconds m i = Raise digit_limit_error.
Proof.
  intros Hm E Hlen. unfold group_seconds. rewrite E.
  pose proof (Hm _ _ E) as Hd.
  now rewrite (is_digits_truthy _ Hd), (py_int_long _ Hd Hlen).
Qed.

Lemma group_value_nonneg (m : groups) i :
  digit_groups m ->
  0 <= match m i with Some d => digits_value 0 d | None => 0 end.
Proof.
  intros Hm. destruct (m i) as [d|] eqn:E; [|lia].
  apply digits_value_nonneg; [|lia]. apply is_digits_all. eauto.
Qed.

(** A group gives its value, or [int] refuses it for its length. *)
Lemma group_seconds_cases (m : groups) i :
  digit_groups m ->
  (exists n, group_seconds m i = Return n /\ 0 <= n)
  \/ group_seconds m i = Raise digit_limit_error.
Proof.
  intros Hm. destruct (m i) as [d|] eqn:E.
  - destruct (Nat.le_gt_cases (String.length d) int_max_str_digits) as [H|H].
    + left. unfold group_seconds. rewrite E.
      pose proof (Hm _ _ E) as Hd.
      rewrite (is_digits_truthy _ Hd), (py_int_digits _ Hd H).
      eexists. split; [reflexivity|].
      apply digits_value_nonneg; [now apply is_digits_all | lia].
    + right. now apply (group_seconds_long m i d).
  - left. exists 0. unfold group_seconds. rewrite E. split; [reflexivity | lia].
Qed.

Lemma pattern_groups_wrap_digits : groups_wrap_digits pattern.
Proof. simpl. tauto. Qed.

Lemma re_match_digit_groups s m :
  re_match pattern s = Some m -> digit_groups m.
Proof.
  unfold re_match. intros H.
  apply (run_inv pattern pattern_groups_wrap_digits) in H
    as (s' & g' & [= <-] & Hg).
  apply Hg. intros i d. discriminate.
Qed.

Lemma re_match_bounded s m :
  re_match pattern s = Some m -> bounded_groups (String.length s) m.
Proof.
  unfold re_match. intros H.
  apply (run_bounded pattern pattern_groups_wrap_digits _ _ _ _
           (String.length s)) in H as (s' & g' & [= <-] & _ & Hg);
    [exact Hg | lia | intros i d; discriminate].
Qed.

Lemma bounded_groups_le n n' g :
  (n <= n')%nat -> bounded_groups n g -> bounded_groups n' g.
Proof. intros Hn Hg i d E. specialize (Hg i d E). lia. Qed.

Lemma component_group_bounded i o g :
  within_limit o = true -> bounded_groups int_max_str_digits g ->
  bounded_groups int_max_str_digits (component_group i o g).
Proof.
  destruct o as [d|]; cbn [within_limit component_group]; [|tauto].
  intros H Hg. apply bounded_groups_set; [now apply Nat.leb_le | exact Hg].
Qed.

Lemma component_total {R} i c (k : string -> groups -> option R) :
  (forall s g, is_Some (k s g)) ->
  forall s g, is_Some (run (component i c) s g k).
Proof.
  intros Hk s g. rewrite run_component.
  destruct (digits1 _ _); [eexists; reflexivity | apply Hk].
Qed.

(** The pattern matches exactly the strings that begin with "PT". *)
Lemma re_match_none_iff s :
  re_match pattern s = None <-> forall rest, s <> "PT" +:+ rest.
Proof.
  split.
  - intros H rest ->. revert H. unfold re_match, pattern.
    change ("PT" +:+ rest) with (String "P" (String "T" rest)).
    rewrite run_cat, run_lit_hit, run_cat, run_lit_hit, run_cat.
    intros H.
    assert (S : is_Some (@None groups)); [|now destruct S].
    rewrite <- H. apply component_total. intros s1 g1. rewrite run_cat.
    apply component_total. intros s2 g2.
    apply component_total. intros s3 g3. eexists; reflexivity.
  - intros H. unfold re_match, pattern. rewrite run_cat.
    destruct s as [|a s]; [reflexivity|]. rewrite run_lit.
    destruct (Ascii.eqb_spec "P" a) as [<-|]; [|reflexivity].
    rewrite run_cat.
    destruct s as [|b s]; [reflexivity|]. rewrite run_lit.
    destruct (Ascii.eqb_spec "T" b) as [<-|]; [|reflexivity].
    now destruct (H s).
Qed.

Lemma re_match_iso (h m s : option string) :
  well_formed h = true -> well_formed m = true -> well_formed s = true ->
  re_match pattern (iso_duration h m s) =
    Some (component_group 3 s (component_group 2 m
            (component_group 1 h no_groups))).
Proof.
  intros Hh Hm Hs. unfold re_match, pattern, iso_duration.
  change ("PT" +:+ ?r) with (String "P" (String "T" r)).
  rewrite run_cat, run_lit_hit, run_cat, run_lit_hit, run_cat.
  apply component_step; [reflexivity | assumption | |].
  { apply lookahead_component; [reflexivity | discriminate | assumption |].
    rewrite <- (append_empty_r (component_text s "S")).
    apply lookahead_component;
      [reflexivity | discriminate | assumption | apply lookahead_empty]. }
  rewrite run_cat.
  apply component_step; [reflexivity | assumption | |].
  { rewrite <- (append_empty_r (component_text s "S")).
    apply lookahead_component;
      [reflexivity | discriminate | assumption | apply lookahead_empty]. }
  rewrite <- (append_empty_r (component_text s "S")).
  apply component_step;
    [reflexivity | assumption | apply lookahead_empty | reflexivity].
Qed.

(** What [parse_duration] makes of a string that the pattern matches. *)
Lemma parse_duration_matched s m :
  truthy (PStr s) = true -> re_match pattern s = Some m ->
  parse_duration (PStr s)
  = obind (group_seconds m 1) (fun hours =>
    obind (group_seconds m 2) (fun minutes =>
    obind (group_seconds m 3) (fun seconds =>
    Return (hours * 3600 + minutes * 60 + seconds)))).
Proof. intros Ht E. unfold parse_duration. now rewrite Ht, E. Qed.

Lemma iso_duration_truthy h m s : truthy (PStr (iso_duration h m s)) = true.
Proof. reflexivity. Qed.

(** On a string it returns a non-negative integer, unless [int] refuses a
    component for its length. *)
Lemma parse_duration_cases (s : string) :
  (exists n, parse_duration (PStr s) = Return n /\ 0 <= n)
  \/ parse_duration (PStr s) = Raise digit_limit_error.
Proof.
  unfold parse_duration.
  destruct (negb (truthy (PStr s)));
    [left; exists 0; split; [reflexivity | lia]|].
  destruct (re_match pattern s) as [m|] eqn:E;
    [|left; exists 0; split; [reflexivity | lia]].
  pose proof (re_match_digit_groups _ _ E) as Hm.
  destruct (group_seconds_cases m 1 Hm) as [(h & -> & Hh)| ->];
    [|now right].
  destruct (group_seconds_cases m 2 Hm) as [(mi & -> & Hmi)| ->];
    [|now right].
  destruct (group_seconds_cases m 3 Hm) as [(se & -> & Hse)| ->];
    [|now right].
  left. eexists. split; [reflexivity | lia].
Qed.

(** A string of at most 4300 characters has no component beyond the limit. *)
Lemma parse_duration_short (s : string) :
  (String.length s <= int_max_str_digits)%nat ->
  exists n, parse_duration (PStr s) = Return n /\ 0 <= n.
Proof.
  intros Hlen. unfold parse_duration.
  destruct (negb (truthy (PStr s))); [exists 0; split; [reflexivity | lia]|].
  destruct (re_match pattern s) as [m|] eqn:E;
    [|exists 0; split; [reflexivity | lia]].
  pose proof (re_match_digit_groups _ _ E) as Hm.
  pose proof (bounded_groups_le _ _ _ Hlen (re_match_bounded _ _ E)) as Hb.
  rewrite !(group_seconds_digits m _ Hm Hb). simpl.
  eexists; split; [reflexivity|].
  pose proof (group_value_nonneg m 1 Hm).
  pose proof (group_value_nonneg m 2 Hm).
  pose proof (group_value_nonneg m 3 Hm). lia.
Qed.

Lemma parse_duration_iso (h m s : option string) :
  well_formed h = true -> well_formed m = true -> well_formed s = true ->
  within_limit h = true -> within_limit m = true -> within_limit s = true ->
  parse_duration (PStr (iso_duration h m s))
  = Return (component_value h * 3600 + component_value m * 60
            + component_value s).
Proof.
  intros Hh Hm Hs Lh Lm Ls.
  rewrite (parse_duration_matched _ _ (iso_duration_truthy h m s)
             (re_match_iso h m s Hh Hm Hs)).
  pose proof (re_match_digit_groups _ _ (re_match_iso h m s Hh Hm Hs)) as Hg.
  assert (Hb : bounded_groups int_max_str_digits
                 (component_group 3 s (component_group 2 m
                    (component_group 1 h no_groups)))).
  { repeat (apply component_group_bounded; [assumption|]).
    intros i d. discriminate. }
  rewrite !(group_seconds_digits _ _ Hg Hb). simpl.
  destruct h, m, s; reflexivity.
Qed.

(** A component of more than 4300 digits: [int] raises. *)
Lemma parse_duration_long (h m s : option string) :
  well_formed h = true -> well_formed m = true -> well_formed s = true ->
  within_limit h && within_limit m && within_limit s = false ->
  parse_duration (PStr (iso_duration h m s)) = Raise digit_limit_error.
Proof.
  intros Hh Hm Hs Hlong.
  pose proof (re_match_iso h m s Hh Hm Hs) as E.
  rewrite (parse_duration_matched _ _ (iso_duration_truthy h m s) E).
  pose proof (re_match_digit_groups _ _ E) as Hg.
  set (g := component_group 3 s (component_group 2 m
              (component_group 1 h no_groups))) in *.
  assert (G1 : g 1%nat = h) by (unfold g; now destruct h, m, s).
  assert (G2 : g 2%nat = m) by (unfold g; now destruct h, m, s).
  assert (G3 : g 3%nat = s) by (unfold g; now destruct h, m, s).
  assert (Hover : forall i o, g i = o -> within_limit o = false ->
                    group_seconds g i = Raise digit_limit_error).
  { intros i [d|] Ei Hl; [|discriminate Hl].
    apply (group_seconds_long g i d Hg Ei).
    cbn [within_limit] in Hl. now apply Nat.leb_gt in Hl. }
  destruct (within_limit h) eqn:Lh; [|now rewrite (Hover _ _ G1 Lh)].
  destruct (group_seconds_cases g 1 Hg) as [(n1 & -> & _)| ->];
    [cbn [obind] | reflexivity].
  destruct (within_limit m) eqn:Lm; [|now rewrite (Hover _ _ G2 Lm)].
  destruct (group_seconds_cases g 2 Hg) as [(n2 & -> & _)| ->];
    [cbn [obind] | reflexivity].
  destruct (within_limit s) eqn:Ls; [discriminate Hlong|].
  now rewrite (Hover _ _ G3 Ls).
Qed.

(** C10, as the code has it. On a string [parse_duration] returns a
    non-negative integer or raises the [ValueError] by which [int] refuses a
    literal of more than 4300 digits; it returns on every string of at most
    4300 characters. The empty string and every string the pattern does not
    match ([re.match] finds nothing, which is the case exactly for the
    strings that do not begin with "PT") give 0; a string PT{h}H{m}M{s}S,
    each component optional and {h}, {m}, {s} non-empty runs of at most 4300
    decimal digits, gives h*3600 + m*60 + s; with a longer component it
    raises. *)
Theorem parse_duration_spec :
  (forall s : string,
     (exists n, parse_duration (PStr s) = Return n /\ 0 <= n)
     \/ (exists msg, parse_duration (PStr s) = Raise (mk_exn ValueError msg)))
  /\ (forall s : string,
        (String.length s <= int_max_str_digits)%nat ->
        exists n, parse_duration (PStr s) = Return n /\ 0 <= n)
  /\ parse_duration (PStr "") = Return 0
  /\ (forall s : string,
        re_match pattern s = None -> parse_duration (PStr s) = Return 0)
  /\ (forall s : string,
        (forall rest, s <> "PT" +:+ rest) -> parse_duration (PStr s) = Return 0)
  /\ (forall h m s,
        well_formed h = true -> well_formed m = true -> well_formed s = true ->
        within_limit h = true -> within_limit m = true ->
        within_limit s = true ->
        parse_duration (PStr (iso_duration h m s))
        = Return (component_value h * 3600 + component_value m * 60
                  + component_value s))
  /\ (forall h m s,
        well_formed h = true -> well_formed m = true -> well_formed s = true ->
        within_limit h && within_limit m && within_limit s = false ->
        exists msg,
          parse_duration (PStr (iso_duration h m s))
          = Raise (mk_exn ValueError msg)).
Proof.
  assert (Hno : forall s : string,
            re_match pattern s = None -> parse_duration (PStr s) = Return 0).
  { intros s H. unfold parse_duration. rewrite H. now destruct (negb _). }
  split.
  { intros s. destruct (parse_duration_cases s) as [H|H]; [now left|].
    right. eexists. exact H. }
  split; [exact parse_duration_short|].
  split; [reflexivity|]. split; [exact Hno|].
  split; [intros s H; apply Hno; now apply re_match_none_iff|].
  split; [exact parse_duration_iso|].
  intros h m s Hh Hm Hs Hlong. eexists.
  exact (parse_duration_long h m s Hh Hm Hs Hlong).
Qed.

Lemma parse_duration_spec_witness :
  parse_duration (PStr "PT1H2M30S") = Return 3750
  /\ parse_duration (PStr "PT4M13S") = Return 253
  /\ parse_duration (PStr "P1D") = Return 0
  /\ parse_duration (PStr "1H") = Return 0.
Proof.
  destruct parse_duration_spec as (_ & _ & _ & Hno & Hpt & Hform & _).
  split; [|split; [|split]].
  - exact (Hform (Some "1") (Some "2") (Some "30") eq_refl eq_refl eq_refl
             eq_refl eq_refl eq_refl).
  - exact (Hform None (Some "4") (Some "13") eq_refl eq_refl eq_refl
             eq_refl eq_refl eq_refl).
  - apply Hno. reflexivity.
  - apply Hpt. intros rest. discriminate.
Defined.

(** The match is anchored at the start only: what follows the matched prefix
    is ignored. *)
Example text_after_the_match_is_ignored :
  parse_duration (PStr "PT1H30") = Return 3600
  /\ parse_duration (PStr "PT5M and more") = Return 300.
Proof. split; reflexivity. Qed.

(** ** The claim as stated *)

(** [parse_duration] is a total function on strings returning a non-negative
    integer. *)
Definition total_on_strings : Prop :=
  forall s : string, exists n, parse_duration (PStr s) = Return n /\ 0 <= n.

(** [n] times the digit 9. *)
Fixpoint nines (n : nat) : string :=
  match n with
  | O => ""
  | S n' => String "9" (nines n')
  end.

Lemma nines_digits n : is_digits (nines (S n)) = true.
Proof.
  unfold is_digits. cbn [nines String.eqb negb andb].
  induction n as [|n IH]; [reflexivity | exact IH].
Qed.

Lemma nines_length n : String.length (nines n) = n.
Proof. induction n as [|n IH]; [reflexivity | simpl; now rewrite IH]. Qed.

(** PT99...9S with 4301 digits. *)
Definition long_duration : string :=
  iso_duration None None (Some (nines (S int_max_str_digits))).

Lemma long_duration_refused :
  parse_duration (PStr long_duration) = Raise digit_limit_error.
Proof.
  apply parse_duration_long;
    [reflexivity | reflexivity | apply nines_digits |].
  cbn [within_limit andb]. apply Nat.leb_gt. rewrite nines_length. lia.
Qed.

(** C10 as stated fails: a seconds component of 4301 digits is refused. *)
Lemma long_component_is_refused : ~ total_on_strings.
Proof.
  intros H. destruct (H long_duration) as (n & Hn & _).
  rewrite long_duration_refused in Hn. discriminate Hn.
Qed.

End DurationFacts.

(* ===================================================================== *)
(** * get_videos                                                          *)
(* ===================================================================== *)

Module VideosFacts.
Import Py Handlers PyFacts.

Section WithWorld.
Context {W : Type}.
Variable rt : runtime.
Variable svc : services W.

(** The [parts] argument as the caller gives it: omitted, or a list of names. *)
Definition parts_argument (parts : option (list string)) : pyval :=
  match parts with
  | Some names => PList (List.map PStr names)
  | None => PNone
  end.

(** "Not a non-empty string". *)
Definition not_nonempty_string (v : pyval) : Prop :=
  match v with
  | PStr s => s = ""
  | _ => True
  end.

Lemma not_nonempty_string_bad v : not_nonempty_string v -> bad_video_id v = true.
Proof. destruct v; simpl; try reflexivity. now intros ->. Qed.

Lemma find_unhashable_names names :
  List.find (fun v => negb (hashable v)) (List.map PStr names) = None.
Proof. induction names as [|n names IH]; simpl; [reflexivity | exact IH]. Qed.

Lemma invalid_parts_of_names names :
  invalid_parts_of (PList (List.map PStr names))
  = Return (List.filter (fun v => negb (is_valid_part v)) (List.map PStr names)).
Proof.
  unfold invalid_parts_of. simpl. now rewrite find_unhashable_names.
Qed.

Lemma invalid_name_found names name :
  In name names -> ~ In name valid_parts ->
  truthy (PList (List.filter (fun v => negb (is_valid_part v))
                   (List.map PStr names))) = true.
Proof.
  intros Hin Hbad.
  assert (Hv : is_valid_part (PStr name) = false).
  { unfold is_valid_part. apply not_true_is_false. intros H.
    apply existsb_exists in H as (p & Hp & E).
    apply String.eqb_eq in E. now subst. }
  assert (Hf : In (PStr name)
                 (List.filter (fun v => negb (is_valid_part v))
                    (List.map PStr names))).
  { apply filter_In. split; [now apply in_map | now rewrite Hv]. }
  destruct (List.filter _ _); [destruct Hf | reflexivity].
Qed.

(** The checks on [ids] alone. *)
Lemma get_videos_rejects_ids (l : list pyval) parts w :
  l = [] \/ (50 < List.length l)%nat \/ (exists v, In v l /\ not_nonempty_string v) ->
  exists msg,
    get_videos rt svc (PList l) parts w = (Raise (mk_exn ValueError msg), w).
Proof.
  intros H. unfold get_videos.
  destruct l as [|x l]; [eexists; reflexivity|].
  destruct H as [H|[H|(v & Hin & Hv)]]; [discriminate| |].
  - cbn [truthy negb]. unfold bind, lift, py_len.
    assert (E : (50 <? Z.of_nat (List.length (x :: l))) = true)
      by (apply Z.ltb_lt; lia).
    rewrite E. eexists; reflexivity.
  - cbn [truthy negb]. unfold bind, lift, py_len, py_iter.
    destruct (50 <? _); [eexists; reflexivity|].
    assert (E : existsb bad_video_id (x :: l) = true).
    { apply existsb_exists. exists v. split; [assumption|].
      now apply not_nonempty_string_bad. }
    rewrite E. eexists; reflexivity.
Qed.

(** C9. [get_videos] raises a [ValueError], with the world untouched (no
    external call has been made), when the [ids] list is empty, has more than
    50 entries or has an entry that is not a non-empty string, and when
    [parts] holds a name outside the twelve valid part names; an omitted
    [parts] stands for ["snippet"]. *)
Theorem get_videos_validation :
  (forall (l : list pyval) (parts : option (list string)) w,
     l = [] \/ (50 < List.length l)%nat
       \/ (exists v, In v l /\ not_nonempty_string v)
       \/ (exists names name, parts = Some names /\ In name names
                              /\ ~ In name valid_parts) ->
     exists msg,
       get_videos rt svc (PList l) (parts_argument parts) w
       = (Raise (mk_exn ValueError msg), w))
  /\ List.length valid_parts = 12%nat
  /\ (forall ids w,
        get_videos rt svc ids (parts_argument None) w
        = get_videos rt svc ids (parts_argument (Some ["snippet"])) w).
Proof.
  split; [|split; [reflexivity | reflexivity]].
  intros l parts w [H|[H|[H|(names & name & -> & Hin & Hbad)]]];
    [apply get_videos_rejects_ids; tauto..|].
  unfold get_videos.
  destruct (negb (truthy (PList l))); [eexists; reflexivity|].
  unfold bind at 1. unfold lift at 1.
  destruct (py_len (PList l)) as [n|e] eqn:En; [|discriminate En].
  destruct (50 <? n); [eexists; reflexivity|].
  unfold bind at 1. unfold lift at 1. cbn [py_iter].
  destruct (existsb bad_video_id l); [eexists; reflexivity|].
  cbn [parts_argument]. cbv iota. unfold bind at 1. unfold lift at 1.
  rewrite invalid_parts_of_names, (invalid_name_found names name Hin Hbad).
  eexists; reflexivity.
Qed.

End WithWorld.

End VideosFacts.

(* ===================================================================== *)
(** * get_transcript                                                      *)
(* ===================================================================== *)

Module TranscriptFacts.
Import Py Handlers PyFacts.

Section WithWorld.
Context {W : Type}.
Implicit Types (tl : TranscriptList W) (t : Transcript W).

(** What the transcript library guarantees of a lookup by language code: the
    track it returns is one of the list and carries that code, and it gives
    up only when no track carries it. *)
Definition honours_codes tl : Prop :=
  forall c,
    match find_transcript tl [c] with
    | Some t => In t (tracks tl) /\ language_code t = c
    | None => forall t, In t (tracks tl) -> language_code t <> c
    end.

(** The [language] argument as the caller gives it. *)
Definition language_argument (requested : option string) : pyval :=
  match requested with
  | Some l => PStr l
  | None => PNone
  end.

(** The requested language when it is given and not blank, as given ... *)
Definition wanted_as_given (requested : option string) : option string :=
  match requested with
  | Some l => if truthy (PStr (strip l)) then Some l else None
  | None => None
  end.

(** ... and with the surrounding whitespace removed. *)
Definition wanted_stripped (requested : option string) : option string :=
  match requested with
  | Some l => if truthy (PStr (strip l)) then Some (strip l) else None
  | None => None
  end.

Section Priority.
Variable wanted : option string.
Variable candidates : list (Transcript W).

Definition none_has (c : string) : Prop :=
  forall t, In t candidates -> language_code t <> c.

Definition no_requested_match : Prop :=
  forall l, wanted = Some l -> none_has l.

Definition first_manual t : Prop :=
  exists before after,
    candidates = (before ++ t :: after)%list
    /\ Forall (fun u => is_generated u = true) before
    /\ is_generated t = false.

Definition all_generated : Prop :=
  Forall (fun u => is_generated u = true) candidates.

(** The priority order of the selector: requested language, English, first
    manually created track, first track, nothing. *)
Inductive selected : option (Transcript W) -> Prop :=
| by_requested_language l t :
    wanted = Some l -> In t candidates -> language_code t = l ->
    selected (Some t)
| by_english t :
    no_requested_match -> In t candidates -> language_code t = "en" ->
    selected (Some t)
| by_first_manual t :
    no_requested_match -> none_has "en" -> first_manual t ->
    selected (Some t)
| by_first_track t rest :
    no_requested_match -> none_has "en" -> all_generated ->
    candidates = t :: rest ->
    selected (Some t)
| by_absence :
    candidates = [] -> selected None.

End Priority.

(** What [get_transcript] does once the track is chosen. *)
Definition deliver (video_id : string) (choice : option (Transcript W))
    : M W pyval :=
  match choice with
  | None => ret (no_transcript video_id)
  | Some t =>
      try_except
        (bind (fetch t) (fun transcript_data =>
           ret (transcript_result video_id transcript_data (language_code t))))
        (transcript_error_clauses video_id)
  end.

(** [get_transcript] selects by the priority order, reading the requested
    language through [wanted_of]. *)
Definition selection_follows (wanted_of : option string -> option string)
    : Prop :=
  forall (svc : services W) (videoId : string) (requested : option string)
         tl (w w1 : W),
    blank (PStr videoId) = Return false ->
    transcript_api_list svc (strip videoId) w = (Return tl, w1) ->
    honours_codes tl ->
    exists choice,
      selected (wanted_of requested) (tracks tl) choice
      /\ get_transcript svc (PStr videoId) (language_argument requested) w
         = deliver (strip videoId) choice w1.

Lemma find_first {A} (p : A -> bool) (l : list A) :
  match List.find p l with
  | Some x => exists before after,
      l = (before ++ x :: after)%list
      /\ Forall (fun u => p u = false) before /\ p x = true
  | None => Forall (fun u => p u = false) l
  end.
Proof.
  induction l as [|a l IH]; simpl; [constructor|].
  destruct (p a) eqn:Ha.
  - exists [], l. repeat split; [constructor | assumption].
  - destruct (List.find p l) as [x|].
    + destruct IH as (before & after & -> & Hb & Hx).
      exists (a :: before), after. repeat split; [|assumption].
      now constructor.
    + now constructor.
Qed.

Lemma generated_of_not_manual (l : list (Transcript W)) :
  Forall (fun u => negb (is_generated u) = false) l ->
  Forall (fun u => is_generated u = true) l.
Proof.
  intros H. induction H as [|u l Hu _ IH]; constructor; [|exact IH].
  now destruct (is_generated u).
Qed.

(** Steps 2 to 4 against the priority order. *)
Lemma select_fallback_selected wanted tl :
  honours_codes tl ->
  no_requested_match wanted (tracks tl) ->
  exists choice,
    select_fallback tl = option_map (fun t => (t, language_code t)) choice
    /\ selected wanted (tracks tl) choice.
Proof.
  intros Hc Hno. unfold select_fallback.
  pose proof (Hc "en") as Hen.
  destruct (find_transcript tl ["en"]) as [t|].
  - destruct Hen as [Hin Hcode]. exists (Some t). split.
    + simpl. now rewrite Hcode.
    + now apply by_english.
  - pose proof (find_first (fun t => negb (is_generated t)) (tracks tl)) as Hf.
    destruct (List.find _ (tracks tl)) as [t|].
    + exists (Some t). split; [reflexivity|].
      destruct Hf as (before & after & E & Hb & Ht).
      apply by_first_manual; [assumption..|].
      exists before, after. repeat split; [assumption | | ].
      * now apply generated_of_not_manual.
      * now destruct (is_generated t).
    + destruct (tracks tl) as [|t rest] eqn:E.
      * exists None. split; [reflexivity | now apply by_absence].
      * exists (Some t). split; [reflexivity|].
        eapply by_first_track; [assumption.. | | reflexivity].
        now apply generated_of_not_manual.
Qed.

Lemma truthy_strip (l : string) :
  truthy (PStr (strip l)) = true -> truthy (PStr l) = true.
Proof. destruct l; [discriminate | reflexivity]. Qed.

Lemma select_requested_string tl (l : string) :
  select_requested tl (PStr l)
  = Return (if truthy (PStr (strip l))
            then option_map (fun t => (t, strip l)) (find_transcript tl [strip l])
            else None).
Proof.
  unfold select_requested.
  destruct (truthy (PStr (strip l))) eqn:Es.
  - rewrite (truthy_strip l Es). cbn [py_strip obind]. rewrite Es.
    now destruct (find_transcript tl [strip l]).
  - destruct (truthy (PStr l)); [|reflexivity].
    cbn [py_strip obind]. now rewrite Es.
Qed.

(** The selection of the source against the priority order. *)
Lemma select_transcript_selected tl requested :
  honours_codes tl ->
  exists choice,
    select_transcript tl (language_argument requested)
    = Return (option_map (fun t => (t, language_code t)) choice)
    /\ selected (wanted_stripped requested) (tracks tl) choice.
Proof.
  intros Hc. unfold select_transcript.
  assert (Hfall : forall wanted, no_requested_match wanted (tracks tl) ->
            exists choice,
              Return (select_fallback tl)
              = Return (option_map (fun t => (t, language_code t)) choice)
              /\ selected wanted (tracks tl) choice).
  { intros wanted Hno.
    destruct (select_fallback_selected wanted tl Hc Hno) as (ch & E & S).
    exists ch. now rewrite E. }
  destruct requested as [l|]; unfold language_argument, wanted_stripped.
  - rewrite select_requested_string.
    destruct (truthy (PStr (strip l))) eqn:Es; cbn [obind].
    + pose proof (Hc (strip l)) as Hl.
      destruct (find_transcript tl [strip l]) as [t|]; cbn [option_map].
      * destruct Hl as [Hin Hcode]. exists (Some t). split.
        -- cbn [option_map]. now rewrite Hcode.
        -- now eapply by_requested_language.
      * apply Hfall. intros l' [= <-]. exact Hl.
    + apply Hfall. intros l'. discriminate.
  - apply Hfall. intros l'. discriminate.
Qed.

Lemma blank_false_strip (videoId : string) :
  blank (PStr videoId) = Return false ->
  truthy (PStr videoId) = true /\ truthy (PStr (strip videoId)) = true.
Proof.
  unfold blank. destruct (truthy (PStr videoId)) eqn:E; simpl; [|discriminate].
  intros [= H]. split; [reflexivity|]. now apply negb_false_iff in H.
Qed.

(** [get_transcript] past its argument check, for a string [videoId]. *)
Lemma get_transcript_body (svc : services W) (videoId : string) language w :
  blank (PStr videoId) = Return false ->
  get_transcript svc (PStr videoId) language w
  = try_except
      (bind (transcript_api_list svc (strip videoId)) (fun transcript_list =>
         bind (lift (select_transcript transcript_list language)) (fun choice =>
           match choice with
           | None => ret (no_transcript (strip videoId))
           | Some (transcript, language_code) =>
               bind (fetch transcript) (fun transcript_data =>
                 ret (transcript_result (strip videoId) transcript_data
                        language_code))
           end)))
      (transcript_error_clauses (strip videoId)) w.
Proof.
  intros Hb. unfold get_transcript. unfold bind at 1. unfold lift at 1.
  rewrite Hb. reflexivity.
Qed.

(** C3, as the code has it: the requested language is compared after its
    surrounding whitespace is removed. Whatever the list of candidate tracks
    and the requested language, the track whose cues are fetched is chosen by
    the priority order; with no candidate at all the result is the normal
    "not available" result. *)
Theorem transcript_selection :
  selection_follows wanted_stripped
  /\ (forall (svc : services W) (videoId : string) requested tl (w w1 : W),
        blank (PStr videoId) = Return false ->
        transcript_api_list svc (strip videoId) w = (Return tl, w1) ->
        honours_codes tl ->
        tracks tl = [] ->
        get_transcript svc (PStr videoId) (language_argument requested) w
        = (Return (no_transcript (strip videoId)), w1)).
Proof.
  assert (Main : selection_follows wanted_stripped).
  { intros svc videoId requested tl w w1 Hb Hlist Hc.
    destruct (select_transcript_selected tl requested Hc) as (choice & E & S).
    exists choice. split; [exact S|].
    rewrite (get_transcript_body svc videoId _ w Hb).
    unfold try_except at 1. unfold bind at 1. rewrite Hlist.
    unfold bind at 1. unfold lift at 1. rewrite E.
    destruct choice as [t|]; reflexivity. }
  split; [exact Main|].
  intros svc videoId requested tl w w1 Hb Hlist Hc Hempty.
  destruct (Main svc videoId requested tl w w1 Hb Hlist Hc) as (choice & S & ->).
  inversion S as [l t _ Hin _|t _ Hin _|t _ _ (b & a & E & _)|t rest _ _ _ E|E];
    subst; try reflexivity; rewrite Hempty in *;
    try (now destruct Hin); try discriminate E.
  now destruct b.
Qed.

(** The exception with which the exchange with the transcript source ends, if
    it ends with one: raised by the listing of the tracks or by the fetch of
    the selected track. *)
Definition source_signal (svc : services W) (video_id : string)
    (language : pyval) (w : W) : option exn :=
  match transcript_api_list svc video_id w with
  | (Raise e, _) => Some e
  | (Return tl, w1) =>
      match select_transcript tl language with
      | Return (Some (t, _)) =>
          match fetch t w1 with
          | (Raise e, _) => Some e
          | (Return _, _) => None
          end
      | _ => None
      end
  end.

(** "Transcripts disabled" or "no transcript found". *)
Definition no_transcript_signal (e : exn) : bool :=
  is_class TranscriptsDisabled e || is_class NoTranscriptFound e.

Definition video_unavailable_error (video_id : string) : exn :=
  mk_exn ValueError ("Video " +:+ video_id +:+ " is unavailable or does not exist").

Definition unexpected_error (e : exn) : exn :=
  mk_exn ValueError ("Unexpected error during transcript retrieval: "
                       +:+ exn_str e).

(** An error comes out exactly when the source signals "video unavailable". *)
Definition raises_only_for_unavailable_video : Prop :=
  forall (svc : services W) (videoId : string) (requested : option string) w,
    blank (PStr videoId) = Return false ->
    (exists e, fst (get_transcript svc (PStr videoId)
                      (language_argument requested) w) = Raise e)
    <-> (exists e, source_signal svc (strip videoId)
                     (language_argument requested) w = Some e
                   /\ is_class VideoUnavailable e = true).

Lemma try_except_bind {A B} (m : M W A) (k : A -> M W B) h w :
  try_except (bind m k) h w
  = match m w with
    | (Return a, w') => try_except (k a) h w'
    | (Raise e, w') =>
        match h e with
        | Some c => c w'
        | None => (Raise e, w')
        end
    end.
Proof. unfold try_except, bind. destruct (m w) as [[a|e] w']; reflexivity. Qed.

Lemma select_transcript_total tl requested :
  exists choice,
    select_transcript tl (language_argument requested) = Return choice.
Proof.
  unfold select_transcript. destruct requested as [l|]; cbn [language_argument].
  - rewrite select_requested_string. cbn [obind].
    destruct (if truthy (PStr (strip l)) then _ else _); eexists; reflexivity.
  - cbn. eexists; reflexivity.
Qed.

Lemma transcript_error_clauses_cases video_id (e : exn) (w : W) :
  fst (match transcript_error_clauses video_id e with
       | Some c => c w
       | None => (Raise e, w)
       end)
  = if no_transcript_signal e then Return (no_transcript video_id)
    else if is_class VideoUnavailable e
         then Raise (video_unavailable_error video_id)
         else if is_exception e then Raise (unexpected_error e)
              else Raise e.
Proof.
  unfold transcript_error_clauses, no_transcript_signal.
  destruct (is_class TranscriptsDisabled e); [reflexivity|].
  destruct (is_class NoTranscriptFound e); [reflexivity|].
  destruct (is_class VideoUnavailable e); [reflexivity|].
  destruct (is_exception e); reflexivity.
Qed.

(** C5, as the code has it. "Transcripts disabled" and "no transcript found",
    from the listing or from the fetch, give the normal "not available"
    result; "video unavailable" gives an error of its own; every other
    exception of the source gives an error too (wrapped in a [ValueError]
    when it is an [Exception], as it is otherwise), as does a blank
    [videoId], before the source is consulted; without any signal the call
    succeeds. *)
Theorem transcript_signals (svc : services W) (videoId : string)
    (requested : option string) (w : W) :
  (blank (PStr videoId) = Return true ->
   get_transcript svc (PStr videoId) (language_argument requested) w
   = (Raise (mk_exn ValueError
               "videoId parameter is required and cannot be empty"), w))
  /\ (blank (PStr videoId) = Return false ->
      let r := fst (get_transcript svc (PStr videoId)
                      (language_argument requested) w) in
      match source_signal svc (strip videoId) (language_argument requested) w
      with
      | Some e =>
          if no_transcript_signal e
          then r = Return (no_transcript (strip videoId))
          else if is_class VideoUnavailable e
               then r = Raise (video_unavailable_error (strip videoId))
               else if is_exception e
                    then r = Raise (unexpected_error e)
                    else r = Raise e
      | None => exists v, r = Return v
      end).
Proof.
  split.
  - intros Hb. unfold get_transcript. unfold bind at 1. unfold lift at 1.
    now rewrite Hb.
  - intros Hb. cbv zeta. rewrite (get_transcript_body svc videoId _ w Hb).
    unfold source_signal. rewrite try_except_bind.
    destruct (transcript_api_list svc (strip videoId) w) as [[tl|e] w1].
    + rewrite try_except_bind. unfold lift.
      destruct (select_transcript_total tl requested) as (choice & ->).
      destruct choice as [[t code]|]; [|eexists; reflexivity].
      rewrite try_except_bind. destruct (fetch t w1) as [[data|e] w2].
      * eexists; reflexivity.
      * rewrite (transcript_error_clauses_cases (strip videoId) e w2).
        destruct (no_transcript_signal e); [reflexivity|].
        destruct (is_class VideoUnavailable e); [reflexivity|].
        now destruct (is_exception e).
    + rewrite (transcript_error_clauses_cases (strip videoId) e w1).
      destruct (no_transcript_signal e); [reflexivity|].
      destruct (is_class VideoUnavailable e); [reflexivity|].
      now destruct (is_exception e).
Qed.

End WithWorld.

End TranscriptFacts.

(* ===================================================================== *)
(** * What the three tool functions return                                *)
(* ===================================================================== *)

Module ToolsFacts.
Import Py Handlers Tools.

Section WithWorld.
Context {W : Type}.
Variable rt : runtime.
Variable svc : services W.

(** A dictionary, or an exception: never [None]. *)
Definition dict_or_raise (o : outcome pyval) : Prop :=
  match o with
  | Return v => exists d, v = PDict d
  | Raise _ => True
  end.

Definition yields_dict (m : M W pyval) : Prop :=
  forall w, dict_or_raise (fst (m w)).

Lemma yields_value_error msg : yields_dict (value_error msg).
Proof. intros w. exact I. Qed.

Lemma yields_ret d : yields_dict (ret (PDict d)).
Proof. intros w. now exists d. Qed.

Lemma yields_bind {A} (m : M W A) k :
  (forall a, yields_dict (k a)) -> yields_dict (bind m k).
Proof.
  intros Hk w. unfold bind. destruct (m w) as [[a|e] w']; [apply Hk | exact I].
Qed.

Lemma yields_lift o : dict_or_raise o -> yields_dict (lift o).
Proof. intros Ho w. exact Ho. Qed.

Lemma dict_obind {A} (o : outcome A) k :
  (forall a, dict_or_raise (k a)) -> dict_or_raise (obind o k).
Proof. intros Hk. destruct o as [a|e]; [apply Hk | exact I]. Qed.

Lemma yields_try m h :
  yields_dict m -> (forall e k, h e = Some k -> yields_dict k) ->
  yields_dict (try_except m h).
Proof.
  intros Hm Hh w. unfold try_except. specialize (Hm w).
  destruct (m w) as [[v|e] w']; [exact Hm|].
  destruct (h e) as [k|] eqn:E; [exact (Hh e k E w') | exact I].
Qed.

Lemma yields_api_error_clauses activity e k :
  api_error_clauses rt activity e = Some k -> yields_dict k.
Proof.
  unfold api_error_clauses.
  destruct (is_class HttpError e); [intros [= <-]|].
  - apply yields_bind. intros details. apply yields_bind. intros message.
    apply yields_value_error.
  - destruct (is_exception e); intros [= <-]. apply yields_value_error.
Qed.

Lemma yields_transcript_error_clauses video_id e k :
  @transcript_error_clauses W video_id e = Some k -> yields_dict k.
Proof.
  unfold transcript_error_clauses.
  destruct (is_class TranscriptsDisabled e); [intros [= <-]; apply yields_ret|].
  destruct (is_class NoTranscriptFound e); [intros [= <-]; apply yields_ret|].
  destruct (is_class VideoUnavailable e);
    [intros [= <-]; apply yields_value_error|].
  destruct (is_exception e); intros [= <-]. apply yields_value_error.
Qed.

Lemma search_videos_yields_dict query pageToken :
  yields_dict (search_videos rt svc query pageToken).
Proof.
  unfold search_videos. apply yields_bind. intros [|]; [apply yields_value_error|].
  apply yields_try; [|apply yields_api_error_clauses].
  apply yields_bind. intros _. apply yields_bind. intros q.
  apply yields_bind. intros response. apply yields_lift.
  repeat (apply dict_obind; intros ?). eexists. reflexivity.
Qed.

Lemma get_videos_yields_dict ids parts :
  yields_dict (get_videos rt svc ids parts).
Proof.
  unfold get_videos.
  destruct (negb (truthy ids)); [apply yields_value_error|].
  apply yields_bind. intros n.
  destruct (50 <? n); [apply yields_value_error|].
  apply yields_bind. intros members.
  destruct (existsb bad_video_id members); [apply yields_value_error|].
  apply yields_bind. intros invalid.
  destruct (truthy (PList invalid)); [apply yields_value_error|].
  apply yields_try; [|apply yields_api_error_clauses].
  apply yields_bind. intros _. apply yields_bind. intros part.
  apply yields_bind. intros id. apply yields_bind. intros response.
  apply yields_lift.
  repeat (apply dict_obind; intros ?). eexists. reflexivity.
Qed.

Lemma get_transcript_yields_dict videoId language :
  yields_dict (get_transcript svc videoId language).
Proof.
  unfold get_transcript. apply yields_bind. intros [|]; [apply yields_value_error|].
  apply yields_bind. intros video_id.
  apply yields_try; [|apply yields_transcript_error_clauses].
  apply yields_bind. intros tl. apply yields_bind. intros [[t code]|].
  - apply yields_bind. intros data. apply yields_ret.
  - apply yields_ret.
Qed.

(** None of the three tool functions completes with [None]: each returns a
    dictionary or raises. *)
Lemma tool_functions_return_dicts name (f : tool_function W) arguments w :
  TOOL_FUNCTIONS rt svc !! name = Some f ->
  dict_or_raise (fst (f arguments w)).
Proof.
  unfold TOOL_FUNCTIONS. intros H.
  apply lookup_insert_Some in H as [[_ <-]|[_ H]].
  { apply yields_bind. intros p. apply search_videos_yields_dict. }
  apply lookup_insert_Some in H as [[_ <-]|[_ H]].
  { apply yields_bind. intros p. apply get_videos_yields_dict. }
  apply lookup_singleton_Some in H as [_ <-].
  apply yields_bind. intros p. apply get_transcript_yields_dict.
Qed.

(** The names in the table. *)
Definition handler_names : list string :=
  ["search_videos"; "get_videos"; "get_transcript"].

Lemma dom_TOOL_FUNCTIONS name :
  name ∈ dom (TOOL_FUNCTIONS rt svc) <-> In name handler_names.
Proof.
  unfold TOOL_FUNCTIONS, handler_names.
  rewrite !dom_insert, dom_singleton, !elem_of_union, !elem_of_singleton.
  simpl. intuition congruence.
Qed.

Lemma lookup_TOOL_FUNCTIONS_None name :
  ~ In name handler_names -> TOOL_FUNCTIONS rt svc !! name = None.
Proof.
  intros H. apply not_elem_of_dom. now rewrite dom_TOOL_FUNCTIONS.
Qed.

End WithWorld.

End ToolsFacts.

(* ===================================================================== *)
(** * The dispatch engine                                                 *)
(* ===================================================================== *)

Module ServerFacts.
Import Py Handlers Tools Server Validator Engine ToolsFacts.

Section Dispatch.
Context {W : Type}.
Implicit Types (T : gmap string (tool_function W)) (st : state W).
Implicit Types (f : tool_function W).

(** What [handle_call_tool] makes of a completed call of the tool function:
    a result is passed on, an [Exception] is logged and wrapped, any other
    exception passes as it is. *)
Definition passed_on (name : string) (r : outcome pyval * W) st
    : outcome pyval * state W :=
  match r with
  | (Return v, w) => (Return v, {| world := w; log := log st |})
  | (Raise e, w) =>
      if is_exception e then
        (Raise (mk_exn ValueError ("Tool execution error: " +:+ exn_str e)),
         {| world := w;
            log := (log st ++ ["Error calling tool " +:+ name +:+ ": "
                                 +:+ exn_str e])%list |})
      else (Raise e, {| world := w; log := log st |})
  end.

Definition given (arguments : option kwargs) : kwargs :=
  match arguments with Some a => a | None => [] end.

(** For a name in the table the tool function is called, once, with the
    arguments as they came in. *)
Lemma handle_call_tool_registered T name f arguments st :
  T !! name = Some f ->
  handle_call_tool T name arguments st
  = passed_on name (f (given arguments) (world st)) st.
Proof.
  intros HT. unfold handle_call_tool. rewrite HT.
  unfold try_except, bind, in_world, ret, passed_on, given.
  destruct (f _ (world st)) as [[v|e] w]; [reflexivity|].
  destruct (is_exception e); reflexivity.
Qed.

(** C6. A name that is not in the table of tool functions is answered with
    the "Unknown tool" error; state and world are left as they were, whatever
    the functions in the table do, so none of them has run. With the table of
    handlers.py this is the answer to every name other than [search_videos],
    [get_videos] and [get_transcript]. *)
Theorem unknown_tool_rejected :
  (forall T name arguments st,
     T !! name = None ->
     handle_call_tool T name arguments st
     = (Raise (mk_exn ValueError ("Unknown tool: " +:+ name)), st))
  /\ (forall rt (svc : services W) name arguments st,
        ~ In name handler_names ->
        handle_call_tool (TOOL_FUNCTIONS rt svc) name arguments st
        = (Raise (mk_exn ValueError ("Unknown tool: " +:+ name)), st)).
Proof.
  assert (H : forall T name arguments st,
            T !! name = None ->
            handle_call_tool T name arguments st
            = (Raise (mk_exn ValueError ("Unknown tool: " +:+ name)), st)).
  { intros T name arguments st HT. unfold handle_call_tool. now rewrite HT. }
  split; [exact H|].
  intros rt svc name arguments st Hname. apply H.
  now apply lookup_TOOL_FUNCTIONS_None.
Qed.

(** ** Through the entry point *)

Variable TOOL_SCHEMAS : keyed.
Variable definitions : list (string * pyval).





End Dispatch.

End ServerFacts.

(* ===================================================================== *)
(** * The schema registry                                                 *)
(* ===================================================================== *)

Module RegistryFacts.
Import Py Handlers Tools Server ToolsFacts ServerFacts.

(** The candidate file does not exist. *)
Definition absent (env : environment) (path : string) : Prop :=
  exists e, read_json env path = Raise e /\ is_class FileNotFoundError e = true.

(** The candidate file exists and does not parse. *)
Definition malformed (env : environment) (path : string) (e : exn) : Prop :=
  read_json env path = Raise e /\ is_class JSONDecodeError e = true.

Definition primary (env : environment) : string := _package_path env "tools.json".
Definition fallback (env : environment) : string := path_join (cwd env) "tools.json".

Definition not_found_message : string :=
  "tools.json file not found in package or working directory".

Definition parse_error_message (path : string) (e : exn) : string :=
  "Error parsing tools.json at " +:+ path +:+ ": " +:+ exn_str e.

(** The resource that [load_tool_schemas] cannot use: absent at both
    locations, or unparseable where it is first found. *)
Definition unusable (env : environment) : Prop :=
  (absent env (primary env) /\ absent env (fallback env))
  \/ (exists e, malformed env (primary env) e)
  \/ (absent env (primary env) /\ exists e, malformed env (fallback env) e).

(** Loading fails on an unusable resource. *)
Definition load_failure_is_fatal : Prop :=
  forall env log,
    unusable env -> exists e, fst (load_tool_schemas env log) = Raise e.

Lemma malformed_not_absent e :
  is_class JSONDecodeError e = true -> is_class FileNotFoundError e = false.
Proof. unfold is_class. now destruct (exn_class_of e). Qed.

Lemma load_both_absent env log :
  absent env (primary env) -> absent env (fallback env) ->
  load_tool_schemas env log = (Return [], (log ++ [not_found_message])%list).
Proof.
  intros (e1 & R1 & C1) (e2 & R2 & C2).
  unfold load_tool_schemas, load_from. fold (primary env) (fallback env).
  now rewrite R1, C1, R2, C2.
Qed.

Lemma load_primary_malformed env log e :
  malformed env (primary env) e ->
  load_tool_schemas env log
  = (Return [], (log ++ [parse_error_message (primary env) e])%list).
Proof.
  intros (R & C). unfold load_tool_schemas, load_from.
  fold (primary env) (fallback env).
  now rewrite R, (malformed_not_absent _ C), C.
Qed.

Lemma load_fallback_malformed env log e :
  absent env (primary env) -> malformed env (fallback env) e ->
  load_tool_schemas env log
  = (Return [], (log ++ [parse_error_message (fallback env) e])%list).
Proof.
  intros (e1 & R1 & C1) (R & C). unfold load_tool_schemas, load_from.
  fold (primary env) (fallback env).
  now rewrite R1, C1, R, (malformed_not_absent _ C), C.
Qed.

(** C4, as the code has it. An absent or unparseable resource does not make
    [load_tool_schemas] fail: it logs one error line and returns the empty
    registry. The server then runs with that registry: the tool list is empty,
    and calls are still dispatched to the functions of [TOOL_FUNCTIONS]. *)
Theorem load_failure_gives_empty_registry :
  (forall env log,
     unusable env ->
     exists line,
       load_tool_schemas env log = (Return [], (log ++ [line])%list))
  /\ (forall (Tool : Type) make_Tool,
        handle_list_tools [] Tool make_Tool = Return [])
  /\ (forall (W : Type) (T : gmap string (tool_function W)) name f arguments st,
        T !! name = Some f ->
        handle_call_tool T name arguments st
        = passed_on name (f (given arguments) (world st)) st).
Proof.
  split; [|split].
  - intros env log [[H1 H2]|[(e & H)|(H1 & e & H)]].
    + eexists. exact (load_both_absent env log H1 H2).
    + eexists. exact (load_primary_malformed env log e H).
    + eexists. exact (load_fallback_malformed env log e H1 H).
  - reflexivity.
  - intros W T name f arguments st. apply handle_call_tool_registered.
Qed.

(** ** Names on both sides *)

Definition schema_names (reg : keyed) : list pyval := List.map fst reg.

(** The names with a schema are the names with a tool function. *)
Definition same_names {W} (reg : keyed) (T : gmap string (tool_function W))
    : Prop :=
  forall k,
    In k (schema_names reg) <-> exists name, k = PStr name /\ name ∈ dom T.

(** Whatever is loaded, the two registries hold the same names. *)
Definition registries_agree : Prop :=
  forall (W : Type) rt (svc : services W) env log reg log',
    load_tool_schemas env log = (Return reg, log') ->
    same_names reg (TOOL_FUNCTIONS rt svc).

Lemma key_eqb_string a n : key_eqb a (PStr n) = true -> a = PStr n.
Proof.
  destruct a as [|b|z|f|s|l|d]; simpl; try discriminate.
  intros H. apply String.eqb_eq in H. now subst.
Qed.

Lemma keyed_set_names d n v k :
  In k (schema_names (keyed_set d (PStr n) v))
  <-> In k (schema_names d) \/ k = PStr n.
Proof.
  unfold schema_names. induction d as [|[k' v'] d IH]; simpl.
  - intuition congruence.
  - destruct (key_eqb k' (PStr n)) eqn:E; simpl.
    + apply key_eqb_string in E. subst k'. intuition congruence.
    + rewrite IH. intuition congruence.
Qed.

(** A tool entry that is an object with a string name. *)
Definition named (tool : pyval) (name : string) : Prop :=
  exists d, tool = PDict d /\ dict_get d "name" = Some (PStr name).

Lemma tools_fold tools names :
  Forall2 named tools names ->
  forall d0,
    exists reg,
      List.fold_left
        (fun acc tool =>
           obind acc (fun d =>
             obind (py_getitem tool "name") (fun name =>
               if hashable name then Return (keyed_set d name tool)
               else Raise (mk_exn TypeError
                             ("unhashable type: '" +:+ type_name name +:+ "'")))))
        tools (Return d0) = Return reg
      /\ forall k, In k (schema_names reg)
                   <-> In k (schema_names d0) \/ exists n, k = PStr n /\ In n names.
Proof.
  induction 1 as [|tool name tools names (d & -> & Hn) _ IH]; intros d0; simpl.
  - exists d0. split; [reflexivity|]. intros k. split; [tauto|].
    intros [H|(n & _ & Hf)]; [exact H | destruct Hf].
  - rewrite Hn. simpl.
    destruct (IH (keyed_set d0 (PStr name) (PDict d))) as (reg & -> & Hk).
    exists reg. split; [reflexivity|]. intros k.
    rewrite Hk, keyed_set_names. split.
    + intros [[H | ->] | (n & -> & H)]; eauto.
    + intros [H | (n & -> & [<- | H])]; eauto.
Qed.

(** The document that [load_tool_schemas] reads: the primary copy, or the
    fallback when the primary copy does not exist. *)
Definition loaded_document (env : environment) (doc : pyval) : Prop :=
  read_json env (primary env) = Return doc
  \/ (absent env (primary env) /\ read_json env (fallback env) = Return doc).

Lemma load_document env log doc :
  loaded_document env doc ->
  load_tool_schemas env log = (tools_by_name doc, log).
Proof.
  unfold load_tool_schemas, load_from. fold (primary env) (fallback env).
  intros [R|((e & R1 & C1) & R)].
  - now rewrite R.
  - now rewrite R1, C1, R.
Qed.

Lemma names_of_document {W} rt (svc : services W) env log doc tools names :
  loaded_document env (PDict doc) ->
  dict_get doc "tools" = Some (PList tools) ->
  Forall2 named tools names ->
  exists reg,
    load_tool_schemas env log = (Return reg, log)
    /\ (forall k, In k (schema_names reg)
                  <-> exists n, k = PStr n /\ In n names)
    /\ (same_names reg (TOOL_FUNCTIONS rt svc)
        <-> forall n, In n names <-> In n handler_names).
Proof.
  intros Hdoc Htools Hnames.
  rewrite (load_document env log _ Hdoc).
  unfold tools_by_name. unfold py_getitem at 1. rewrite Htools.
  unfold obind at 1. unfold py_iter. unfold obind at 1.
  destruct (tools_fold tools names Hnames []) as (reg & E & Hk).
  exists reg. split; [f_equal; exact E|].
  assert (Hk' : forall k, In k (schema_names reg)
                          <-> exists n, k = PStr n /\ In n names).
  { intros k. rewrite Hk. simpl. tauto. }
  split; [exact Hk'|].
  unfold same_names. split.
  - intros H n. rewrite <- (dom_TOOL_FUNCTIONS rt svc). split.
    + intros Hn. destruct (proj1 (H (PStr n))) as (m & [= <-] & Hm);
        [apply Hk'; eauto | exact Hm].
    + intros Hn. destruct (proj1 (Hk' (PStr n))) as (m & [= <-] & Hm);
        [apply H; eauto | exact Hm].
  - intros H k. rewrite Hk'. split.
    + intros (n & -> & Hn). exists n. split; [reflexivity|].
      apply (dom_TOOL_FUNCTIONS rt svc). now apply H.
    + intros (n & -> & Hn). exists n. split; [reflexivity|].
      apply H. now apply (dom_TOOL_FUNCTIONS rt svc) in Hn.
Qed.

Lemma empty_registry_differs {W} rt (svc : services W) :
  ~ same_names [] (TOOL_FUNCTIONS rt svc).
Proof.
  intros H. apply (H (PStr "get_videos")).
  exists "get_videos". split; [reflexivity|].
  apply dom_TOOL_FUNCTIONS. right. left. reflexivity.
Qed.

(** C8, as the code has it. The names of [TOOL_SCHEMAS] are the names the
    loaded resource declares, the names of [TOOL_FUNCTIONS] are fixed, and the
    two sets are equal exactly when the resource declares exactly the three
    names [search_videos], [get_videos] and [get_transcript]. Nothing enforces
    it: on a resource that cannot be used the schema registry is empty and the
    names differ. *)
Theorem registry_names {W} rt (svc : services W) :
  (forall env log doc tools names,
     loaded_document env (PDict doc) ->
     dict_get doc "tools" = Some (PList tools) ->
     Forall2 named tools names ->
     exists reg,
       load_tool_schemas env log = (Return reg, log)
       /\ (forall k, In k (schema_names reg)
                     <-> exists n, k = PStr n /\ In n names)
       /\ (same_names reg (TOOL_FUNCTIONS rt svc)
           <-> forall n, In n names <-> In n handler_names))
  /\ (forall env log,
        unusable env ->
        exists reg log',
          load_tool_schemas env log = (Return reg, log')
          /\ ~ same_names reg (TOOL_FUNCTIONS rt svc)).
Proof.
  split.
  - intros env log doc tools names. apply names_of_document.
  - intros env log [[H1 H2]|[(e & H)|(H1 & e & H)]];
      exists []; eexists; (split; [|apply empty_registry_differs]).
    + exact (load_both_absent env log H1 H2).
    + exact (load_primary_malformed env log e H).
    + exact (load_fallback_malformed env log e H1 H).
Qed.

End RegistryFacts.

(* ===================================================================== *)
(** * A concrete deployment                                               *)
(* ===================================================================== *)

Module Scenario.
Import Py Re Handlers Tools Server Validator Engine.
Import PyFacts VideosFacts TranscriptFacts ToolsFacts ServerFacts RegistryFacts.

(** The world is the list of requests sent out so far. *)
Abbreviation requests := (list string).

Definition sent (request : string) : M requests unit :=
  fun w => (Return tt, (w ++ [request])%list).

Definition rt0 : runtime :=
  {| repr := fun v => "<" +:+ type_name v +:+ ">";
     repr_set := fun _ => "{...}" |}.

Definition cue (t : string) : Snippet :=
  {| text := t; start := 0%float; duration := 2%float |}.

Definition track (code : string) (generated : bool) (cues : list Snippet)
    : Transcript requests :=
  {| language_code := code;
     is_generated := generated;
     fetch := bind (sent ("fetch " +:+ code)) (fun _ => ret cues) |}.

(** Lookup by language codes, in the order of the codes, as the transcript
    library documents it. *)
Fixpoint find_by_codes (ts : list (Transcript requests)) (codes : list string)
    : option (Transcript requests) :=
  match codes with
  | [] => None
  | c :: rest =>
      match List.find (fun t => String.eqb (language_code t) c) ts with
      | Some t => Some t
      | None => find_by_codes ts rest
      end
  end.

Definition listing (ts : list (Transcript requests)) : TranscriptList requests :=
  {| tracks := ts; find_transcript := find_by_codes ts |}.

Lemma listing_honours_codes ts : honours_codes (listing ts).
Proof.
  intros c. simpl.
  destruct (List.find _ ts) as [t|] eqn:E.
  - apply List.find_some in E as [Hin Hc]. now apply String.eqb_eq in Hc.
  - intros t Hin Hc.
    pose proof (List.find_none _ _ E t Hin) as Hn. simpl in Hn.
    apply String.eqb_neq in Hn. contradiction.
Qed.

Definition en_generated : Transcript requests := track "en" true [cue "hello"].
Definition es_manual : Transcript requests := track "es" false [cue "hola"].

Definition search_response : pyval :=
  PDict [("items",
          PList [PDict [("id", PDict [("kind", PStr "youtube#video");
                                      ("videoId", PStr "abc")]);
                        ("snippet", PDict [("title", PStr "t")])]]);
         ("pageInfo", PDict [("totalResults", PStr "1000000")])].

(** A platform that answers every request; [answer] is what the transcript
    library makes of the request for the list of tracks. *)
Definition platform (answer : M requests (TranscriptList requests))
    : services requests :=
  {| YOUTUBE_API_KEY := Some "key";
     build := fun _ => ret tt;
     search_list_execute := fun params =>
       bind (sent "search.list") (fun _ => ret search_response);
     videos_list_execute := fun part id =>
       bind (sent ("videos.list part=" +:+ part +:+ " id=" +:+ id))
            (fun _ => ret (PDict [("items", PList [])]));
     transcript_api_list := fun video_id =>
       bind (sent ("transcripts.list " +:+ video_id)) (fun _ => answer) |}.

Definition offering (ts : list (Transcript requests)) : services requests :=
  platform (ret (listing ts)).

Definition svc0 : services requests := offering [en_generated; es_manual].

(** The same platform when the request for the transcript list fails. *)
Definition failing_with (e : exn) : services requests := platform (raise e).

Definition connection_reset : exn := mk_exn OtherException "connection reset".
Definition disabled : exn :=
  mk_exn TranscriptsDisabled "Subtitles are disabled for this video".
Definition unavailable : exn :=
  mk_exn VideoUnavailable "The video is no longer available".

Definition object (properties : list (string * pyval)) (required : list string)
    : pyval :=
  PDict [("type", PStr "object"); ("properties", PDict properties);
         ("required", PList (List.map PStr required))].

Definition of_type (ty : string) : pyval := PDict [("type", PStr ty)].

Definition array_of (items : pyval) : pyval :=
  PDict [("type", PStr "array"); ("items", items)].

Definition ref (name : string) : pyval :=
  PDict [("$ref", PStr ("#/definitions/" +:+ name))].

Definition tool (name description : string) (input output : pyval) : pyval :=
  PDict [("name", PStr name); ("description", PStr description);
         ("inputSchema", input); ("outputSchema", output)].

Definition definitions0 : list (string * pyval) :=
  [("PageInfo",
    object [("totalResults", of_type "integer");
            ("resultsPerPage", of_type "integer")]
           ["totalResults"; "resultsPerPage"]);
   ("Cue",
    object [("text", of_type "string"); ("start", of_type "number");
            ("duration", of_type "number")]
           ["text"; "start"; "duration"])].

(** Modelled from the spec: the tool contract resource of section 6, a
    document with top-level [tools] and [definitions] ([tools.json] itself is
    not among the sources). The input schemas follow the signatures of the
    three handlers, the output schemas the results they build. *)
Definition tools0 : list pyval :=
        [tool "search_videos" "Search for videos"
           (object [("query", of_type "string");
                    ("pageToken", of_type "string")] ["query"])
           (object [("items", array_of (of_type "object"));
                    ("pageInfo", ref "PageInfo");
                    ("nextPageToken", of_type "string");
                    ("prevPageToken", of_type "string")]
                   ["items"; "pageInfo"]);
         tool "get_videos" "Get details of videos"
           (object [("ids", array_of (of_type "string"));
                    ("parts", array_of (of_type "string"))] ["ids"])
           (object [("items", array_of (of_type "object"));
                    ("pageInfo", ref "PageInfo")]
                   ["items"; "pageInfo"]);
         tool "get_transcript" "Get the transcript of a video"
           (object [("videoId", of_type "string");
                    ("language", of_type "string")] ["videoId"])
           (object [("videoId", of_type "string");
                    ("transcript", array_of (ref "Cue"));
                    ("available", of_type "boolean");
                    ("language",
                     PDict [("type", PList [PStr "string"; PStr "null"])])]
                   ["videoId"; "transcript"; "available"; "language"])].

Definition document0 : list (string * pyval) :=
  [("tools", PList tools0); ("definitions", PDict definitions0)].

Definition tools_json : pyval := PDict document0.

Definition no_such_file : exn :=
  mk_exn FileNotFoundError "[Errno 2] No such file or directory".

(** The package ships its [tools.json]. *)
Definition env0 : environment :=
  {| package_dir := "/srv/youtube_mcp_server";
     cwd := "/home/user";
     read_json := fun path =>
       if String.eqb path "/srv/youtube_mcp_server/tools.json"
       then Return tools_json else Raise no_such_file |}.

(** No [tools.json] anywhere. *)
Definition env_missing : environment :=
  {| package_dir := "/srv/youtube_mcp_server";
     cwd := "/home/user";
     read_json := fun _ => Raise no_such_file |}.

(** [TOOL_SCHEMAS] as loaded in [env0]. *)
Definition TOOL_SCHEMAS0 : keyed :=
  match fst (load_tool_schemas env0 []) with
  | Return reg => reg
  | Raise _ => []
  end.

Definition fresh : state requests := {| world := []; log := [] |}.

Definition T0 : gmap string (tool_function requests) := TOOL_FUNCTIONS rt0 svc0.


(** ** The validation checks of [get_videos] *)

Lemma get_videos_validation_witness :
  (exists msg,
     get_videos rt0 svc0 (PList []) PNone []
     = (Raise (mk_exn ValueError msg), []))
  /\ (exists msg,
        get_videos rt0 svc0 (PList [PStr "a"; PStr ""]) PNone []
        = (Raise (mk_exn ValueError msg), []))
  /\ (exists msg,
        get_videos rt0 svc0 (PList [PStr "a"]) (PList [PStr "bogus"]) []
        = (Raise (mk_exn ValueError msg), [])).
Proof.
  destruct (get_videos_validation rt0 svc0) as (H & _ & _).
  split; [|split].
  - apply (H [] None). left. reflexivity.
  - apply (H [PStr "a"; PStr ""] None). right. right. left.
    exists (PStr ""). split; [right; left; reflexivity | reflexivity].
  - apply (H [PStr "a"] (Some ["bogus"])). right. right. right.
    exists ["bogus"], "bogus". split; [reflexivity|].
    split; [left; reflexivity|].
    simpl. intros Hin. repeat destruct Hin as [Hin|Hin]; try discriminate Hin.
    exact Hin.
Defined.

(** ** Transcript selection *)

Lemma transcript_selection_witness :
  exists choice,
    selected (wanted_stripped (Some " es "))
      [en_generated; es_manual] choice
    /\ get_transcript svc0 (PStr "vid") (PStr " es ") []
       = deliver "vid" choice ["transcripts.list vid"].
Proof.
  destruct (@transcript_selection requests) as [H _].
  apply (H svc0 "vid" (Some " es ") (listing [en_generated; es_manual])
           [] ["transcripts.list vid"]);
    [reflexivity | reflexivity | apply listing_honours_codes].
Defined.

(** The scenarios of the specification. *)
Example requested_language_wins :
  get_transcript (offering [en_generated; es_manual]) (PStr "vid") (PStr "es") []
  = (Return (transcript_result "vid" [cue "hola"] "es"),
     ["transcripts.list vid"; "fetch es"]).
Proof. reflexivity. Qed.

Example english_fallback :
  get_transcript (offering [en_generated]) (PStr "vid") (PStr "fr") []
  = (Return (transcript_result "vid" [cue "hello"] "en"),
     ["transcripts.list vid"; "fetch en"]).
Proof. reflexivity. Qed.

Example manual_fallback :
  get_transcript
    (offering [track "ja" false [cue "konnichiwa"];
               track "ko" true [cue "annyeong"]]) (PStr "vid") PNone []
  = (Return (transcript_result "vid" [cue "konnichiwa"] "ja"),
     ["transcripts.list vid"; "fetch ja"]).
Proof. reflexivity. Qed.

Example first_track_fallback :
  get_transcript
    (offering [track "ko" true [cue "annyeong"];
               track "ja" true [cue "konnichiwa"]]) (PStr "vid") PNone []
  = (Return (transcript_result "vid" [cue "annyeong"] "ko"),
     ["transcripts.list vid"; "fetch ko"]).
Proof. reflexivity. Qed.

Example no_track_at_all :
  get_transcript (offering []) (PStr "vid") (PStr "es") []
  = (Return (no_transcript "vid"), ["transcripts.list vid"]).
Proof. reflexivity. Qed.

(** What the call gives when the language is requested with blanks around. *)
Example padded_language_selects_stripped_code :
  get_transcript svc0 (PStr "vid") (PStr " es ") []
  = (Return (transcript_result "vid" [cue "hola"] "es"),
     ["transcripts.list vid"; "fetch es"]).
Proof. reflexivity. Qed.

(** C3 as stated fails: with the tracks [en (generated); es (manual)] and the
    requested language " es ", no track carries the code " es ", so the
    priority order read on the language as given selects the English track;
    the code fetches the Spanish one. *)
Lemma selection_not_by_language_as_given :
  ~ @selection_follows requests wanted_as_given.
Proof.
  intros H.
  destruct (H svc0 "vid" (Some " es ") (listing [en_generated; es_manual])
              [] ["transcripts.list vid"] eq_refl eq_refl
              (listing_honours_codes _)) as (choice & S & E).
  cbn [language_argument] in E.
  rewrite padded_language_selects_stripped_code in E.
  assert (Hen : In en_generated (tracks (listing [en_generated; es_manual])))
    by (left; reflexivity).
  inversion S as [l t Hl Hin Hc|t _ Hin Hc|t _ Hno _|t rest _ Hno _ _|Hnil];
    subst choice.
  - vm_compute in Hl. injection Hl as <-.
    destruct Hin as [<-|[<-|[]]]; discriminate Hc.
  - destruct Hin as [<-|[<-|[]]]; [vm_compute in E; discriminate E | discriminate Hc].
  - now apply (Hno en_generated Hen).
  - now apply (Hno en_generated Hen).
  - discriminate Hnil.
Qed.

(** ** Signals of the transcript source *)

Lemma transcript_signals_witness :
  fst (get_transcript (failing_with disabled) (PStr "vid") PNone [])
  = Return (no_transcript "vid")
  /\ fst (get_transcript (failing_with unavailable) (PStr "vid") PNone [])
     = Raise (video_unavailable_error "vid")
  /\ fst (get_transcript (failing_with connection_reset) (PStr "vid") PNone [])
     = Raise (unexpected_error connection_reset)
  /\ get_transcript svc0 (PStr "  ") PNone []
     = (Raise (mk_exn ValueError
                 "videoId parameter is required and cannot be empty"), []).
Proof.
  split; [|split; [|split]].
  - exact (proj2 (transcript_signals (failing_with disabled) "vid" None [])
             eq_refl).
  - exact (proj2 (transcript_signals (failing_with unavailable) "vid" None [])
             eq_refl).
  - exact (proj2 (transcript_signals (failing_with connection_reset) "vid"
                    None []) eq_refl).
  - exact (proj1 (transcript_signals svc0 "  " None []) eq_refl).
Defined.

(** C5 as stated fails: when the request for the transcript list fails for
    any other reason, the caller gets an error although the source did not
    signal "video unavailable". *)
Lemma error_without_unavailable_video :
  ~ @raises_only_for_unavailable_video requests.
Proof.
  intros H.
  destruct (proj1 (H (failing_with connection_reset) "vid" None [] eq_refl))
    as (e & Hs & Hc).
  - eexists. reflexivity.
  - injection Hs as <-. discriminate Hc.
Qed.

(** ** Dispatch *)



Lemma unknown_tool_rejected_witness :
  handle_call_tool T0 "delete_video" (Some [("videoId", PStr "vid")]) fresh
  = (Raise (mk_exn ValueError "Unknown tool: delete_video"), fresh).
Proof.
  destruct (@unknown_tool_rejected requests) as [_ H].
  apply (H rt0 svc0 "delete_video").
  simpl. intros Hin. repeat destruct Hin as [Hin|Hin]; try discriminate Hin.
  exact Hin.
Defined.

(** ** The entry point *)








Definition search_result : pyval :=
  PDict [("items",
          PList [PDict [("id", PDict [("kind", PStr "youtube#video");
                                      ("videoId", PStr "abc")]);
                        ("snippet", PDict [("title", PStr "t")])]]);
         ("pageInfo", PDict [("totalResults", PStr "1000000");
                             ("resultsPerPage", PInt 1)])].






(** ** Registries *)

Lemma env_missing_unusable : unusable env_missing.
Proof.
  left. split; exists no_such_file; split; reflexivity.
Qed.

Lemma load_failure_gives_empty_registry_witness :
  exists line, load_tool_schemas env_missing [] = (Return [], [line]).
Proof.
  destruct load_failure_gives_empty_registry as (H & _ & _).
  apply (H env_missing []). left.
  split; exists no_such_file; split; reflexivity.
Defined.

(** C4 as stated fails: without any [tools.json] loading returns normally. *)
Lemma missing_resource_is_not_fatal : ~ load_failure_is_fatal.
Proof.
  intros H. destruct (H env_missing [] env_missing_unusable) as (e & He).
  discriminate He.
Qed.

Lemma registry_names_witness :
  (exists reg,
     load_tool_schemas env0 [] = (Return reg, [])
     /\ (forall k, In k (schema_names reg)
                   <-> exists n, k = PStr n /\ In n handler_names)
     /\ (same_names reg T0
         <-> forall n, In n handler_names <-> In n handler_names))
  /\ (exists reg log',
        load_tool_schemas env_missing [] = (Return reg, log')
        /\ ~ same_names reg T0).
Proof.
  destruct (registry_names rt0 svc0) as [Hloaded Hunusable]. split.
  - apply (Hloaded env0 [] document0 tools0 handler_names).
    + left. reflexivity.
    + reflexivity.
    + repeat constructor; eexists; split; reflexivity.
  - apply (Hunusable env_missing []). left.
    split; exists no_such_file; split; reflexivity.
Defined.

(** C8 as stated fails: without any [tools.json] the schema registry is empty
    while the table of tool functions holds its three names. *)
Lemma registries_differ_without_resource : ~ registries_agree.
Proof.
  intros H.
  specialize (H requests rt0 svc0 env_missing [] [] _ eq_refl
                (PStr "get_videos")).
  apply H. exists "get_videos". split; [reflexivity|].
  apply dom_TOOL_FUNCTIONS. right. left. reflexivity.
Qed.

End Scenario.

(* ===================================================================== *)
(** * Reasoning about computations                                        *)
(* ===================================================================== *)

Module MonadFacts.
Import Py.

(** [ensures m Q E]: whatever the state, a result of [m] satisfies [Q] and an
    exception of [m] satisfies [E]. *)
Definition ensures {S A} (m : M S A) (Q : A -> Prop) (E : exn -> Prop) : Prop :=
  forall s, match fst (m s) with
            | Return a => Q a
            | Raise e => E e
            end.

Definition oensures {A} (o : outcome A) (Q : A -> Prop) (E : exn -> Prop)
    : Prop :=
  match o with
  | Return a => Q a
  | Raise e => E e
  end.

Definition anything {A} : A -> Prop := fun _ => True.

Lemma ensures_ret {S A} (a : A) (Q : A -> Prop) E : Q a -> @ensures S A (ret a) Q E.
Proof. intros H s. exact H. Qed.

Lemma ensures_raise {S A} e (Q : A -> Prop) (E : exn -> Prop) :
  E e -> @ensures S A (raise e) Q E.
Proof. intros H s. exact H. Qed.

Lemma ensures_lift {S A} (o : outcome A) Q E :
  oensures o Q E -> @ensures S A (lift o) Q E.
Proof. intros H s. exact H. Qed.

Lemma ensures_bind {S A B} (m : M S A) (k : A -> M S B) P Q E :
  ensures m P E -> (forall a, P a -> ensures (k a) Q E) ->
  ensures (bind m k) Q E.
Proof.
  intros Hm Hk s. unfold bind. specialize (Hm s).
  destruct (m s) as [[a|e] s']; [exact (Hk a Hm s') | exact Hm].
Qed.

Lemma ensures_try {S A} (m : M S A) h Q E1 E :
  ensures m Q E1 ->
  (forall e, E1 e -> match h e with
                     | Some k => ensures k Q E
                     | None => E e
                     end) ->
  ensures (try_except m h) Q E.
Proof.
  intros Hm Hh s. unfold try_except. specialize (Hm s).
  destruct (m s) as [[a|e] s']; [exact Hm|].
  specialize (Hh e Hm). destruct (h e) as [k|]; [exact (Hh s') | exact Hh].
Qed.

Lemma ensures_weaken {S A} (m : M S A) (Q Q' : A -> Prop) (E E' : exn -> Prop) :
  ensures m Q E -> (forall a, Q a -> Q' a) -> (forall e, E e -> E' e) ->
  ensures m Q' E'.
Proof.
  intros Hm HQ HE s. specialize (Hm s).
  destruct (fst (m s)); [now apply HQ | now apply HE].
Qed.

Lemma oensures_obind {A B} (o : outcome A) (k : A -> outcome B) P Q E :
  oensures o P E -> (forall a, P a -> oensures (k a) Q E) ->
  oensures (obind o k) Q E.
Proof. intros Ho Hk. destruct o as [a|e]; [exact (Hk a Ho) | exact Ho]. Qed.

Lemma oensures_weaken {A} (o : outcome A) (Q Q' : A -> Prop) (E E' : exn -> Prop) :
  oensures o Q E -> (forall a, Q a -> Q' a) -> (forall e, E e -> E' e) ->
  oensures o Q' E'.
Proof. intros Ho HQ HE. destruct o; [now apply HQ | now apply HE]. Qed.

(** Evaluation, one step at a time. *)
Lemma bind_eval {S A B} (m : M S A) (k : A -> M S B) s :
  bind m k s = match m s with
               | (Return a, s') => k a s'
               | (Raise e, s') => (Raise e, s')
               end.
Proof. reflexivity. Qed.

Lemma try_eval {S A} (m : M S A) h s :
  try_except m h s = match m s with
                     | (Return a, s') => (Return a, s')
                     | (Raise e, s') =>
                         match h e with
                         | Some k => k s'
                         | None => (Raise e, s')
                         end
                     end.
Proof. reflexivity. Qed.

Lemma try_bind_eval {S A B} (m : M S A) (k : A -> M S B) h s :
  try_except (bind m k) h s
  = match m s with
    | (Return a, s') => try_except (k a) h s'
    | (Raise e, s') =>
        match h e with
        | Some c => c s'
        | None => (Raise e, s')
        end
    end.
Proof. unfold try_except, bind. destruct (m s) as [[a|e] s']; reflexivity. Qed.

(** ** Dictionaries *)

Lemma dict_get_set_eq d k v : dict_get (dict_set d k v) k = Some v.
Proof.
  induction d as [|[k' v'] d IH]; simpl.
  - now rewrite String.eqb_refl.
  - destruct (String.eqb k' k) eqn:E; simpl; rewrite E; [reflexivity | exact IH].
Qed.

Lemma dict_get_set_ne d k k' v :
  k <> k' -> dict_get (dict_set d k v) k' = dict_get d k'.
Proof.
  intros Hne. induction d as [|[k0 v0] d IH]; simpl.
  - destruct (String.eqb_spec k k'); [contradiction | reflexivity].
  - destruct (String.eqb_spec k0 k) as [->|Hk]; simpl.
    + destruct (String.eqb_spec k k'); [contradiction | reflexivity].
    + destruct (String.eqb k0 k'); [reflexivity | exact IH].
Qed.

Lemma for_each_length {A B} (f : A -> outcome B) l ys :
  for_each f l = Return ys -> List.length ys = List.length l.
Proof.
  revert ys. induction l as [|x l IH]; simpl; intros ys.
  - now intros [= <-].
  - destruct (f x) as [y|e]; simpl; [|discriminate].
    destruct (for_each f l) as [ys'|e]; simpl; [|discriminate].
    intros [= <-]. simpl. now rewrite (IH ys').
Qed.

Lemma for_each_fails {A B} (f : A -> outcome B) l x :
  In x l -> (exists e, f x = Raise e) -> exists e, for_each f l = Raise e.
Proof.
  intros Hin (e & He). induction l as [|y l IH]; [destruct Hin|].
  simpl. destruct Hin as [->|Hin].
  - rewrite He. eexists; reflexivity.
  - destruct (f y) as [b|e']; simpl; [|eexists; reflexivity].
    destruct (IH Hin) as (e'' & ->). eexists; reflexivity.
Qed.

Lemma for_each_id {A} (f : A -> outcome A) l :
  (forall x, In x l -> f x = Return x) -> for_each f l = Return l.
Proof.
  induction l as [|x l IH]; intros H; simpl; [reflexivity|].
  rewrite (H x (or_introl eq_refl)), IH; [reflexivity|].
  intros y Hy. apply H. now right.
Qed.

End MonadFacts.

(* ===================================================================== *)
(** * More on the handlers                                                *)
(* ===================================================================== *)

Module HandlersMore.
Import Py Re Handlers PyFacts ReFacts DurationFacts VideosFacts MonadFacts.

Definition is_value_error (e : exn) : Prop := is_class ValueError e = true.

(** ** parse_duration *)

Lemma lookahead_present c c' d rest :
  is_digit c' = false -> c' <> c -> is_digits d = true ->
  lookahead c (component_text (Some d) c' +:+ rest).
Proof.
  intros Hc' Hne Hd. exists d, (String c' rest). cbn [component_text].
  rewrite append_assoc, append_cons, append_nil.
  repeat split; [now apply is_digits_all | assumption..].
Qed.

Lemma re_match_iso_then (h m : option string) (s rest : string) :
  well_formed h = true -> well_formed m = true -> is_digits s = true ->
  re_match pattern (iso_duration h m (Some s) +:+ rest) =
    Some (set_group 3 s (component_group 2 m (component_group 1 h no_groups))).
Proof.
  intros Hh Hm Hs. unfold re_match, pattern, iso_duration.
  rewrite !append_assoc.
  change ("PT" +:+ ?r) with (String "P" (String "T" r)).
  rewrite run_cat, run_lit_hit, run_cat, run_lit_hit, run_cat.
  apply component_step; [reflexivity | assumption | |].
  { apply lookahead_component; [reflexivity | discriminate | assumption |].
    now apply lookahead_present. }
  rewrite run_cat.
  apply component_step; [reflexivity | assumption | |].
  { now apply lookahead_present. }
  cbn [component_text]. rewrite append_assoc, append_cons, append_nil.
  now apply component_take.
Qed.

(** X7. Once the seconds component is there, nothing that follows it counts:
    PT{h}H{m}M{s}S, each component of at most 4300 digits, followed by any
    text is worth h*3600 + m*60 + s. *)
Theorem text_after_seconds_is_ignored (h m : option string) (s rest : string) :
  well_formed h = true -> well_formed m = true -> is_digits s = true ->
  within_limit h = true -> within_limit m = true ->
  within_limit (Some s) = true ->
  parse_duration (PStr (iso_duration h m (Some s) +:+ rest))
  = Return (component_value h * 3600 + component_value m * 60
            + digits_value 0 s).
Proof.
  intros Hh Hm Hs Lh Lm Ls. unfold parse_duration.
  assert (Ht : negb (truthy (PStr (iso_duration h m (Some s) +:+ rest))) = false).
  { unfold iso_duration. rewrite !append_assoc. reflexivity. }
  rewrite Ht, (re_match_iso_then h m s rest Hh Hm Hs).
  pose proof (re_match_digit_groups _ _ (re_match_iso_then h m s rest Hh Hm Hs))
    as Hg.
  assert (Hb : bounded_groups int_max_str_digits
                 (set_group 3 s (component_group 2 m
                    (component_group 1 h no_groups)))).
  { apply (component_group_bounded 3 (Some s)); [exact Ls|].
    repeat (apply component_group_bounded; [assumption|]).
    intros i d. discriminate. }
  rewrite !(group_seconds_digits _ _ Hg Hb). cbn [obind].
  destruct h, m; reflexivity.
Qed.

Lemma text_after_seconds_is_ignored_witness :
  parse_duration (PStr "PT4M13S (approx.)") = Return 253.
Proof.
  exact (text_after_seconds_is_ignored None (Some "4") "13" " (approx.)"
           eq_refl eq_refl eq_refl eq_refl eq_refl eq_refl).
Defined.

Section WithWorld.
Context {W : Type}.
Variable rt : runtime.
Variable svc : services W.

(** ** The API key *)

Definition key_missing : Prop :=
  YOUTUBE_API_KEY svc = None \/ YOUTUBE_API_KEY svc = Some "".

Definition key_required : string :=
  "YOUTUBE_API_KEY environment variable is required".

Lemma build_without_key w :
  key_missing ->
  build_youtube_service svc w = (Raise (mk_exn ValueError key_required), w).
Proof.
  intros [H|H]; unfold build_youtube_service, validate_youtube_api_key;
    rewrite bind_eval, H; reflexivity.
Qed.

Lemma build_with_key key w :
  YOUTUBE_API_KEY svc = Some key -> key <> "" ->
  build_youtube_service svc w = build svc key w.
Proof.
  intros H Hk. unfold build_youtube_service, validate_youtube_api_key.
  rewrite bind_eval, H.
  destruct key as [|c key]; [contradiction | reflexivity].
Qed.

(** ** search_videos *)

Definition not_blank (s : string) : Prop := strip s <> "".

Lemma blank_string s :
  blank (PStr s) = Return (String.eqb (strip s) "").
Proof.
  unfold blank. destruct s as [|c s]; [reflexivity|].
  cbn [truthy String.eqb negb py_strip obind].
  now destruct (String.eqb (strip (String c s)) "").
Qed.

Lemma blank_not_blank s : not_blank s -> blank (PStr s) = Return false.
Proof.
  intros H. rewrite blank_string. now apply String.eqb_neq in H as ->.
Qed.

(** The parameters of the search request. *)
Definition search_params (q : string) (pageToken : pyval) : list (string * pyval) :=
  let base := [("q", PStr (strip q)); ("part", PStr "snippet");
               ("type", PStr "video"); ("maxResults", PInt 10);
               ("order", PStr "relevance")] in
  if truthy pageToken then (base ++ [("pageToken", pageToken)])%list else base.

(** What [search_videos] makes of the response. *)
Definition search_result (search_response : pyval) : outcome pyval :=
  obind (py_getitem search_response "items") (fun raw =>
  obind (py_iter raw) (fun raw_items =>
  obind (for_each process_item raw_items) (fun items =>
  obind (py_get search_response "pageInfo" (PDict [])) (fun page_info =>
  obind (py_get page_info "totalResults" (PInt 0)) (fun total =>
  obind (copy_token search_response "nextPageToken"
           [("items", PList items);
            ("pageInfo",
             PDict [("totalResults", total);
                    ("resultsPerPage", PInt (Z.of_nat (List.length items)))])])
        (fun result =>
  obind (copy_token search_response "prevPageToken" result) (fun result =>
  Return (PDict result)))))))).

(** [search_videos] past the check of its query. *)
Lemma search_videos_checked (q : string) pageToken w :
  not_blank q ->
  search_videos rt svc (PStr q) pageToken w
  = try_except
      (bind (build_youtube_service svc) (fun _ =>
         bind (search_list_execute svc (search_params q pageToken))
              (fun search_response => lift (search_result search_response))))
      (api_error_clauses rt "video search") w.
Proof.
  intros Hq. unfold search_videos. rewrite bind_eval. unfold lift at 1.
  rewrite (blank_not_blank q Hq).
  unfold search_params. destruct (truthy pageToken); reflexivity.
Qed.

(** X1. A query that is absent, empty or made of whitespace only is refused
    with a [ValueError] before anything else happens: the world is
    untouched. *)
Theorem search_videos_rejects_blank_query (query pageToken : pyval) (w : W) :
  query = PNone \/ (exists s, query = PStr s /\ strip s = "") ->
  search_videos rt svc query pageToken w
  = (Raise (mk_exn ValueError
              "query parameter is required and cannot be empty"), w).
Proof.
  intros [->|(s & -> & Hs)]; unfold search_videos; rewrite bind_eval;
    unfold lift at 1; [reflexivity|].
  now rewrite blank_string, Hs.
Qed.

(** ** get_videos past its checks *)

(** A request that passes every check of [get_videos]. *)
Definition valid_ids (ids : list string) : Prop :=
  ids <> [] /\ (List.length ids <= 50)%nat /\ Forall not_blank ids.

Definition valid_names (parts : option (list string)) : Prop :=
  match parts with
  | Some names => Forall (fun n => In n valid_parts) names
  | None => True
  end.

(** The part names in force. *)
Definition names_of (parts : option (list string)) : list string :=
  match parts with
  | Some names => names
  | None => ["snippet"]
  end.

(** What [get_videos] makes of the response. *)
Definition videos_result (names : list string) (videos_response : pyval)
    : outcome pyval :=
  obind (py_getitem videos_response "items") (fun raw =>
  obind (py_iter raw) (fun videos =>
  obind (for_each (add_duration_seconds (PList (List.map PStr names))) videos)
        (fun items =>
  Return (PDict [("items", PList items);
                 ("pageInfo",
                  PDict [("totalResults", PInt (Z.of_nat (List.length items)));
                         ("resultsPerPage",
                          PInt (Z.of_nat (List.length items)))])])))).

Lemma py_join_strings sep l :
  py_join sep (PList (List.map PStr l)) = Return (join sep l).
Proof.
  unfold py_join. cbn [py_iter obind].
  assert (E : forall l,
            (fix strings (l : list pyval) : outcome (list string) :=
               match l with
               | [] => Return []
               | PStr s :: l' => obind (strings l') (fun rest => Return (s :: rest))
               | x :: _ =>
                   Raise (mk_exn TypeError
                            ("sequence item: expected str instance, "
                               +:+ type_name x +:+ " found"))
               end) (List.map PStr l) = Return l).
  { clear l. induction l as [|x l IH]; [reflexivity|].
    cbn [List.map]. rewrite IH. reflexivity. }
  now rewrite E.
Qed.

Lemma no_bad_id ids :
  Forall not_blank ids -> existsb bad_video_id (List.map PStr ids) = false.
Proof.
  induction 1 as [|x ids Hx _ IH]; [reflexivity|].
  cbn [List.map existsb]. rewrite IH, orb_false_r.
  unfold bad_video_id, not_blank in *.
  assert (Hs : truthy (PStr (strip x)) = true).
  { unfold truthy. now apply String.eqb_neq in Hx as ->. }
  rewrite Hs, (TranscriptFacts.truthy_strip x Hs). reflexivity.
Qed.

Lemma no_invalid_part names :
  Forall (fun n => In n valid_parts) names ->
  List.filter (fun v => negb (is_valid_part v)) (List.map PStr names) = [].
Proof.
  induction 1 as [|n names Hn _ IH]; [reflexivity|].
  cbn [List.map List.filter].
  assert (Hv : is_valid_part (PStr n) = true).
  { unfold is_valid_part. apply existsb_exists. exists n.
    split; [exact Hn | apply String.eqb_refl]. }
  now rewrite Hv.
Qed.

Lemma names_of_valid parts :
  valid_names parts -> Forall (fun n => In n valid_parts) (names_of parts).
Proof.
  destruct parts as [names|]; [trivial|]. intros _.
  constructor; [left; reflexivity | constructor].
Qed.

Lemma get_videos_checked ids parts w :
  valid_ids ids -> valid_names parts ->
  get_videos rt svc (PList (List.map PStr ids)) (parts_argument parts) w
  = try_except
      (bind (build_youtube_service svc) (fun _ =>
         bind (videos_list_execute svc (join "," (names_of parts)) (join "," ids))
              (fun videos_response =>
                 lift (videos_result (names_of parts) videos_response))))
      (api_error_clauses rt "video retrieval") w.
Proof.
  intros (Hne & Hlen & Hids) Hparts. unfold get_videos.
  assert (Ht : negb (truthy (PList (List.map PStr ids))) = false)
    by (destruct ids; [contradiction | reflexivity]).
  rewrite Ht. rewrite bind_eval. unfold lift at 1. cbn [py_len].
  assert (Hn : (50 <? Z.of_nat (List.length (List.map PStr ids))) = false)
    by (rewrite length_map; apply Z.ltb_ge; lia).
  rewrite Hn. rewrite bind_eval. unfold lift at 1. cbn [py_iter].
  rewrite (no_bad_id ids Hids).
  assert (Hp : match parts_argument parts with
               | PNone => PList [PStr "snippet"]
               | _ => parts_argument parts
               end = PList (List.map PStr (names_of parts)))
    by (destruct parts; reflexivity).
  rewrite Hp. rewrite bind_eval. unfold lift at 1.
  rewrite invalid_parts_of_names,
    (no_invalid_part _ (names_of_valid parts Hparts)).
  cbn [truthy].
  unfold try_except, bind, lift.
  destruct (build_youtube_service svc w) as [[u|e] w1]; [|reflexivity].
  rewrite !py_join_strings.
  destruct (videos_list_execute svc _ _ w1) as [[r|e] w2]; reflexivity.
Qed.

(** X2. Without an API key (unset or empty) a search and a lookup that pass
    their argument checks fail with a [ValueError] naming the variable; the
    platform is not contacted. *)
Theorem no_request_without_api_key (q : string) pageToken ids parts (w : W) :
  key_missing ->
  (not_blank q ->
   search_videos rt svc (PStr q) pageToken w
   = (Raise (mk_exn ValueError
               ("Unexpected error during video search: " +:+ key_required)), w))
  /\ (valid_ids ids -> valid_names parts ->
      get_videos rt svc (PList (List.map PStr ids)) (parts_argument parts) w
      = (Raise (mk_exn ValueError
                  ("Unexpected error during video retrieval: "
                     +:+ key_required)), w)).
Proof.
  intros Hkey. split.
  - intros Hq. rewrite (search_videos_checked q pageToken w Hq).
    rewrite try_bind_eval, (build_without_key w Hkey). reflexivity.
  - intros Hids Hparts. rewrite (get_videos_checked ids parts w Hids Hparts).
    rewrite try_bind_eval, (build_without_key w Hkey). reflexivity.
Qed.

(** ** Errors of the platform *)

(** The search request itself fails with [e]: the key is there, the client is
    built, the request raises. *)
Definition search_fails (q : string) (pageToken : pyval) (w : W) (e : exn)
    (w2 : W) : Prop :=
  exists key w1,
    YOUTUBE_API_KEY svc = Some key /\ key <> ""
    /\ build svc key w = (Return tt, w1)
    /\ search_list_execute svc (search_params q pageToken) w1 = (Raise e, w2).

Definition lookup_fails (ids : list string) (parts : option (list string))
    (w : W) (e : exn) (w2 : W) : Prop :=
  exists key w1,
    YOUTUBE_API_KEY svc = Some key /\ key <> ""
    /\ build svc key w = (Return tt, w1)
    /\ videos_list_execute svc (join "," (names_of parts)) (join "," ids) w1
       = (Raise e, w2).

(** How an [HttpError] [e] comes out as [r], by the shape of its
    [error_details]. *)
Definition translated (e : exn) (r : outcome pyval) : Prop :=
  (truthy (error_details e) = false ->
   r = Raise (mk_exn ValueError ("YouTube API error: " +:+ exn_str e)))
  /\ (forall d rest,
        error_details e = PList (PDict d :: rest) ->
        r = Raise (mk_exn ValueError
                     ("YouTube API error: "
                        +:+ py_str rt (match dict_get d "message" with
                                       | Some m => m
                                       | None => PStr (exn_str e)
                                       end))))
  /\ (forall c s,
        error_details e = PStr (String c s) ->
        r = Raise (mk_exn AttributeError
                     "'str' object has no attribute 'get'")).

Lemma http_error_translated activity e (w : W) :
  is_class HttpError e = true ->
  exists k,
    api_error_clauses rt activity e = Some k
    /\ translated e (fst (k w)) /\ snd (k w) = w.
Proof.
  intros He. unfold api_error_clauses. rewrite He. eexists. split; [reflexivity|].
  unfold bind, lift, value_error, raise. split.
  - unfold translated. repeat split.
    + intros Hf. now rewrite Hf.
    + intros d rest E. now rewrite E.
    + intros c s E. now rewrite E.
  - destruct (if truthy (error_details e) then _ else _) as [d|e1];
      [|reflexivity].
    destruct (py_get d "message" _); reflexivity.
Qed.

(** X3. An [HttpError] of the platform is translated by its [error_details]:
    without details the [ValueError] carries the text of the error; with a
    list whose first element is an object it carries that object's [message]
    (the text of the error when there is none); with a non-empty string as
    details no [ValueError] is produced and an [AttributeError] escapes. The
    same holds for the search and for the lookup. *)
Theorem http_error_translation (q : string) pageToken ids parts
    (w w2 : W) (e : exn) :
  is_class HttpError e = true ->
  (not_blank q -> search_fails q pageToken w e w2 ->
   translated e (fst (search_videos rt svc (PStr q) pageToken w))
   /\ snd (search_videos rt svc (PStr q) pageToken w) = w2)
  /\ (valid_ids ids -> valid_names parts -> lookup_fails ids parts w e w2 ->
      translated e (fst (get_videos rt svc (PList (List.map PStr ids))
                           (parts_argument parts) w))
      /\ snd (get_videos rt svc (PList (List.map PStr ids))
                 (parts_argument parts) w) = w2).
Proof.
  intros He. split.
  - intros Hq (key & w1 & Hk & Hne & Hb & Hr).
    rewrite (search_videos_checked q pageToken w Hq).
    rewrite try_bind_eval, (build_with_key key w Hk Hne), Hb.
    rewrite try_bind_eval, Hr.
    destruct (http_error_translated "video search" e w2 He) as (k & -> & H).
    exact H.
  - intros Hids Hparts (key & w1 & Hk & Hne & Hb & Hr).
    rewrite (get_videos_checked ids parts w Hids Hparts).
    rewrite try_bind_eval, (build_with_key key w Hk Hne), Hb.
    rewrite try_bind_eval, Hr.
    destruct (http_error_translated "video retrieval" e w2 He) as (k & -> & H).
    exact H.
Qed.

(** ** What the results look like *)

(** The error clauses of the two handlers never produce a result. *)
Lemma api_error_clauses_raise activity e k (Q : pyval -> Prop) :
  api_error_clauses rt activity e = Some k -> @ensures W _ k Q anything.
Proof.
  unfold api_error_clauses.
  destruct (is_class HttpError e); [intros [= <-]|].
  - apply (ensures_bind _ _ anything); [intros s; now destruct (fst _)|].
    intros d _. apply (ensures_bind _ _ anything);
      [intros s; now destruct (fst _)|].
    intros m _. now apply ensures_raise.
  - destruct (is_exception e); intros [= <-]. now apply ensures_raise.
Qed.

Lemma copy_token_keeps response key result :
  oensures (copy_token response key result)
    (fun result' => forall k, k <> key ->
                      dict_get result' k = dict_get result k)
    anything.
Proof.
  unfold copy_token.
  destruct (py_get response key PNone) as [tok|e]; [|exact I]. cbn [obind].
  destruct (truthy tok); [|now cbn].
  destruct (py_getitem response key) as [v|e]; [|exact I]. cbn.
  intros k Hk. apply dict_get_set_ne. congruence.
Qed.

(** A search result whose [resultsPerPage] is the number of its items. *)
Definition counted_search_result (v : pyval) : Prop :=
  exists result items page_info,
    v = PDict result
    /\ dict_get result "items" = Some (PList items)
    /\ dict_get result "pageInfo" = Some (PDict page_info)
    /\ dict_get page_info "resultsPerPage"
       = Some (PInt (Z.of_nat (List.length items))).

(** A lookup result whose two counts are the number of its items. *)
Definition counted_videos_result (v : pyval) : Prop :=
  exists items,
    v = PDict [("items", PList items);
               ("pageInfo",
                PDict [("totalResults", PInt (Z.of_nat (List.length items)));
                       ("resultsPerPage",
                        PInt (Z.of_nat (List.length items)))])].

Lemma search_result_counted response :
  oensures (search_result response) counted_search_result anything.
Proof.
  unfold search_result.
  apply (oensures_obind _ _ anything); [now destruct (py_getitem _ _)|].
  intros raw _.
  apply (oensures_obind _ _ anything); [now destruct (py_iter _)|].
  intros raw_items _.
  apply (oensures_obind _ _ anything); [now destruct (for_each _ _)|].
  intros items _.
  apply (oensures_obind _ _ anything); [now destruct (py_get _ _ _)|].
  intros page_info _.
  apply (oensures_obind _ _ anything); [now destruct (py_get _ _ _)|].
  intros total _.
  eapply oensures_obind; [apply copy_token_keeps|].
  intros r1 H1. eapply oensures_obind; [apply copy_token_keeps|].
  intros r2 H2. cbn.
  exists r2, items,
    [("totalResults", total);
     ("resultsPerPage", PInt (Z.of_nat (List.length items)))].
  split; [reflexivity|].
  rewrite !H2, !H1 by discriminate.
  split; [reflexivity|]. split; reflexivity.
Qed.

(** X4. Whenever a search returns, [pageInfo.resultsPerPage] of the result is
    the number of items in it; whenever a lookup returns, the result is made
    of [items] and a [pageInfo] whose [totalResults] and [resultsPerPage] are
    both the number of items. *)
Theorem results_count_their_items (query pageToken ids parts : pyval) :
  ensures (search_videos rt svc query pageToken) counted_search_result anything
  /\ ensures (get_videos rt svc ids parts) counted_videos_result anything.
Proof.
  split.
  - unfold search_videos.
    apply (ensures_bind _ _ anything); [intros s; now destruct (fst _)|].
    intros [|] _; [now apply ensures_raise|].
    apply (ensures_try _ _ _ anything); [|intros e _].
    + apply (ensures_bind _ _ anything); [intros s; now destruct (fst _)|].
      intros _ _.
      apply (ensures_bind _ _ anything); [intros s; now destruct (fst _)|].
      intros q _.
      apply (ensures_bind _ _ anything); [intros s; now destruct (fst _)|].
      intros response _. apply ensures_lift. apply search_result_counted.
    + destruct (api_error_clauses rt "video search" e) as [k|] eqn:E;
        [|exact I].
      now apply (api_error_clauses_raise "video search" e).
  - unfold get_videos.
    destruct (negb (truthy ids)); [now apply ensures_raise|].
    apply (ensures_bind _ _ anything); [intros s; now destruct (fst _)|].
    intros n _. destruct (50 <? n); [now apply ensures_raise|].
    apply (ensures_bind _ _ anything); [intros s; now destruct (fst _)|].
    intros members _.
    destruct (existsb bad_video_id members); [now apply ensures_raise|].
    apply (ensures_bind _ _ anything); [intros s; now destruct (fst _)|].
    intros invalid _.
    destruct (truthy (PList invalid)); [now apply ensures_raise|].
    apply (ensures_try _ _ _ anything); [|intros e _].
    + apply (ensures_bind _ _ anything); [intros s; now destruct (fst _)|].
      intros _ _.
      apply (ensures_bind _ _ anything); [intros s; now destruct (fst _)|].
      intros part _.
      apply (ensures_bind _ _ anything); [intros s; now destruct (fst _)|].
      intros id _.
      apply (ensures_bind _ _ anything); [intros s; now destruct (fst _)|].
      intros response _. apply ensures_lift.
      apply (oensures_obind _ _ anything); [now destruct (py_getitem _ _)|].
      intros raw _.
      apply (oensures_obind _ _ anything); [now destruct (py_iter _)|].
      intros videos _.
      apply (oensures_obind _ _ anything); [now destruct (for_each _ _)|].
      intros items _. cbn. now exists items.
    + destruct (api_error_clauses rt "video retrieval" e) as [k|] eqn:E;
        [|exact I].
      now apply (api_error_clauses_raise "video retrieval" e).
Qed.

(** ** The items of a lookup *)

(** The lookup request is answered with [response]. *)
Definition lookup_answers (ids : list string) (parts : option (list string))
    (w : W) (response : pyval) (w2 : W) : Prop :=
  exists key w1,
    YOUTUBE_API_KEY svc = Some key /\ key <> ""
    /\ build svc key w = (Return tt, w1)
    /\ videos_list_execute svc (join "," (names_of parts)) (join "," ids) w1
       = (Return response, w2).

Lemma get_videos_answered ids parts w response w2 v :
  valid_ids ids -> valid_names parts ->
  lookup_answers ids parts w response w2 ->
  videos_result (names_of parts) response = Return v ->
  get_videos rt svc (PList (List.map PStr ids)) (parts_argument parts) w
  = (Return v, w2).
Proof.
  intros Hids Hparts (key & w1 & Hk & Hne & Hb & Hr) Hv.
  rewrite (get_videos_checked ids parts w Hids Hparts).
  rewrite try_bind_eval, (build_with_key key w Hk Hne), Hb.
  rewrite try_bind_eval, Hr. unfold try_except, lift. now rewrite Hv.
Qed.

Lemma contains_part names :
  py_contains "contentDetails" (PList (List.map PStr names))
  = Return (existsb (String.eqb "contentDetails") names).
Proof.
  cbn [py_contains]. f_equal. induction names as [|n names IH]; [reflexivity|].
  cbn [List.map existsb]. rewrite IH. now rewrite (String.eqb_sym n).
Qed.

Lemma part_not_wanted names :
  ~ In "contentDetails" names ->
  existsb (String.eqb "contentDetails") names = false.
Proof.
  intros H. apply not_true_is_false. intros E.
  apply existsb_exists in E as (n & Hn & E).
  apply String.eqb_eq in E. now subst.
Qed.

Lemma part_wanted names :
  In "contentDetails" names ->
  existsb (String.eqb "contentDetails") names = true.
Proof.
  intros H. apply existsb_exists. eexists. split; [exact H|].
  apply String.eqb_refl.
Qed.

Definition counts (items : list pyval) : pyval :=
  PDict [("totalResults", PInt (Z.of_nat (List.length items)));
         ("resultsPerPage", PInt (Z.of_nat (List.length items)))].

(** X5. A lookup that does not ask for [contentDetails] (the default asks
    for [snippet] only) hands the videos of the response over untouched, in
    their order, with the two counts set to their number. *)
Theorem videos_pass_through ids parts (w w2 : W) response videos :
  valid_ids ids -> valid_names parts ->
  ~ In "contentDetails" (names_of parts) ->
  lookup_answers ids parts w response w2 ->
  py_getitem response "items" = Return (PList videos) ->
  get_videos rt svc (PList (List.map PStr ids)) (parts_argument parts) w
  = (Return (PDict [("items", PList videos); ("pageInfo", counts videos)]), w2).
Proof.
  intros Hids Hparts Hno Hans Hitems.
  apply (get_videos_answered ids parts w response w2); [assumption..|].
  unfold videos_result. rewrite Hitems. cbn [obind py_iter].
  rewrite for_each_id; [reflexivity|].
  intros video _. unfold add_duration_seconds.
  now rewrite contains_part, (part_not_wanted _ Hno).
Qed.

(** The video's [contentDetails] and the text of its [duration], when it has
    both. *)
Definition duration_of (d : list (string * pyval))
    : option (list (string * pyval) * string) :=
  match dict_get d "contentDetails" with
  | Some (PDict c) =>
      match dict_get c "duration" with
      | Some (PStr s) => Some (c, s)
      | _ => None
      end
  | _ => None
  end.

(** A video as the platform documents it: an object whose [contentDetails],
    if any, is an object whose [duration], if any, is a string, here of at
    most 4300 characters, so that no component is beyond what [int]
    accepts. *)
Definition well_shaped (video : pyval) : Prop :=
  exists d,
    video = PDict d
    /\ match dict_get d "contentDetails" with
       | None => True
       | Some cd =>
           exists c, cd = PDict c
             /\ match dict_get c "duration" with
                | None => True
                | Some x =>
                    exists s, x = PStr s
                      /\ (String.length s <= int_max_str_digits)%nat
                end
       end.

(** [item] is [video] with [durationSeconds] set beside [duration], when
    there is a duration, and [video] itself otherwise. *)
Definition with_duration_seconds (video item : pyval) : Prop :=
  exists d,
    video = PDict d
    /\ match duration_of d with
       | None => item = video
       | Some (c, s) =>
           exists n d' c',
             item = PDict d'
             /\ parse_duration (PStr s) = Return n /\ 0 <= n
             /\ (forall k, k <> "contentDetails" -> dict_get d' k = dict_get d k)
             /\ dict_get d' "contentDetails" = Some (PDict c')
             /\ dict_get c' "durationSeconds" = Some (PInt n)
             /\ (forall k, k <> "durationSeconds" ->
                           dict_get c' k = dict_get c k)
       end.

Lemma add_duration_seconds_shaped names video :
  In "contentDetails" names -> well_shaped video ->
  exists item,
    add_duration_seconds (PList (List.map PStr names)) video = Return item
    /\ with_duration_seconds video item.
Proof.
  intros Hin (d & -> & Hd). unfold add_duration_seconds, with_duration_seconds.
  rewrite contains_part, (part_wanted _ Hin). cbn [obind py_contains].
  unfold duration_of.
  destruct (dict_get d "contentDetails") as [cd|] eqn:Ecd; cbn [obind].
  2:{ exists (PDict d). split; [reflexivity|]. exists d. now rewrite Ecd. }
  destruct Hd as (c & -> & Hc). cbn [py_getitem]. rewrite Ecd. cbn [obind py_contains].
  destruct (dict_get c "duration") as [x|] eqn:Ex; cbn [obind].
  2:{ exists (PDict d). split; [reflexivity|]. exists d. now rewrite Ecd, Ex. }
  destruct Hc as (s & -> & Hlen). cbn [py_getitem]. rewrite Ex. cbn [obind].
  destruct (parse_duration_short s Hlen) as (n & Hn & Hpos).
  rewrite Hn. cbn [obind py_setitem].
  eexists. split; [reflexivity|]. exists d. split; [reflexivity|].
  rewrite Ecd, Ex. exists n. eexists. eexists. split; [reflexivity|].
  split; [exact Hn|]. split; [exact Hpos|].
  split; [intros k Hk; apply dict_get_set_ne; congruence|].
  split; [apply dict_get_set_eq|].
  split; [apply dict_get_set_eq|].
  intros k Hk. apply dict_get_set_ne. congruence.
Qed.

Lemma for_each_related {A B} (f : A -> outcome B) (R : A -> B -> Prop) l :
  (forall x, In x l -> exists y, f x = Return y /\ R x y) ->
  exists ys, for_each f l = Return ys /\ Forall2 R l ys.
Proof.
  induction l as [|x l IH]; intros H.
  - exists []. split; [reflexivity | constructor].
  - destruct (H x (or_introl eq_refl)) as (y & Hy & Rxy).
    destruct IH as (ys & Hys & Rys); [intros z Hz; apply H; now right|].
    exists (y :: ys). split; [|now constructor].
    cbn [for_each]. now rewrite Hy, Hys.
Qed.

(** X6. A lookup that asks for [contentDetails] returns, for each video of
    the response and in the same order, that video with [durationSeconds] set
    to the parsed [duration] (a non-negative integer) inside its
    [contentDetails]; every other key of the video and of its
    [contentDetails] is kept, and a video without a duration is returned as
    it is. *)
Theorem videos_get_duration_seconds ids parts (w w2 : W) response videos :
  valid_ids ids -> valid_names parts ->
  In "contentDetails" (names_of parts) ->
  lookup_answers ids parts w response w2 ->
  py_getitem response "items" = Return (PList videos) ->
  Forall well_shaped videos ->
  exists items,
    get_videos rt svc (PList (List.map PStr ids)) (parts_argument parts) w
    = (Return (PDict [("items", PList items); ("pageInfo", counts items)]), w2)
    /\ Forall2 with_duration_seconds videos items.
Proof.
  intros Hids Hparts Hin Hans Hitems Hshape.
  destruct (for_each_related
              (add_duration_seconds (PList (List.map PStr (names_of parts))))
              with_duration_seconds videos) as (items & Hfor & Hrel).
  { intros video Hv. apply add_duration_seconds_shaped; [exact Hin|].
    rewrite Forall_forall in Hshape. apply Hshape.
    now apply list_elem_of_In. }
  exists items. split; [|exact Hrel].
  apply (get_videos_answered ids parts w response w2); [assumption..|].
  unfold videos_result. rewrite Hitems. cbn [obind py_iter].
  now rewrite Hfor.
Qed.

(** ** get_transcript *)

(** An exception that an [except Exception] clause lets through. *)
Definition passes_except_exception (e : exn) : Prop := is_exception e = false.

(** X8. For a string [videoId], whatever the language argument and whatever
    the transcript source does, [get_transcript] either returns one of its
    two results for the stripped video id (the "not available" result, or a
    transcript with its language) or raises; what it raises is a
    [ValueError], or an exception that is not an [Exception]
    ([KeyboardInterrupt], [SystemExit], [GeneratorExit], [CancelledError]),
    which passes the [except] clauses as it is. *)
Theorem get_transcript_answers (videoId : string) (language : pyval) :
  ensures (get_transcript svc (PStr videoId) language)
    (fun v => v = no_transcript (strip videoId)
              \/ exists data code,
                   v = transcript_result (strip videoId) data code)
    (fun e => is_value_error e \/ passes_except_exception e).
Proof.
  unfold get_transcript.
  apply (ensures_bind _ _ anything).
  { intros s. unfold lift. rewrite blank_string. exact I. }
  intros [|] _; [apply ensures_raise; now left|].
  apply (ensures_bind _ _ (fun v => v = strip videoId)).
  { intros s. reflexivity. }
  intros video_id ->.
  apply (ensures_try _ _ _ anything).
  - apply (ensures_bind _ _ anything); [intros s; now destruct (fst _)|].
    intros tl _.
    apply (ensures_bind _ _ anything); [intros s; now destruct (fst _)|].
    intros [[t code]|] _.
    + apply (ensures_bind _ _ anything); [intros s; now destruct (fst _)|].
      intros data _. apply ensures_ret. right. eauto.
    + apply ensures_ret. now left.
  - intros e _. unfold transcript_error_clauses.
    destruct (is_class TranscriptsDisabled e); [apply ensures_ret; now left|].
    destruct (is_class NoTranscriptFound e); [apply ensures_ret; now left|].
    destruct (is_class VideoUnavailable e); [apply ensures_raise; now left|].
    destruct (is_exception e) eqn:E; [apply ensures_raise; now left|].
    now right.
Qed.

(** X21. A [videoId] that is absent, empty or made of whitespace only is
    refused with a [ValueError] before the transcript source is asked
    anything: the world is untouched. *)
Theorem get_transcript_rejects_blank_video_id (videoId language : pyval)
    (w : W) :
  videoId = PNone \/ (exists s, videoId = PStr s /\ strip s = "") ->
  get_transcript svc videoId language w
  = (Raise (mk_exn ValueError
              "videoId parameter is required and cannot be empty"), w).
Proof.
  intros [->|(s & -> & Hs)]; unfold get_transcript; rewrite bind_eval;
    unfold lift at 1; [reflexivity|].
  now rewrite blank_string, Hs.
Qed.

End WithWorld.
End HandlersMore.

(* ===================================================================== *)
(** * More on the server                                                  *)
(* ===================================================================== *)

Module ServerMore.
Import Py Handlers Tools Server.
Import PyFacts MonadFacts ToolsFacts ServerFacts RegistryFacts HandlersMore.

Section Dispatch.
Context {W : Type}.
Implicit Types (T : gmap string (tool_function W)) (st : state W).

Definition error_line (name : string) (e : exn) : string :=
  "Error calling tool " +:+ name +:+ ": " +:+ exn_str e.

(** The tool function registered under [name] raises [e] when called. *)
Definition raised_by T name (arguments : option kwargs) st (e : exn) : Prop :=
  exists f, T !! name = Some f
            /\ fst (f (given arguments) (world st)) = Raise e.

(** X9. What leaves [handle_call_tool] as an exception is one of three: the
    [ValueError] "Unknown tool: ..." for a name outside the table, with the
    state as it was; the [ValueError] "Tool execution error: ..." around the
    text of an [Exception] that the tool function raised, in which case
    exactly one line is added to the log; or an exception of the tool
    function that is not an [Exception] ([KeyboardInterrupt], [SystemExit],
    [GeneratorExit], [CancelledError]), which the [except Exception] clause
    lets through as it is, without a log line. A call that returns leaves the
    log as it was. *)
Theorem handle_call_tool_outcomes T name arguments st :
  match handle_call_tool T name arguments st with
  | (Return v, st') => is_Some (T !! name) /\ log st' = log st
  | (Raise e, st') =>
      (T !! name = None
       /\ e = mk_exn ValueError ("Unknown tool: " +:+ name) /\ st' = st)
      \/ (exists e0,
            raised_by T name arguments st e0 /\ is_exception e0 = true
            /\ e = mk_exn ValueError
                     ("Tool execution error: " +:+ exn_str e0)
            /\ log st' = (log st ++ [error_line name e0])%list)
      \/ (raised_by T name arguments st e
          /\ passes_except_exception e /\ log st' = log st)
  end.
Proof.
  destruct (T !! name) as [f|] eqn:HT.
  - rewrite (handle_call_tool_registered T name f arguments st HT).
    assert (Hraised : forall e w,
              f (given arguments) (world st) = (Raise e, w) ->
              raised_by T name arguments st e).
    { intros e w Hf. exists f. split; [exact HT | now rewrite Hf]. }
    unfold passed_on.
    destruct (f (given arguments) (world st)) as [[v|e] w] eqn:Hf; cbn [log].
    + split; [now exists f | reflexivity].
    + specialize (Hraised e w eq_refl).
      destruct (is_exception e) eqn:He; cbn [log].
      * right. left. exists e. repeat split; assumption.
      * right. right. repeat split; assumption.
  - unfold handle_call_tool. rewrite HT. left. repeat split.
Qed.

(** The names of the two parameters of a handler. *)
Definition parameters (name : string) : string * string :=
  if String.eqb name "search_videos" then ("query", "pageToken")
  else if String.eqb name "get_videos" then ("ids", "parts")
  else ("videoId", "language").

(** The keyword arguments fit the signature: no other keyword, and the
    required one is there. *)
Definition fits (name : string) (a : kwargs) : Prop :=
  (forall k, In k (List.map fst a) ->
             k = fst (parameters name) \/ k = snd (parameters name))
  /\ kwargs_get a (fst (parameters name)) <> None.

Lemma bind_parameters_misfit f required optional (a : kwargs) :
  ~ ((forall k, In k (List.map fst a) -> k = required \/ k = optional)
     /\ kwargs_get a required <> None) ->
  exists msg, bind_parameters f required optional a
              = Raise (mk_exn TypeError msg).
Proof.
  intros H. unfold bind_parameters.
  destruct (List.find _ a) as [[k v]|] eqn:E; [eexists; reflexivity|].
  destruct (kwargs_get a required) eqn:G; [|eexists; reflexivity].
  exfalso. apply H. split; [|discriminate].
  intros k Hk. apply in_map_iff in Hk as ((k' & v) & <- & Hin).
  pose proof (List.find_none _ _ E _ Hin) as Hn. cbn [fst] in *.
  apply negb_false_iff, orb_true_iff in Hn as [Hn|Hn];
    apply String.eqb_eq in Hn; auto.
Qed.

Lemma lookup_handler rt (svc : services W) name f :
  TOOL_FUNCTIONS rt svc !! name = Some f ->
  exists body : pyval -> pyval -> M W pyval,
    f = fun arguments =>
          bind (lift (bind_parameters name (fst (parameters name))
                        (snd (parameters name)) arguments))
               (fun p => body (fst p) (snd p)).
Proof.
  unfold TOOL_FUNCTIONS. intros H.
  apply lookup_insert_Some in H as [[<- <-]|[_ H]].
  { exists (search_videos rt svc). reflexivity. }
  apply lookup_insert_Some in H as [[<- <-]|[_ H]].
  { exists (get_videos rt svc). reflexivity. }
  apply lookup_singleton_Some in H as [<- <-].
  exists (fun v l => get_transcript svc v l). reflexivity.
Qed.

(** X10. With the table of handlers.py, keyword arguments that do not fit
    the signature of the named handler (a keyword it does not have, or its
    required parameter missing) are answered with a "Tool execution error"
    and the world is untouched: the body of the handler has not run. This is
    so in particular when the arguments are omitted. *)
Theorem misfit_arguments_stop_at_the_call rt (svc : services W) name
    (arguments : option kwargs) st :
  In name handler_names ->
  ~ fits name (given arguments) ->
  exists msg,
    handle_call_tool (TOOL_FUNCTIONS rt svc) name arguments st
    = (Raise (mk_exn ValueError ("Tool execution error: " +:+ msg)),
       {| world := world st;
          log := (log st ++ ["Error calling tool " +:+ name +:+ ": " +:+ msg])%list |}).
Proof.
  intros Hname Hfit.
  apply (dom_TOOL_FUNCTIONS rt svc) in Hname.
  apply elem_of_dom in Hname as [f Hf].
  rewrite (handle_call_tool_registered _ name f arguments st Hf).
  destruct (lookup_handler rt svc name f Hf) as (body & ->).
  destruct (bind_parameters_misfit name _ _ (given arguments) Hfit) as (msg & E).
  exists msg. unfold passed_on. rewrite bind_eval. unfold lift. now rewrite E.
Qed.

End Dispatch.

(** ** Loading *)

(** X11. Unless the packaged copy of [tools.json] does not exist, it alone
    decides what is loaded: the copy in the working directory is not read,
    so it cannot repair a packaged copy that does not parse. *)
Theorem packaged_copy_decides (env env' : environment) log :
  (forall e, read_json env (primary env) = Raise e ->
             is_class FileNotFoundError e = false) ->
  package_dir env' = package_dir env ->
  read_json env' (primary env) = read_json env (primary env) ->
  load_tool_schemas env' log = load_tool_schemas env log.
Proof.
  intros Hfound Hdir Hread.
  assert (Hp : primary env' = primary env)
    by (unfold primary, _package_path; now rewrite Hdir).
  unfold load_tool_schemas, load_from.
  fold (primary env) (primary env'). rewrite Hp, Hread.
  destruct (read_json env (primary env)) as [doc|e] eqn:E; [reflexivity|].
  now rewrite (Hfound e eq_refl).
Qed.

(** ** Documents that parse but lack a key *)

Definition step (acc : outcome keyed) (tool : pyval) : outcome keyed :=
  obind acc (fun d =>
    obind (py_getitem tool "name") (fun name =>
      if hashable name then Return (keyed_set d name tool)
      else Raise (mk_exn TypeError
                    ("unhashable type: '" +:+ type_name name +:+ "'")))).

Lemma tools_by_name_fold doc tools :
  dict_get doc "tools" = Some (PList tools) ->
  tools_by_name (PDict doc) = List.fold_left step tools (Return []).
Proof.
  intros H. unfold tools_by_name. cbn [py_getitem]. rewrite H. reflexivity.
Qed.

Lemma fold_step_raise tools e :
  List.fold_left step tools (Raise e) = Raise e.
Proof. induction tools as [|t tools IH]; [reflexivity | exact IH]. Qed.

Lemma fold_step_app pre post acc :
  List.fold_left step (pre ++ post)%list acc
  = List.fold_left step post (List.fold_left step pre acc).
Proof. apply fold_left_app. Qed.

Lemma fold_step_named tools names :
  Forall2 named tools names ->
  forall d0, exists reg, List.fold_left step tools (Return d0) = Return reg.
Proof.
  induction 1 as [|tool name tools names (d & -> & Hn) _ IH]; intros d0.
  - now exists d0.
  - cbn [List.fold_left]. unfold step at 2. cbn [obind py_getitem].
    rewrite Hn. cbn [obind hashable]. apply IH.
Qed.

(** X12. A document that parses but has no [tools] member, or in which a
    tool has no [name], is not answered with the empty registry: the
    [KeyError] leaves [load_tool_schemas], nothing is logged. *)
Theorem load_fails_on_missing_key env log doc :
  loaded_document env (PDict doc) ->
  (dict_get doc "tools" = None ->
   load_tool_schemas env log = (Raise (mk_exn KeyError "'tools'"), log))
  /\ (forall before names d after,
        dict_get doc "tools" = Some (PList (before ++ PDict d :: after)) ->
        Forall2 named before names ->
        dict_get d "name" = None ->
        load_tool_schemas env log = (Raise (mk_exn KeyError "'name'"), log)).
Proof.
  intros Hdoc. rewrite (load_document env log _ Hdoc). split.
  - intros H. unfold tools_by_name. cbn [py_getitem]. now rewrite H.
  - intros before names d after Htools Hnamed Hd.
    rewrite (tools_by_name_fold doc _ Htools), fold_step_app.
    destruct (fold_step_named before names Hnamed []) as (reg & ->).
    cbn [List.fold_left]. unfold step at 2. cbn [obind py_getitem].
    rewrite Hd. cbn [obind]. now rewrite fold_step_raise.
Qed.

(** ** The registry as a dictionary *)

Lemma key_eqb_refl_string n : key_eqb (PStr n) (PStr n) = true.
Proof. apply String.eqb_refl. Qed.

Lemma keyed_get_set_eq d n v :
  keyed_get (keyed_set d (PStr n) v) (PStr n) = Some v.
Proof.
  induction d as [|[k' v'] d IH]; cbn [keyed_set keyed_get].
  - now rewrite key_eqb_refl_string.
  - destruct (key_eqb k' (PStr n)) eqn:E; cbn [keyed_get]; rewrite E;
      [reflexivity | exact IH].
Qed.

Lemma keyed_get_set_ne d n m v :
  n <> m -> keyed_get (keyed_set d (PStr n) v) (PStr m) = keyed_get d (PStr m).
Proof.
  intros Hne. induction d as [|[k' v'] d IH]; cbn [keyed_set keyed_get].
  - cbn [key_eqb]. now apply String.eqb_neq in Hne as ->.
  - destruct (key_eqb k' (PStr n)) eqn:E; cbn [keyed_get].
    + apply key_eqb_string in E. subst k'. cbn [key_eqb].
      now apply String.eqb_neq in Hne as ->.
    + destruct (key_eqb k' (PStr m)); [reflexivity | exact IH].
Qed.

Lemma keyed_set_nodup d n v :
  List.NoDup (schema_names d) -> List.NoDup (schema_names (keyed_set d (PStr n) v)).
Proof.
  unfold schema_names. induction d as [|[k' v'] d IH]; cbn [keyed_set List.map fst].
  - intros _. constructor; [intros [] | constructor].
  - intros Hnd. apply List.NoDup_cons_iff in Hnd as [Hk Hnd].
    destruct (key_eqb k' (PStr n)) eqn:E; cbn [List.map fst].
    + apply List.NoDup_cons_iff. now split.
    + apply List.NoDup_cons_iff. split; [|now apply IH].
      intros Hin. apply (keyed_set_names d n v k') in Hin as [Hin| ->].
      * now apply Hk.
      * rewrite key_eqb_refl_string in E. discriminate.
Qed.

(** The tool declared last under [n]. *)
Fixpoint last_named (n : string) (tools : list pyval) (names : list string)
    (found : option pyval) : option pyval :=
  match tools, names with
  | tool :: tools', name :: names' =>
      last_named n tools' names'
        (if String.eqb name n then Some tool else found)
  | _, _ => found
  end.

Lemma fold_step_lookup tools names :
  Forall2 named tools names ->
  forall d0, List.NoDup (schema_names d0) ->
    exists reg,
      List.fold_left step tools (Return d0) = Return reg
      /\ List.NoDup (schema_names reg)
      /\ forall n, keyed_get reg (PStr n)
                   = last_named n tools names (keyed_get d0 (PStr n)).
Proof.
  induction 1 as [|tool name tools names (d & -> & Hn) _ IH]; intros d0 Hnd.
  - exists d0. repeat split; assumption.
  - cbn [List.fold_left]. unfold step at 2. cbn [obind py_getitem].
    rewrite Hn. cbn [obind hashable].
    destruct (IH (keyed_set d0 (PStr name) (PDict d))
                 (keyed_set_nodup d0 name _ Hnd)) as (reg & -> & Hreg & Hget).
    exists reg. split; [reflexivity|]. split; [exact Hreg|].
    intros n. rewrite Hget. cbn [last_named].
    destruct (String.eqb_spec name n) as [->|Hne].
    + now rewrite keyed_get_set_eq.
    + now rewrite keyed_get_set_ne.
Qed.

(** X13. When the document declares its tools as objects with string names,
    the loaded registry holds each declared name once and maps it to the tool
    declared last under that name. *)
Theorem registry_holds_last_declaration env log doc tools names :
  loaded_document env (PDict doc) ->
  dict_get doc "tools" = Some (PList tools) ->
  Forall2 named tools names ->
  exists reg,
    load_tool_schemas env log = (Return reg, log)
    /\ List.NoDup (schema_names reg)
    /\ forall n, keyed_get reg (PStr n) = last_named n tools names None.
Proof.
  intros Hdoc Htools Hnamed.
  rewrite (load_document env log _ Hdoc), (tools_by_name_fold doc _ Htools).
  destruct (fold_step_lookup tools names Hnamed [] (List.NoDup_nil _))
    as (reg & -> & Hnd & Hget).
  exists reg. repeat split; assumption.
Qed.

(** ** Listing the tools *)

Section Listing.
Variable Tool : Type.
Variable make_Tool : pyval -> pyval -> pyval -> pyval -> outcome Tool.

Definition announce (item : pyval * pyval) : outcome Tool :=
  let (tool_name, tool_schema) := item in
  obind (py_getitem tool_schema "description") (fun description =>
  obind (py_getitem tool_schema "inputSchema") (fun inputSchema =>
  obind (py_getitem tool_schema "outputSchema") (fun outputSchema =>
  make_Tool tool_name description inputSchema outputSchema))).

Lemma handle_list_tools_for_each reg :
  handle_list_tools reg Tool make_Tool = for_each announce reg.
Proof. reflexivity. Qed.

(** X14. The tool list has one entry for each entry of the registry; and one
    registry entry without a [description], an [inputSchema] or an
    [outputSchema] is enough for the whole listing to fail: no partial list
    comes back. *)
Theorem listing_is_all_or_nothing (reg : keyed) :
  (forall tools, handle_list_tools reg Tool make_Tool = Return tools ->
                 List.length tools = List.length reg)
  /\ (forall name d field,
        In (name, PDict d) reg ->
        In field ["description"; "inputSchema"; "outputSchema"] ->
        dict_get d field = None ->
        exists e, handle_list_tools reg Tool make_Tool = Raise e).
Proof.
  rewrite handle_list_tools_for_each. split.
  - intros tools. apply for_each_length.
  - intros name d field Hin Hfield Hd.
    apply (for_each_fails announce reg (name, PDict d) Hin).
    unfold announce. cbn [py_getitem].
    destruct (dict_get d "description") eqn:E1; [|eexists; reflexivity].
    destruct (dict_get d "inputSchema") eqn:E2; [|eexists; reflexivity].
    destruct (dict_get d "outputSchema") eqn:E3; [|eexists; reflexivity].
    exfalso. destruct Hfield as [<-|[<-|[<-|[]]]]; congruence.
Qed.

End Listing.

End ServerMore.

(* ===================================================================== *)
(** * The test runner                                                     *)
(* ===================================================================== *)

Module TestServerFacts.
Import Py Handlers Tools Server TestServer.
Import PyFacts MonadFacts RegistryFacts HandlersMore ServerMore.
Local Open Scope py_scope.

(** ** The counters *)

(** A call of one of the two methods of [TestResults]. *)
Inductive call : Type :=
| Add_result (test_name success message duration : pyval)
| Add_skip (test_name reason : pyval).

Definition perform (rt : runtime) (self : TestResults) (c : call)
    : TestResults :=
  match c with
  | Add_result test_name success message duration =>
      add_result self test_name success message duration
  | Add_skip test_name reason => add_skip rt self test_name reason
  end.

(** Rows of [results] with the given verdict. *)
Definition rows_with (verdict : pyval -> bool) (rows : list pyval) : Z :=
  Z.of_nat (List.length
              (List.filter (fun row => match row with
                                       | PDict d =>
                                           match dict_get d "success" with
                                           | Some s => verdict s
                                           | None => false
                                           end
                                       | _ => false
                                       end) rows)).

Definition is_none (v : pyval) : bool :=
  match v with PNone => true | _ => false end.

Definition consistent (r : TestResults) : Prop :=
  total_tests r = Z.of_nat (List.length (results r))
  /\ total_tests r = passed_tests r + failed_tests r + skipped_tests r
  /\ passed_tests r = rows_with truthy (results r)
  /\ skipped_tests r <= rows_with is_none (results r).

Lemma rows_with_app verdict rows row :
  rows_with verdict (rows ++ [row])%list
  = rows_with verdict rows + rows_with verdict [row].
Proof.
  unfold rows_with. rewrite List.filter_app, List.length_app. lia.
Qed.

Lemma perform_consistent rt r c : consistent r -> consistent (perform rt r c).
Proof.
  intros (Hlen & Hsum & Hpass & Hskip). unfold consistent.
  destruct c as [test_name success message duration | test_name reason];
    cbn [perform add_result add_skip total_tests passed_tests failed_tests
         skipped_tests results];
    rewrite List.length_app, !rows_with_app; cbn [List.length].
  - assert (Hrow : forall verdict,
               rows_with verdict
                 [PDict [("test", test_name); ("success", success);
                         ("message", message); ("duration", duration)]]
               = if verdict success then 1 else 0).
    { intros verdict. unfold rows_with. cbn. now destruct (verdict success). }
    rewrite !Hrow. destruct (truthy success), (is_none success); lia.
  - unfold rows_with at 2 4. cbn. lia.
Qed.

(** X15. Whatever calls of [add_result] and [add_skip] are made on a fresh
    [TestResults], its counters agree with its rows: [total_tests] is the
    number of rows and the sum of the three other counters, [passed_tests]
    counts the rows whose [success] is true, and no more tests are counted
    as skipped than there are rows whose [success] is [None]. *)
Theorem counters_agree_with_rows rt (calls : list call) :
  consistent (List.fold_left (perform rt) calls new_TestResults).
Proof.
  assert (H0 : consistent new_TestResults).
  { unfold consistent, rows_with. cbn. lia. }
  revert H0. generalize new_TestResults.
  induction calls as [|c calls IH]; intros r Hr; [exact Hr|].
  cbn [List.fold_left]. apply IH. now apply perform_consistent.
Qed.

(** ** The structure check and the listing *)

Lemma for_each_raise {A B} (f : A -> outcome B) l e :
  for_each f l = Raise e -> exists x, In x l /\ f x = Raise e.
Proof.
  induction l as [|x l IH]; cbn [for_each]; [discriminate|].
  destruct (f x) as [y|e'] eqn:E; cbn [obind].
  - destruct (for_each f l) as [ys|e'']; cbn [obind]; [discriminate|].
    intros [= <-]. destruct (IH eq_refl) as (x' & Hin & Hx).
    exists x'. split; [now right | exact Hx].
  - intros [= <-]. exists x. split; [now left | exact E].
Qed.

Lemma for_each_return {A B} (f : A -> outcome B) l ys :
  for_each f l = Return ys -> Forall2 (fun x y => f x = Return y) l ys.
Proof.
  revert ys. induction l as [|x l IH]; cbn [for_each]; intros ys.
  - intros [= <-]. constructor.
  - destruct (f x) as [y|e] eqn:E; cbn [obind]; [|discriminate].
    destruct (for_each f l) as [ys'|e]; cbn [obind]; [|discriminate].
    intros [= <-]. constructor; [exact E | now apply IH].
Qed.

Lemma concat_nil {A} (ls : list (list A)) l :
  List.concat ls = [] -> In l ls -> l = [].
Proof.
  induction ls as [|l' ls IH]; cbn [List.concat]; [intros _ []|].
  intros H [->|Hin]; apply List.app_eq_nil in H as [H1 H2]; auto.
Qed.

Lemma unless_nil present issue : unless present issue = [] -> present = true.
Proof. now destruct present. Qed.

Definition listable (schema : pyval) : Prop :=
  exists d description inputSchema outputSchema,
    schema = PDict d
    /\ dict_get d "description" = Some description
    /\ dict_get d "inputSchema" = Some inputSchema
    /\ dict_get d "outputSchema" = Some outputSchema.

Lemma obind_return {A B} (o : outcome A) (k : A -> outcome B) y :
  obind o k = Return y -> exists x, o = Return x /\ k x = Return y.
Proof. destruct o as [x|e]; [now exists x | discriminate]. Qed.

Lemma schema_issues_none rt tool_name schema :
  schema_issues rt tool_name schema = Return [] -> listable schema.
Proof.
  unfold schema_issues, required_fields.
  destruct schema as [|b|z|f|s|l|d];
    cbn [for_each obind py_contains py_get]; try discriminate.
  intros H.
  apply obind_return in H as (input_issues & _ & H).
  apply obind_return in H as (output_issues & _ & H).
  injection H as H. apply List.app_eq_nil in H as [H _].
  cbn [List.concat] in H.
  apply List.app_eq_nil in H as [_ H].
  apply List.app_eq_nil in H as [H1 H].
  apply List.app_eq_nil in H as [H2 H].
  apply List.app_eq_nil in H as [H3 _].
  apply unless_nil in H1, H2, H3.
  destruct (dict_get d "description") as [description|] eqn:E1;
    [|discriminate].
  destruct (dict_get d "inputSchema") as [inputSchema|] eqn:E2;
    [|discriminate].
  destruct (dict_get d "outputSchema") as [outputSchema|] eqn:E3;
    [|discriminate].
  now exists d, description, inputSchema, outputSchema.
Qed.

Section Listing.
Variable Tool : Type.
Variable make_Tool : pyval -> pyval -> pyval -> pyval -> outcome Tool.

(** X16. A registry in which [validate_schema_structure] finds no issue can
    be listed as far as the server's own code goes: if [handle_list_tools]
    fails on it, the exception is one that the [Tool] constructor raised. *)
Theorem clean_structure_can_be_listed rt (reg : keyed) :
  validate_schema_structure rt reg = Return [] ->
  oensures (handle_list_tools reg Tool make_Tool) anything
    (fun e => exists name description inputSchema outputSchema,
                make_Tool name description inputSchema outputSchema = Raise e).
Proof.
  unfold validate_schema_structure.
  destruct (for_each _ reg) as [issues|e0] eqn:E; cbn [obind]; [|discriminate].
  intros [= Hnil]. apply for_each_return in E.
  rewrite (handle_list_tools_for_each Tool make_Tool reg).
  unfold oensures.
  destruct (for_each (announce Tool make_Tool) reg) as [tools|e] eqn:L;
    [exact I|].
  apply for_each_raise in L as ((name & schema) & Hin & Hraise).
  assert (Hclean : listable schema).
  { clear Hraise. induction E as [|[n s] is_ reg' issues' Hx _ IH].
    - destruct Hin.
    - cbn [List.concat] in Hnil. apply List.app_eq_nil in Hnil as [H1 H2].
      destruct Hin as [[= -> ->]|Hin].
      + cbn [fst snd] in Hx. subst is_.
        now apply (schema_issues_none rt name).
      + now apply IH. }
  destruct Hclean as (d & description & inputSchema & outputSchema
                        & -> & H1 & H2 & H3).
  exists name, description, inputSchema, outputSchema.
  rewrite <- Hraise. unfold announce. cbn [py_getitem].
  now rewrite H1, H2, H3.
Qed.

End Listing.

(** ** The two validations *)

Section Validators.
Variable rt : runtime.
Variable jsonschema_validate : pyval -> pyval -> validation.

(** The tool declared first under [n]; [None] when there is none. *)
Fixpoint first_named (n : string) (tools : list pyval) (names : list string)
    : pyval :=
  match tools, names with
  | tool :: tools', name :: names' =>
      if String.eqb name n then tool else first_named n tools' names'
  | _, _ => PNone
  end.

Lemma find_tool_named n tools names :
  Forall2 named tools names ->
  find_tool n tools = Return (first_named n tools names).
Proof.
  induction 1 as [|tool name tools names (d & -> & Hd) _ IH];
    cbn [find_tool first_named py_get obind]; [reflexivity|].
  rewrite Hd. destruct (String.eqb name n); [reflexivity | exact IH].
Qed.

Lemma first_named_declared n tools names :
  Forall2 named tools names -> In n names ->
  named (first_named n tools names) n.
Proof.
  induction 1 as [|tool name tools names Hn _ IH]; cbn [first_named];
    [intros []|].
  intros Hin. destruct (String.eqb_spec name n) as [<-|Hne]; [exact Hn|].
  apply IH. destruct Hin as [->|Hin]; [contradiction | exact Hin].
Qed.

Lemma first_named_undeclared n tools names :
  Forall2 named tools names -> ~ In n names ->
  first_named n tools names = PNone.
Proof.
  induction 1 as [|tool name tools names Hn _ IH]; cbn [first_named];
    [reflexivity|].
  intros Hin. destruct (String.eqb_spec name n) as [<-|Hne].
  - exfalso. apply Hin. now left.
  - apply IH. intros H. apply Hin. now right.
Qed.

(** X17. When the document declares its tools as objects with string names,
    [validate_output_schema] checks a result against the first tool declared
    under the name, whatever else the document declares (the registry of the
    server holds the last one); a name that is not declared has no schema. *)
Theorem output_checked_against_first_declaration n result doc tools names :
  dict_get doc "tools" = Some (PList tools) ->
  Forall2 named tools names ->
  (In n names ->
   validate_output_schema jsonschema_validate n result (PDict doc)
   = validate_output_schema jsonschema_validate n result
       (PDict (dict_set doc "tools" (PList [first_named n tools names]))))
  /\ (~ In n names ->
      validate_output_schema jsonschema_validate n result (PDict doc)
      = Return (false, "No schema found for tool " +:+ n)).
Proof.
  intros Htools Hnamed. unfold validate_output_schema, complete_schema.
  cbn [py_get]. rewrite Htools, dict_get_set_eq. cbn [obind py_iter].
  rewrite (find_tool_named n tools names Hnamed). split.
  - intros Hin.
    destruct (first_named_declared n tools names Hnamed Hin) as (d & E & Hd).
    rewrite E. cbn [find_tool py_get obind]. rewrite Hd, String.eqb_refl.
    cbn [obind]. rewrite dict_get_set_ne by discriminate. reflexivity.
  - intros Hin. rewrite (first_named_undeclared n tools names Hnamed Hin).
    reflexivity.
Qed.

(** What a verdict [True] of the two validations stands for. *)
Definition accepted_input (tool_name arguments : pyval) (schemas : keyed)
    : Prop :=
  exists tool_schema input_schema,
    keyed_get schemas tool_name = Some tool_schema
    /\ py_get tool_schema "inputSchema" PNone = Return input_schema
    /\ jsonschema_validate arguments input_schema = Conforms.

Definition accepted_output (tool_name : string) (result data : pyval) : Prop :=
  exists tools members tool_schema output_schema schema,
    py_get data "tools" (PList []) = Return tools
    /\ py_iter tools = Return members
    /\ find_tool tool_name members = Return tool_schema
    /\ py_get tool_schema "outputSchema" PNone = Return output_schema
    /\ complete_schema output_schema data = Return schema
    /\ jsonschema_validate result schema = Conforms.

Lemma input_accepted tool_name arguments schemas message :
  validate_input_schema rt jsonschema_validate tool_name arguments schemas
  = Return (true, message) ->
  accepted_input tool_name arguments schemas.
Proof.
  unfold validate_input_schema, keyed_contains.
  destruct (hashable tool_name); cbn [obind]; [|discriminate].
  destruct (keyed_get schemas tool_name) as [tool_schema|] eqn:K;
    cbn [negb obind]; [|intros [=]].
  destruct (py_get tool_schema "inputSchema" PNone) as [input_schema|e] eqn:G;
    cbn [obind]; [|discriminate].
  destruct (truthy input_schema); cbn [negb]; [|intros [=]].
  destruct (jsonschema_validate arguments input_schema) as [|m|e] eqn:V;
    [|intros [=] | destruct (is_exception e); intros [=]].
  intros _. now exists tool_schema, input_schema.
Qed.

Lemma output_accepted tool_name result data message :
  validate_output_schema jsonschema_validate tool_name result data
  = Return (true, message) ->
  accepted_output tool_name result data.
Proof.
  unfold validate_output_schema.
  destruct (py_get data "tools" (PList [])) as [tools|e] eqn:G1;
    cbn [obind]; [|discriminate].
  destruct (py_iter tools) as [members|e] eqn:G2; cbn [obind]; [|discriminate].
  destruct (find_tool tool_name members) as [tool_schema|e] eqn:G3;
    cbn [obind]; [|discriminate].
  destruct (truthy tool_schema); cbn [negb]; [|intros [=]].
  destruct (py_get tool_schema "outputSchema" PNone) as [output_schema|e] eqn:G4;
    cbn [obind]; [|discriminate].
  destruct (truthy output_schema); cbn [negb]; [|intros [=]].
  destruct (complete_schema output_schema data) as [schema|e] eqn:G5;
    cbn [obind]; [|destruct (is_exception e); intros [=]].
  destruct (jsonschema_validate result schema) as [|m|e] eqn:V;
    [|intros [=] | destruct (is_exception e); intros [=]].
  intros _. now exists tools, members, tool_schema, output_schema, schema.
Qed.

(** ** One test case *)

Section Run.
Context {W : Type}.
Variable time_time : W -> float * W.
Variable env : environment.
Variable T : gmap string (tool_function W).

Local Abbreviation run_tool_test :=
  (TestServer.run_tool_test rt jsonschema_validate time_time env T).

(** X18. A run whose test case is an object comes back with a verdict
    whenever what is raised on the way (by the validations, by the lookup of
    the tool, by the tool function, by reading [tools.json]) is an
    [Exception]: each is turned into a verdict. The one thing that can leave
    the run as an exception is what is not an [Exception]
    ([KeyboardInterrupt], [SystemExit], [GeneratorExit], [CancelledError]),
    which the [except Exception] clause lets through. *)
Theorem run_tool_test_gives_a_verdict tool_name arguments test_case schemas :
  (exists d, test_case = PDict d) ->
  ensures (run_tool_test tool_name arguments test_case schemas)
    anything passes_except_exception.
Proof.
  intros (d & ->) w. unfold TestServer.run_tool_test.
  destruct (time_time w) as [start_time w1]. unfold try_except.
  destruct (attempt _ _ _ _ _ _ _ _ _ _ _) as [[[[success message] duration]|e] fr].
  - exact I.
  - destruct (is_exception e) eqn:He; [|exact He].
    unfold on_exception, bind, now, lift, should_succeed.
    cbn [py_get obind]. destruct (time_time (outside fr)) as [t w2].
    destruct (truthy _); exact I.
Qed.

(** The call proper: the lookup of the tool, the unpacking of the
    arguments, the tool function. *)
Definition invoke (tool_name arguments : pyval) : M W pyval :=
  let* tool := lift (tool_named rt T tool_name) in
  let* keywords := lift (keyword_arguments arguments) in
  snd tool keywords.

(** [validation_results] once the verdict on the input is recorded. *)
Definition input_recorded (verdict : bool * string) : list (string * pyval) :=
  [("input_validation",
    PDict [("valid", PBool (fst verdict)); ("message", PStr (snd verdict))]);
   ("output_validation", PNone)].

(** X19. A test case marked [should_succeed: false] passes exactly when the
    call raises an [Exception], be it the lookup of an unknown tool,
    arguments that are no object, or the tool function; the verdict on its
    input is recorded and has no other effect, and the result of a call that
    returns is not examined. An exception of the call that is not an
    [Exception] leaves the run as it is. *)
Theorem negative_test_passes_on_any_exception
    tool_name arguments test_case schemas verdict w :
  should_succeed test_case = Return false ->
  validate_input_schema rt jsonschema_validate tool_name arguments schemas
  = Return verdict ->
  run_tool_test tool_name arguments test_case schemas w
  = let (start_time, w1) := time_time w in
    let (r, w2) := invoke tool_name arguments w1 in
    match r with
    | Return result =>
        let (t, w3) := time_time w2 in
        (Return (false,
                 "Expected failure but got result: " +:+ type_name result,
                 PrimFloat.sub t start_time,
                 input_recorded verdict),
         w3)
    | Raise e =>
        if is_exception e then
          let (t, w3) := time_time w2 in
          (Return (true, "Expected error: " +:+ exn_str e,
                   PrimFloat.sub t start_time,
                   input_recorded verdict),
           w3)
        else (Raise e, w2)
    end.
Proof.
  intros Hneg Hin. unfold TestServer.run_tool_test, invoke.
  destruct (time_time w) as [start_time w1].
  unfold try_except, attempt, on_exception, bind, lift, record_validation,
    ret, now, in_frame.
  rewrite Hin, Hneg. cbn [outside validation_results dict_set String.eqb
                          Ascii.eqb Bool.eqb].
  unfold input_recorded. destruct verdict as [valid message]. cbn [fst snd].
  destruct valid; cbn [outside validation_results];
    (destruct (tool_named rt T tool_name) as [[n f]|e1];
     cbn [outside validation_results snd];
     [ destruct (keyword_arguments arguments) as [keywords|e2];
       cbn [outside validation_results snd];
       [ destruct (f keywords w1) as [[result|e3] w2];
         cbn [outside validation_results snd];
         [ destruct (time_time w2) as [t w3]; reflexivity
         | destruct (is_exception e3); cbn [outside validation_results];
           [destruct (time_time w2) as [t w3]|]; reflexivity ]
       | destruct (is_exception e2); cbn [outside validation_results];
         [destruct (time_time w1) as [t w3]|]; reflexivity ]
     | destruct (is_exception e1); cbn [outside validation_results];
       [destruct (time_time w1) as [t w3]|]; reflexivity ]).
Qed.

(** X20. A test case that is expected to succeed passes only if the
    arguments were accepted against the input schema of the tool, the tool
    function was called with them and returned something other than [None],
    and that result was accepted against the output schema read from
    [youtube_mcp_server/tools.json]. *)
Theorem passed_test_was_validated
    tool_name arguments test_case schemas w message duration results w' :
  should_succeed test_case = Return true ->
  run_tool_test tool_name arguments test_case schemas w
  = (Return (true, message, duration, results), w') ->
  exists n keywords f result w1 w2 data,
    tool_name = PStr n /\ arguments = PDict keywords
    /\ T !! n = Some f
    /\ accepted_input tool_name arguments schemas
    /\ w1 = snd (time_time w)
    /\ f keywords w1 = (Return result, w2)
    /\ result <> PNone
    /\ read_json env "youtube_mcp_server/tools.json" = Return data
    /\ accepted_output n result data.
Proof.
  intros Hpos Hrun. unfold TestServer.run_tool_test in Hrun.
  destruct (time_time w) as [start_time w0] eqn:T0.
  unfold try_except, attempt, on_exception, bind, lift, record_validation,
    ret, now, in_frame in Hrun.
  rewrite Hpos in Hrun. cbn [outside validation_results] in Hrun.
  destruct (validate_input_schema rt jsonschema_validate tool_name arguments
              schemas) as [[valid input_message]|e0] eqn:V;
    cbn [fst snd outside validation_results] in Hrun.
  2:{ destruct (is_exception e0); cbn [outside validation_results] in Hrun;
        [destruct (time_time w0) as [t w3]|]; now inversion Hrun. }
  destruct valid; cbn [outside validation_results] in Hrun.
  2:{ destruct (time_time w0) as [t w3]. now inversion Hrun. }
  destruct (tool_named rt T tool_name) as [[n f]|e1] eqn:N;
    cbn [fst snd outside validation_results] in Hrun.
  2:{ destruct (is_exception e1); cbn [outside validation_results] in Hrun;
        [destruct (time_time w0) as [t w3]|]; now inversion Hrun. }
  destruct (keyword_arguments arguments) as [keywords|e2] eqn:K;
    cbn [fst snd outside validation_results] in Hrun.
  2:{ destruct (is_exception e2); cbn [outside validation_results] in Hrun;
        [destruct (time_time w0) as [t w3]|]; now inversion Hrun. }
  destruct (f keywords w0) as [[result|e3] w2] eqn:F;
    cbn [fst snd outside validation_results] in Hrun.
  2:{ destruct (is_exception e3); cbn [outside validation_results] in Hrun;
        [destruct (time_time w2) as [t w3]|]; now inversion Hrun. }
  destruct (time_time w2) as [t w3] eqn:T1.
  cbn [fst snd outside validation_results] in Hrun.
  assert (Hresult : result <> PNone).
  { intros ->. now inversion Hrun. }
  assert (Hname : tool_name = PStr n /\ T !! n = Some f).
  { destruct tool_name as [|b|z|x|s|l|d]; cbn [tool_named hashable] in N;
      try discriminate.
    destruct (T !! s) as [g|] eqn:L; [|discriminate].
    injection N as -> ->. now split. }
  assert (Harguments : arguments = PDict keywords).
  { destruct arguments; try discriminate. now injection K as ->. }
  destruct Hname as [Hname Hf].
  destruct (read_json env "youtube_mcp_server/tools.json") as [data|e4] eqn:R.
  2:{ destruct result; try contradiction;
        (destruct (is_exception e4); cbn [outside] in Hrun;
         [destruct (time_time w3) as [t' w4]|]; now inversion Hrun). }
  destruct (validate_output_schema jsonschema_validate n result data)
    as [[valid output_message]|e5] eqn:O.
  2:{ destruct result; try contradiction;
        (destruct (is_exception e5); cbn [outside] in Hrun;
         [destruct (time_time w3) as [t' w4]|]; now inversion Hrun). }
  destruct valid.
  2:{ destruct result; try contradiction; now inversion Hrun. }
  exists n, keywords, f, result, w0, w2, data.
  repeat split; try assumption.
  - exact (input_accepted _ _ _ _ V).
  - exact (output_accepted _ _ _ _ O).
Qed.

End Run.
End Validators.

End TestServerFacts.

(* ===================================================================== *)
(** * The further properties on the concrete deployment                   *)
(* ===================================================================== *)

Module Checks.
Import Py Re Handlers Tools Server TestServer.
Import PyFacts VideosFacts ToolsFacts ServerFacts RegistryFacts MonadFacts.
Import HandlersMore ServerMore TestServerFacts Scenario.

(** The platform when the API key is not set. *)
Definition keyless : services requests :=
  {| YOUTUBE_API_KEY := None;
     build := build svc0;
     search_list_execute := search_list_execute svc0;
     videos_list_execute := videos_list_execute svc0;
     transcript_api_list := transcript_api_list svc0 |}.

(** The platform when it refuses the search and the lookup with [e]. *)
Definition refusing (e : exn) : services requests :=
  {| YOUTUBE_API_KEY := Some "key";
     build := fun _ => ret tt;
     search_list_execute := fun params =>
       bind (sent "search.list") (fun _ => raise e);
     videos_list_execute := fun part id =>
       bind (sent ("videos.list part=" +:+ part +:+ " id=" +:+ id))
            (fun _ => raise e);
     transcript_api_list := transcript_api_list svc0 |}.

Definition quota_exceeded : exn :=
  {| exn_class_of := HttpError;
     exn_str := "<HttpError 403 quotaExceeded>";
     error_details :=
       PList [PDict [("message", PStr "The request cannot be completed");
                     ("reason", PStr "quotaExceeded")]] |}.

(** The platform when it answers every lookup with [response]. *)
Definition answering (response : pyval) : services requests :=
  {| YOUTUBE_API_KEY := Some "key";
     build := fun _ => ret tt;
     search_list_execute := search_list_execute svc0;
     videos_list_execute := fun part id =>
       bind (sent ("videos.list part=" +:+ part +:+ " id=" +:+ id))
            (fun _ => ret response);
     transcript_api_list := transcript_api_list svc0 |}.

Definition video0 : pyval :=
  PDict [("id", PStr "abc");
         ("snippet", PDict [("title", PStr "t")]);
         ("contentDetails", PDict [("duration", PStr "PT4M13S");
                                   ("definition", PStr "hd")])].

Definition lookup_response : pyval := PDict [("items", PList [video0])].

Lemma not_blank_abc : not_blank "abc".
Proof. unfold not_blank. vm_compute. discriminate. Qed.

Lemma not_blank_cats : not_blank "cats".
Proof. unfold not_blank. vm_compute. discriminate. Qed.

Lemma valid_ids_abc : valid_ids ["abc"].
Proof.
  split; [discriminate|]. split; [cbn; lia|].
  constructor; [exact not_blank_abc | constructor].
Qed.

Lemma search_videos_rejects_blank_query_witness :
  search_videos rt0 svc0 (PStr "   ") PNone []
  = (Raise (mk_exn ValueError
              "query parameter is required and cannot be empty"), []).
Proof.
  apply (search_videos_rejects_blank_query rt0 svc0 (PStr "   ") PNone []).
  right. exists "   ". split; reflexivity.
Defined.

Lemma no_request_without_api_key_witness :
  search_videos rt0 keyless (PStr "cats") PNone []
  = (Raise (mk_exn ValueError
              ("Unexpected error during video search: " +:+ key_required)), [])
  /\ get_videos rt0 keyless (PList [PStr "abc"]) PNone []
     = (Raise (mk_exn ValueError
                 ("Unexpected error during video retrieval: "
                    +:+ key_required)), []).
Proof.
  destruct (no_request_without_api_key rt0 keyless "cats" PNone ["abc"] None []
              (or_introl eq_refl)) as [H1 H2].
  split; [exact (H1 not_blank_cats) | exact (H2 valid_ids_abc I)].
Defined.

Lemma http_error_translation_witness :
  fst (search_videos rt0 (refusing quota_exceeded) (PStr "cats") PNone [])
  = Raise (mk_exn ValueError
             "YouTube API error: The request cannot be completed")
  /\ snd (search_videos rt0 (refusing quota_exceeded) (PStr "cats") PNone [])
     = ["search.list"].
Proof.
  destruct (http_error_translation rt0 (refusing quota_exceeded) "cats" PNone
              ["abc"] None [] ["search.list"] quota_exceeded eq_refl)
    as [H _].
  destruct (H not_blank_cats) as [(_ & Ht & _) Hw].
  { exists "key", []. split; [reflexivity|]. split; [discriminate|].
    split; reflexivity. }
  split; [exact (Ht _ _ eq_refl) | exact Hw].
Defined.

Lemma videos_pass_through_witness :
  get_videos rt0 (answering lookup_response) (PList [PStr "abc"]) PNone []
  = (Return (PDict [("items", PList [video0]); ("pageInfo", counts [video0])]),
     ["videos.list part=snippet id=abc"]).
Proof.
  apply (videos_pass_through rt0 (answering lookup_response) ["abc"] None
           [] ["videos.list part=snippet id=abc"] lookup_response [video0]).
  - exact valid_ids_abc.
  - exact I.
  - cbn. intros [H|[]]. discriminate H.
  - exists "key", []. split; [reflexivity|]. split; [discriminate|].
    split; reflexivity.
  - reflexivity.
Defined.

Lemma videos_get_duration_seconds_witness :
  exists items,
    get_videos rt0 (answering lookup_response) (PList [PStr "abc"])
      (PList [PStr "snippet"; PStr "contentDetails"]) []
    = (Return (PDict [("items", PList items); ("pageInfo", counts items)]),
       ["videos.list part=snippet,contentDetails id=abc"])
    /\ Forall2 with_duration_seconds [video0] items.
Proof.
  apply (videos_get_duration_seconds rt0 (answering lookup_response) ["abc"]
           (Some ["snippet"; "contentDetails"])
           [] ["videos.list part=snippet,contentDetails id=abc"]
           lookup_response [video0]).
  - exact valid_ids_abc.
  - cbn. constructor; [|constructor; [|constructor]]; cbn; tauto.
  - cbn. tauto.
  - exists "key", []. split; [reflexivity|]. split; [discriminate|].
    split; reflexivity.
  - reflexivity.
  - constructor; [|constructor]. eexists. split; [reflexivity|].
    cbn [dict_get String.eqb Ascii.eqb Bool.eqb]. eexists.
    split; [reflexivity|].
    cbn [dict_get String.eqb Ascii.eqb Bool.eqb]. eexists.
    split; [reflexivity|]. apply Nat.leb_le. reflexivity.
Defined.


Lemma get_transcript_rejects_blank_video_id_witness :
  get_transcript svc0 (PStr " ") (PStr "en") []
  = (Raise (mk_exn ValueError
              "videoId parameter is required and cannot be empty"), []).
Proof.
  apply (get_transcript_rejects_blank_video_id svc0 (PStr " ") (PStr "en") []).
  right. exists " ". split; reflexivity.
Defined.

(** ** The server *)

Lemma misfit_arguments_stop_at_the_call_witness :
  exists msg,
    handle_call_tool T0 "search_videos" (Some [("q", PStr "cats")]) fresh
    = (Raise (mk_exn ValueError ("Tool execution error: " +:+ msg)),
       {| world := [];
          log := ["Error calling tool search_videos: " +:+ msg] |}).
Proof.
  apply (misfit_arguments_stop_at_the_call rt0 svc0 "search_videos"
           (Some [("q", PStr "cats")]) fresh).
  - left. reflexivity.
  - intros [H _]. destruct (H "q" (or_introl eq_refl)) as [E|E];
      discriminate E.
Defined.

(** [env0] with another [tools.json] in the working directory. *)
Definition env_shadowed : environment :=
  {| package_dir := "/srv/youtube_mcp_server";
     cwd := "/home/user";
     read_json := fun path =>
       if String.eqb path "/srv/youtube_mcp_server/tools.json"
       then Return tools_json
       else if String.eqb path "/home/user/tools.json"
       then Return (PDict [("tools", PList [])])
       else Raise no_such_file |}.

Lemma packaged_copy_decides_witness :
  load_tool_schemas env_shadowed [] = load_tool_schemas env0 [].
Proof.
  apply (packaged_copy_decides env0 env_shadowed []).
  - intros e H. vm_compute in H. discriminate H.
  - reflexivity.
  - reflexivity.
Defined.

(** A packaged document without [tools], and one whose second tool has no
    [name]. *)
Definition env_with (doc : pyval) : environment :=
  {| package_dir := "/srv/youtube_mcp_server";
     cwd := "/home/user";
     read_json := fun path =>
       if String.eqb path "/srv/youtube_mcp_server/tools.json"
       then Return doc else Raise no_such_file |}.

Definition nameless : list (string * pyval) :=
  [("description", PStr "no name")].

Lemma load_fails_on_missing_key_witness :
  load_tool_schemas (env_with (PDict [("definitions", PDict [])])) []
  = (Raise (mk_exn KeyError "'tools'"), [])
  /\ load_tool_schemas
       (env_with (PDict [("tools",
                          PList [tool "a" "first" PNone PNone;
                                 PDict nameless])])) []
     = (Raise (mk_exn KeyError "'name'"), []).
Proof.
  split.
  - apply (proj1 (load_fails_on_missing_key
                    (env_with (PDict [("definitions", PDict [])])) []
                    [("definitions", PDict [])] (or_introl eq_refl))).
    reflexivity.
  - apply (proj2 (load_fails_on_missing_key
                    (env_with (PDict [("tools",
                                       PList [tool "a" "first" PNone PNone;
                                              PDict nameless])])) []
                    [("tools", PList [tool "a" "first" PNone PNone;
                                      PDict nameless])]
                    (or_introl eq_refl))
             [tool "a" "first" PNone PNone] ["a"] nameless []).
    + reflexivity.
    + constructor; [|constructor]. eexists. split; reflexivity.
    + reflexivity.
Defined.

(** A document that declares [a] twice. *)
Definition twice : list pyval :=
  [tool "a" "first" (of_type "object") (of_type "string");
   tool "b" "other" (of_type "object") (of_type "object");
   tool "a" "second" (of_type "object") (of_type "integer")].

Definition document_twice : list (string * pyval) :=
  [("tools", PList twice); ("definitions", PDict definitions0)].

Lemma twice_named : Forall2 named twice ["a"; "b"; "a"].
Proof.
  repeat (constructor; [eexists; split; reflexivity|]). constructor.
Qed.

Lemma registry_holds_last_declaration_witness :
  exists reg,
    load_tool_schemas (env_with (PDict document_twice)) [] = (Return reg, [])
    /\ List.NoDup (schema_names reg)
    /\ forall n, keyed_get reg (PStr n)
                 = last_named n twice ["a"; "b"; "a"] None.
Proof.
  apply (registry_holds_last_declaration (env_with (PDict document_twice)) []
           document_twice twice ["a"; "b"; "a"]).
  - left. reflexivity.
  - reflexivity.
  - exact twice_named.
Defined.

(** A constructor of [Tool] that accepts any fields. *)
Definition any_Tool (name description inputSchema outputSchema : pyval)
    : outcome pyval :=
  Return (PList [name; description; inputSchema; outputSchema]).

Lemma listing_is_all_or_nothing_witness :
  exists e,
    handle_list_tools
      [(PStr "a", tool "a" "first" (of_type "object") (of_type "string"));
       (PStr "b", PDict [("name", PStr "b"); ("description", PStr "other");
                         ("inputSchema", of_type "object")])]
      pyval any_Tool
    = Raise e.
Proof.
  apply (proj2 (listing_is_all_or_nothing pyval any_Tool _)
           (PStr "b")
           [("name", PStr "b"); ("description", PStr "other");
            ("inputSchema", of_type "object")]
           "outputSchema").
  - right. left. reflexivity.
  - right. right. left. reflexivity.
  - reflexivity.
Defined.

(** ** The test runner *)

Lemma clean_structure_can_be_listed_witness :
  oensures (handle_list_tools TOOL_SCHEMAS0 pyval any_Tool) anything
    (fun e => exists name description inputSchema outputSchema,
                any_Tool name description inputSchema outputSchema = Raise e).
Proof.
  apply (clean_structure_can_be_listed pyval any_Tool rt0 TOOL_SCHEMAS0).
  vm_compute. reflexivity.
Defined.

(** A validator that only looks at the [type] of the schema. *)
Definition by_type (instance schema : pyval) : validation :=
  match schema with
  | PDict d =>
      match dict_get d "type" with
      | Some (PStr ty) =>
          if String.eqb ty "object" then
            match instance with
            | PDict _ => Conforms
            | _ => Violates "instance is not of type 'object'"
            end
          else if String.eqb ty "string" then
            match instance with
            | PStr _ => Conforms
            | _ => Violates "instance is not of type 'string'"
            end
          else Conforms
      | _ => Conforms
      end
  | _ => Fails (mk_exn OtherException "schema is not an object")
  end.

Lemma output_checked_against_first_declaration_witness :
  validate_output_schema by_type "a" (PInt 3) (PDict document_twice)
  = validate_output_schema by_type "a" (PInt 3)
      (PDict [("tools",
               PList [tool "a" "first" (of_type "object") (of_type "string")]);
              ("definitions", PDict definitions0)]).
Proof.
  apply (proj1 (output_checked_against_first_declaration by_type "a" (PInt 3)
                  document_twice twice ["a"; "b"; "a"] eq_refl twice_named)).
  left. reflexivity.
Defined.

(** A clock that stands still. *)
Definition clock (w : requests) : float * requests := (0%float, w).

(** [env0] seen from a working directory in which the relative path of the
    runner leads to the packaged document. *)
Definition env_runner : environment :=
  {| package_dir := "/srv/youtube_mcp_server";
     cwd := "/srv";
     read_json := fun path =>
       if String.eqb path "/srv/youtube_mcp_server/tools.json"
          || String.eqb path "youtube_mcp_server/tools.json"
       then Return tools_json else Raise no_such_file |}.

Lemma run_tool_test_gives_a_verdict_witness :
  ensures (run_tool_test rt0 by_type clock env_runner T0
             (PStr "get_transcript") (PList []) (PDict []) TOOL_SCHEMAS0)
    anything passes_except_exception.
Proof.
  apply (run_tool_test_gives_a_verdict rt0 by_type clock env_runner T0).
  now exists [].
Defined.

Definition negative : pyval := PDict [("should_succeed", PBool false)].

(** A misspelt tool name makes a negative test pass. *)
Lemma negative_test_passes_on_any_exception_witness :
  run_tool_test rt0 by_type clock env_runner T0
    (PStr "get_transcripts") (PDict [("videoId", PStr "vid")]) negative
    TOOL_SCHEMAS0 []
  = (Return (true, "Expected error: Unknown tool: get_transcripts",
             PrimFloat.sub 0 0,
             input_recorded
               (false, "No schema found for tool get_transcripts")),
     []).
Proof.
  apply (negative_test_passes_on_any_exception rt0 by_type clock env_runner T0
           (PStr "get_transcripts") (PDict [("videoId", PStr "vid")]) negative
           TOOL_SCHEMAS0 (false, "No schema found for tool get_transcripts")
           []).
  - reflexivity.
  - vm_compute. reflexivity.
Defined.

Lemma passed_test_was_validated_witness :
  exists n keywords f result w1 w2 data,
    PStr "get_transcript" = PStr n
    /\ PDict [("videoId", PStr "vid")] = PDict keywords
    /\ T0 !! n = Some f
    /\ accepted_input by_type (PStr "get_transcript")
         (PDict [("videoId", PStr "vid")]) TOOL_SCHEMAS0
    /\ w1 = snd (clock [])
    /\ f keywords w1 = (Return result, w2)
    /\ result <> PNone
    /\ read_json env_runner "youtube_mcp_server/tools.json" = Return data
    /\ accepted_output by_type n result data.
Proof.
  apply (passed_test_was_validated rt0 by_type clock env_runner T0
           (PStr "get_transcript") (PDict [("videoId", PStr "vid")])
           (PDict []) TOOL_SCHEMAS0 []
           "All validations passed - returned dict" 0%float
           [("input_validation",
             PDict [("valid", PBool true);
                    ("message", PStr "Input validation passed")]);
            ("output_validation",
             PDict [("valid", PBool true);
                    ("message", PStr "Output validation passed")])]
           ["transcripts.list vid"; "fetch en"]).
  - reflexivity.
  - vm_compute. reflexivity.
Defined.

End Checks.
